(** * BinAssist: the analysis store and its transcript synthesizer

    A shallow embedding of [src/services/analysis_db_service.py] and of the
    provider table of [src/services/settings_service.py].

    - [Py]: the Python string and value operations the services rely on
      ([str.strip], [str.find], [str.split], [str.replace], [str()], ...).
    - [Json]: JSON documents as Python holds them after [json.loads], with
      the [json] module's printer and parser.
    - [AnalysisDB]: the SQLite tables of the analysis store as lists of
      rows, the statements of each operation, and the display pipeline
      ([_group_and_deduplicate_messages], [_format_message_for_display]).
    - [Settings]: the [llm_providers] and [settings] tables.
    - [SettingsService]: the typed values of the settings table
      ([_serialize_value], [_deserialize_value]), its operations, the
      defaults, and the operations on [llm_providers] and [mcp_providers].
    - [Analyses]: the tables BNAnalysis and BNChatMetadata.
    - [SystemPrompt]: the system prompt, which the settings service keeps in
      the analysis store.
    - [Spec] and [Notions]: the notions the properties are stated with.

    Strings are sequences of code points below U+0100, one [ascii] per code
    point.  Floating-point numbers are a type the sections of
    [SettingsService] take as given, with its reader and printer. *)

From Stdlib Require Import ZArith List String Ascii Bool Arith Lia Sorted.
From Stdlib Require Import DecimalString.
From Stdlib Require Decimal DecimalFacts DecimalPos.
From Equations Require Import Equations.
Import ListNotations.
Open Scope string_scope.
Set Warnings "-register-all".

(** * Python strings *)

Module Py.

(** [c.isspace()] for a code point below U+0100. *)
Definition isspace (c : ascii) : bool :=
  let n := nat_of_ascii c in
  (((9 <=? n) && (n <=? 13)) || ((28 <=? n) && (n <=? 32))
   || (n =? 133) || (n =? 160))%nat.

Fixpoint lstrip (s : string) : string :=
  match s with
  | String c s' => if isspace c then lstrip s' else s
  | EmptyString => EmptyString
  end.

Fixpoint rstrip (s : string) : string :=
  match s with
  | EmptyString => EmptyString
  | String c s' =>
      match rstrip s' with
      | EmptyString => if isspace c then EmptyString else String c EmptyString
      | r => String c r
      end
  end.

(** [s.strip()] *)
Definition strip (s : string) : string := rstrip (lstrip s).

(** [s.startswith(p)] *)
Definition startswith (s p : string) : bool := prefix p s.

(** [sub in s] *)
Fixpoint contains (sub s : string) : bool :=
  prefix sub s ||
  match s with
  | EmptyString => false
  | String _ s' => contains sub s'
  end.

Fixpoint find_from (sub s : string) (i : Z) : Z :=
  if prefix sub s then i
  else match s with
       | EmptyString => (-1)%Z
       | String _ s' => find_from sub s' (i + 1)%Z
       end.

(** [s.find(sub)]: the lowest index of [sub] in [s], or -1. *)
Definition find (s sub : string) : Z := find_from sub s 0%Z.

Fixpoint drop (n : nat) (s : string) : string :=
  match n, s with
  | O, _ => s
  | S _, EmptyString => EmptyString
  | S k, String _ s' => drop k s'
  end.

(** [s[i:]], with Python's reading of a negative index. *)
Definition slice_from (s : string) (i : Z) : string :=
  if (i <? 0)%Z
  then drop (Z.to_nat (Z.max 0 (Z.of_nat (length s) + i))) s
  else drop (Z.to_nat i) s.

(** [s[:n]] for a non-negative [n]. *)
Definition slice_to (s : string) (n : nat) : string := substring 0 n s.

(** [s.replace(old, new)] for a non-empty [old]: occurrences are found left
    to right and do not overlap; [skip] counts the characters of the
    occurrence just replaced that are still to be passed over. *)
Fixpoint replace_go (old new : string) (skip : nat) (s : string) : string :=
  match s with
  | EmptyString => EmptyString
  | String c s' =>
      match skip with
      | S k => replace_go old new k s'
      | O =>
          if prefix old s
          then new ++ replace_go old new (length old - 1) s'
          else String c (replace_go old new 0 s')
      end
  end.

Definition replace (s old new : string) : string := replace_go old new 0 s.

(** [s.split(sep)] for a non-empty [sep]; [cur] is the piece being built. *)
Fixpoint split_go (sep : string) (skip : nat) (cur s : string) : list string :=
  match s with
  | EmptyString => [cur]
  | String c s' =>
      match skip with
      | S k => split_go sep k cur s'
      | O =>
          if prefix sep s
          then cur :: split_go sep (length sep - 1) EmptyString s'
          else split_go sep 0 (cur ++ String c EmptyString) s'
      end
  end.

Definition split (s sep : string) : list string := split_go sep 0 EmptyString s.

(** [s.split()]: the maximal runs of non-space characters. *)
Fixpoint split_ws_go (cur s : string) : list string :=
  match s with
  | EmptyString => if (cur =? "") then [] else [cur]
  | String c s' =>
      if isspace c
      then (if (cur =? "") then split_ws_go "" s' else cur :: split_ws_go "" s')
      else split_ws_go (cur ++ String c EmptyString) s'
  end.

Definition split_ws (s : string) : list string := split_ws_go "" s.

(** [sep.join(parts)] *)
Definition join (sep : string) (parts : list string) : string := concat sep parts.

(** [str(n)] for an integer. *)
Definition str_int (z : Z) : string := NilZero.string_of_int (Z.to_int z).

(** [str(b)] for a boolean. *)
Definition str_bool (b : bool) : string := if b then "True" else "False".

Definition nl : string := String (ascii_of_nat 10) EmptyString.

(** The double-quote character. *)
Definition dquote : ascii := ascii_of_nat 34.

(** Lower-case hexadecimal digit of a value below 16. *)
Definition hex_digit (n : nat) : ascii :=
  if (n <? 10)%nat then ascii_of_nat (48 + n) else ascii_of_nat (87 + n).

(** Two hexadecimal digits of a code point below U+0100. *)
Definition hex2 (c : ascii) : string :=
  let n := nat_of_ascii c in
  String (hex_digit (n / 16)) (String (hex_digit (n mod 16)) EmptyString).

(** [c.isprintable()] for a code point below U+0100. *)
Definition isprintable (c : ascii) : bool :=
  let n := nat_of_ascii c in
  (((32 <=? n) && (n <=? 126)) || ((161 <=? n) && negb (n =? 173)))%nat.

(** The exceptions the modelled code can raise. *)
Inductive exn : Type :=
| TypeError | AttributeError | KeyError | ValueError
| JSONDecodeError | IntegrityError | RuntimeError.

(** The outcome of a call: a value, or a raised exception. *)
Inductive outcome (A : Type) : Type :=
| Ok (a : A)
| Raise (e : exn).
Arguments Ok {A} a.
Arguments Raise {A} e.

Definition bind {A B : Type} (m : outcome A) (k : A -> outcome B) : outcome B :=
  match m with
  | Ok a => k a
  | Raise e => Raise e
  end.

End Py.

Notation "x <- m ;; k" := (Py.bind m (fun x => k))
  (at level 61, m at next level, right associativity).

(** * JSON documents and Python's [json] module *)

Module Json.
Import Py.

(** A document as Python holds it: [None], [bool], [int], [str], [list],
    [dict].  A [dict] keeps its keys in insertion order. *)
Inductive json : Type :=
| JNull
| JBool (b : bool)
| JInt (n : Z)
| JStr (s : string)
| JList (items : list json)
| JDict (members : list (string * json)).

(** [d[k]] lookup in a [dict]'s members. *)
Fixpoint dict_get (k : string) (d : list (string * json)) : option json :=
  match d with
  | [] => None
  | (k', v) :: d' => if (k' =? k) then Some v else dict_get k d'
  end.

(** [d[k] = v]: an existing key keeps its position. *)
Fixpoint dict_set (k : string) (v : json) (d : list (string * json))
  : list (string * json) :=
  match d with
  | [] => [(k, v)]
  | (k', v') :: d' =>
      if (k' =? k) then (k', v) :: d' else (k', v') :: dict_set k v d'
  end.

Definition dict_of_pairs (ps : list (string * json)) : list (string * json) :=
  fold_left (fun d kv => dict_set (fst kv) (snd kv) d) ps [].

Definition is_dict (v : json) : bool :=
  match v with JDict _ => true | _ => false end.

Definition is_str (v : json) : bool :=
  match v with JStr _ => true | _ => false end.

(** [v == s] for a string literal [s]. *)
Definition eq_str (v : json) (s : string) : bool :=
  match v with JStr s' => (s' =? s) | _ => false end.

(** [bool(v)] *)
Definition truthy (v : json) : bool :=
  match v with
  | JNull => false
  | JBool b => b
  | JInt n => negb (n =? 0)%Z
  | JStr s => negb (s =? "")
  | JList l => match l with [] => false | _ => true end
  | JDict d => match d with [] => false | _ => true end
  end.

(** [k in v] for a string [k]. *)
Definition py_in (k : string) (v : json) : outcome bool :=
  match v with
  | JDict d => Ok (match dict_get k d with Some _ => true | None => false end)
  | JList l => Ok (existsb (fun x => eq_str x k) l)
  | JStr s => Ok (contains k s)
  | _ => Raise TypeError
  end.

(** [v[k]] for a string [k]. *)
Definition py_getitem (v : json) (k : string) : outcome json :=
  match v with
  | JDict d => match dict_get k d with Some x => Ok x | None => Raise KeyError end
  | _ => Raise TypeError
  end.

(** [v.get(k, default)] *)
Definition py_get (v : json) (k : string) (default : json) : outcome json :=
  match v with
  | JDict d => Ok (match dict_get k d with Some x => x | None => default end)
  | _ => Raise AttributeError
  end.

Fixpoint chars (s : string) : list json :=
  match s with
  | EmptyString => []
  | String c s' => JStr (String c EmptyString) :: chars s'
  end.

(** [for x in v]: the values the loop visits. *)
Definition py_iter (v : json) : outcome (list json) :=
  match v with
  | JList l => Ok l
  | JDict d => Ok (map (fun kv => JStr (fst kv)) d)
  | JStr s => Ok (chars s)
  | _ => Raise TypeError
  end.

(** [repr(s)] for a string. *)
Definition repr_char (quote c : ascii) : string :=
  if (c =? quote)%char || (c =? "\")%char then String "\" (String c "")
  else if (c =? ascii_of_nat 9)%char then "\t"
  else if (c =? ascii_of_nat 10)%char then "\n"
  else if (c =? ascii_of_nat 13)%char then "\r"
  else if isprintable c then String c ""
  else "\x" ++ hex2 c.

Fixpoint repr_chars (quote : ascii) (s : string) : string :=
  match s with
  | EmptyString => EmptyString
  | String c s' => repr_char quote c ++ repr_chars quote s'
  end.

Definition repr_str (s : string) : string :=
  let quote : ascii :=
    if contains "'" s && negb (contains (String dquote "") s)
    then dquote else "'"%char in
  String quote (repr_chars quote s ++ String quote "").

(** [repr(v)] *)
Fixpoint repr (v : json) : string :=
  match v with
  | JNull => "None"
  | JBool b => str_bool b
  | JInt n => str_int n
  | JStr s => repr_str s
  | JList l => "[" ++ join ", " (map repr l) ++ "]"
  | JDict d =>
      "{" ++ join ", " (map (fun kv => repr_str (fst kv) ++ ": " ++ repr (snd kv)) d)
      ++ "}"
  end.

(** [str(v)], which an f-string applies to an interpolated value. *)
Definition str (v : json) : string :=
  match v with
  | JStr s => s
  | _ => repr v
  end.

(** ** [json.dumps] with its default settings *)

Definition escape_char (c : ascii) : string :=
  let n := nat_of_ascii c in
  if (c =? dquote)%char then String "\" (String dquote "")
  else if (c =? "\")%char then "\\"
  else if (n =? 8)%nat then "\b"
  else if (n =? 12)%nat then "\f"
  else if (n =? 10)%nat then "\n"
  else if (n =? 13)%nat then "\r"
  else if (n =? 9)%nat then "\t"
  else if ((32 <=? n) && (n <=? 126))%nat then String c ""
  else "\u00" ++ hex2 c.

Fixpoint escape (s : string) : string :=
  match s with
  | EmptyString => EmptyString
  | String c s' => escape_char c ++ escape s'
  end.

Definition dumps_str (s : string) : string :=
  String dquote (escape s ++ String dquote "").

Fixpoint dumps (v : json) : string :=
  match v with
  | JNull => "null"
  | JBool b => if b then "true" else "false"
  | JInt n => str_int n
  | JStr s => dumps_str s
  | JList l => "[" ++ join ", " (map dumps l) ++ "]"
  | JDict d =>
      "{" ++ join ", " (map (fun kv => dumps_str (fst kv) ++ ": " ++ dumps (snd kv)) d)
      ++ "}"
  end.

(** ** [json.loads]

    [None] stands for [JSONDecodeError].  A number with a fraction or an
    exponent, [NaN], [Infinity] and an escape above U+00FF denote values
    outside the model; the parser answers [None] on them as well. *)

Definition is_ws (c : ascii) : bool :=
  let n := nat_of_ascii c in
  ((n =? 32) || (n =? 9) || (n =? 10) || (n =? 13))%nat.

Fixpoint skip_ws (s : string) : string :=
  match s with
  | String c s' => if is_ws c then skip_ws s' else s
  | EmptyString => EmptyString
  end.

Definition is_digit (c : ascii) : bool :=
  let n := nat_of_ascii c in ((48 <=? n) && (n <=? 57))%nat.

Fixpoint span_digits (s : string) : string * string :=
  match s with
  | String c s' =>
      if is_digit c
      then let '(ds, r) := span_digits s' in (String c ds, r)
      else (EmptyString, s)
  | EmptyString => (EmptyString, EmptyString)
  end.

Definition hex_value (c : ascii) : option nat :=
  let n := nat_of_ascii c in
  if ((48 <=? n) && (n <=? 57))%nat then Some (n - 48)
  else if ((97 <=? n) && (n <=? 102))%nat then Some (n - 87)
  else if ((65 <=? n) && (n <=? 70))%nat then Some (n - 55)
  else None.

Definition unescape (c : ascii) : option ascii :=
  if (c =? dquote)%char then Some dquote
  else if (c =? "\")%char then Some "\"%char
  else if (c =? "/")%char then Some "/"%char
  else if (c =? "b")%char then Some (ascii_of_nat 8)
  else if (c =? "f")%char then Some (ascii_of_nat 12)
  else if (c =? "n")%char then Some (ascii_of_nat 10)
  else if (c =? "r")%char then Some (ascii_of_nat 13)
  else if (c =? "t")%char then Some (ascii_of_nat 9)
  else None.

(** Where the string scanner stands: in plain text, after a backslash, or
    inside [\uXXXX] with [k] digits to go. *)
Inductive sstate : Type :=
| SNormal
| SEscape
| SHex (k : nat) (acc : nat).

Definition cons_char (c : ascii) (r : option (string * string))
  : option (string * string) :=
  match r with
  | Some (x, rest) => Some (String c x, rest)
  | None => None
  end.

(** Scans a string literal after its opening quote: the decoded text and
    what follows the closing quote. *)
Fixpoint scan_string (st : sstate) (s : string) : option (string * string) :=
  match s with
  | EmptyString => None
  | String c r =>
      match st with
      | SNormal =>
          if (c =? dquote)%char then Some (EmptyString, r)
          else if (c =? "\")%char then scan_string SEscape r
          else if (nat_of_ascii c <? 32)%nat then None
          else cons_char c (scan_string SNormal r)
      | SEscape =>
          match unescape c with
          | Some ch => cons_char ch (scan_string SNormal r)
          | None => if (c =? "u")%char then scan_string (SHex 4 0) r else None
          end
      | SHex (S k) acc =>
          match hex_value c with
          | Some h =>
              let acc' := (16 * acc + h)%nat in
              match k with
              | O => if (acc' <? 256)%nat
                     then cons_char (ascii_of_nat acc') (scan_string SNormal r)
                     else None
              | S _ => scan_string (SHex k acc') r
              end
          | None => None
          end
      | SHex O _ => None
      end
  end.

(** An integer literal: an optional minus sign, then either a single zero
    or a non-zero digit followed by digits; not followed by a fraction or an
    exponent. *)
Definition parse_number (s : string) : option (json * string) :=
  let '(neg, s1) :=
    match s with
    | String "-" r => (true, r)
    | _ => (false, s)
    end in
  let '(ds, rest) := span_digits s1 in
  match ds with
  | EmptyString => None
  | String d ds' =>
      if (d =? "0")%char && negb (ds' =? "") then None
      else if prefix "." rest || prefix "e" rest || prefix "E" rest then None
      else match NilEmpty.uint_of_string ds with
           | Some u => Some (JInt (if neg then - Z.of_uint u else Z.of_uint u)%Z, rest)
           | None => None
           end
  end.

Fixpoint parse_value (fuel : nat) (s : string) : option (json * string) :=
  match fuel with
  | O => None
  | S f =>
      match s with
      | EmptyString => None
      | String c r =>
          if (c =? dquote)%char then
            match scan_string SNormal r with
            | Some (x, r') => Some (JStr x, r')
            | None => None
            end
          else if (c =? "{")%char then
            if prefix "}" (skip_ws r) then Some (JDict [], drop 1 (skip_ws r))
            else
              match parse_members f (skip_ws r) with
              | Some (ps, r') => Some (JDict (dict_of_pairs ps), r')
              | None => None
              end
          else if (c =? "[")%char then
            if prefix "]" (skip_ws r) then Some (JList [], drop 1 (skip_ws r))
            else
              match parse_elements f (skip_ws r) with
              | Some (vs, r') => Some (JList vs, r')
              | None => None
              end
          else if prefix "null" s then Some (JNull, drop 4 s)
          else if prefix "true" s then Some (JBool true, drop 4 s)
          else if prefix "false" s then Some (JBool false, drop 5 s)
          else parse_number s
      end
  end

(** The elements of an array from the start of a value to the closing
    bracket. *)
with parse_elements (fuel : nat) (s : string) : option (list json * string) :=
  match fuel with
  | O => None
  | S f =>
      match parse_value f s with
      | Some (v, r) =>
          if prefix "," (skip_ws r) then
            match parse_elements f (skip_ws (drop 1 (skip_ws r))) with
            | Some (vs, r'') => Some (v :: vs, r'')
            | None => None
            end
          else if prefix "]" (skip_ws r) then Some ([v], drop 1 (skip_ws r))
          else None
      | None => None
      end
  end

(** The members of an object from the opening quote of a key to the closing
    brace. *)
with parse_members (fuel : nat) (s : string)
  : option (list (string * json) * string) :=
  match fuel with
  | O => None
  | S f =>
      match s with
      | String c r =>
          if (c =? dquote)%char then
            match scan_string SNormal r with
            | Some (k, r1) =>
                if prefix ":" (skip_ws r1) then
                  match parse_value f (skip_ws (drop 1 (skip_ws r1))) with
                  | Some (v, r3) =>
                      if prefix "," (skip_ws r3) then
                        match parse_members f (skip_ws (drop 1 (skip_ws r3))) with
                        | Some (ps, r5) => Some ((k, v) :: ps, r5)
                        | None => None
                        end
                      else if prefix "}" (skip_ws r3)
                      then Some ([(k, v)], drop 1 (skip_ws r3))
                      else None
                  | None => None
                  end
                else None
            | None => None
            end
          else None
      | EmptyString => None
      end
  end.

(** [json.loads(s)]: one value between optional white space, nothing after
    it.  Each call of the parser consumes a character at least every second
    level, which bounds the fuel. *)
Definition loads (s : string) : option json :=
  match parse_value (2 * length s + 4) (skip_ws s) with
  | Some (v, r) => if (skip_ws r =? "") then Some v else None
  | None => None
  end.

End Json.

(** * The analysis store *)

Module AnalysisDB.
Import Py Json.

(** ** Time stamps

    A [datetime] is a calendar reading of a clock.  [isoformat] is Python's
    [datetime.isoformat()], the text [save_context_cache] stores;
    [CURRENT_TIMESTAMP] is the text SQLite produces for the keyword of that
    name, the date and the time of day separated by a space.  The first is
    a reading of the local clock and the second of the UTC clock, at most
    fourteen hours apart. *)

Record datetime : Type := mk_datetime {
  year : nat; month : nat; day : nat;
  hour : nat; minute : nat; second : nat; microsecond : nat
}.

Fixpoint zeros (n : nat) : string :=
  match n with
  | O => EmptyString
  | S k => String "0" (zeros k)
  end.

(** [n] in decimal, padded with zeros on the left to [width] digits. *)
Definition zfill (width n : nat) : string :=
  let s := str_int (Z.of_nat n) in
  zeros (width - length s) ++ s.

Definition isoformat (d : datetime) : string :=
  zfill 4 (year d) ++ "-" ++ zfill 2 (month d) ++ "-" ++ zfill 2 (day d)
  ++ "T" ++ zfill 2 (hour d) ++ ":" ++ zfill 2 (minute d) ++ ":"
  ++ zfill 2 (second d)
  ++ (if (microsecond d =? 0)%nat then "" else "." ++ zfill 6 (microsecond d)).

Definition CURRENT_TIMESTAMP (d : datetime) : string :=
  zfill 4 (year d) ++ "-" ++ zfill 2 (month d) ++ "-" ++ zfill 2 (day d)
  ++ " " ++ zfill 2 (hour d) ++ ":" ++ zfill 2 (minute d) ++ ":"
  ++ zfill 2 (second d).

(** The readings of one clock in time order. *)
Definition fields (d : datetime) : list nat :=
  [year d; month d; day d; hour d; minute d; second d; microsecond d].

Fixpoint lex_ltb (a b : list nat) : bool :=
  match a, b with
  | x :: a', y :: b' => (x <? y)%nat || ((x =? y)%nat && lex_ltb a' b')
  | [], _ :: _ => true
  | _, [] => false
  end.

Definition earlier (a b : datetime) : bool := lex_ltb (fields a) (fields b).

(** The comparisons of the WHERE clauses.  The column expires_at is
    declared TIMESTAMP, which gives it NUMERIC affinity; the value bound to
    it is the text of [isoformat], which is not a number and is stored as
    TEXT, and CURRENT_TIMESTAMP is TEXT as well.  SQLite compares two TEXT
    values byte by byte (the BINARY collation). *)
Definition text_gt (a b : string) : bool := String.ltb b a.
Definition text_le (a b : string) : bool := String.leb a b.

(** ** Tables *)

(** BNContext; UNIQUE(binary_hash, function_start); [None] is NULL. *)
Record ContextRow : Type := mk_context {
  ctx_id : Z;
  ctx_binary_hash : string;
  ctx_function_start : Z;
  ctx_context_data : string;
  ctx_expires_at : option string
}.

(** BNChatHistory; UNIQUE(binary_hash, chat_id, message_order). *)
Record ChatHistoryRow : Type := mk_history {
  ch_id : Z;
  ch_binary_hash : string;
  ch_chat_id : string;
  ch_message_order : Z;
  ch_role : string;
  ch_content : string;
  ch_metadata : option string
}.

(** Modelled from the spec: the table BNChatMessages, which a migration
    creates and no statement of the service declares.  It has one row per
    (subject, chat, message_order), and the columns are those the INSERT of
    [save_native_message] names. *)
Record ChatMessageRow : Type := mk_message {
  cm_id : Z;
  cm_binary_hash : string;
  cm_chat_id : string;
  cm_message_order : Z;
  cm_provider_type : string;
  cm_native_message_data : string;
  cm_role : string;
  cm_content_text : string;
  cm_message_type : string;
  cm_parent_message_id : option Z;
  cm_conversation_thread_id : option string
}.

(** SystemPrompts; no uniqueness constraint besides the row id. *)
Record SystemPromptRow : Type := mk_prompt {
  sp_id : Z;
  sp_prompt : string;
  sp_version : string;
  sp_is_active : bool
}.

(** The database file: its tables in insertion order and, per table, the
    last row id AUTOINCREMENT handed out.  The created_at and updated_at
    columns are left out: the one operation that reads one of them,
    [get_active_system_prompt], takes it as a function of the row id.  The
    tables BNAnalysis and BNChatMetadata, which share no operation with
    these, are in [Analyses]. *)
Record DB : Type := mk_db {
  BNContext : list ContextRow;
  BNChatHistory : list ChatHistoryRow;
  BNChatMessages : list ChatMessageRow;
  SystemPrompts : list SystemPromptRow;
  seq_BNContext : Z;
  seq_BNChatHistory : Z;
  seq_BNChatMessages : Z;
  seq_SystemPrompts : Z
}.

Definition empty_db : DB := mk_db [] [] [] [] 0 0 0 0.

Definition with_BNContext (db : DB) (t : list ContextRow) (s : Z) : DB :=
  mk_db t (BNChatHistory db) (BNChatMessages db) (SystemPrompts db)
        s (seq_BNChatHistory db) (seq_BNChatMessages db) (seq_SystemPrompts db).

Definition with_BNChatHistory (db : DB) (t : list ChatHistoryRow) (s : Z) : DB :=
  mk_db (BNContext db) t (BNChatMessages db) (SystemPrompts db)
        (seq_BNContext db) s (seq_BNChatMessages db) (seq_SystemPrompts db).

Definition with_BNChatMessages (db : DB) (t : list ChatMessageRow) (s : Z) : DB :=
  mk_db (BNContext db) (BNChatHistory db) t (SystemPrompts db)
        (seq_BNContext db) (seq_BNChatHistory db) s (seq_SystemPrompts db).

Definition with_SystemPrompts (db : DB) (t : list SystemPromptRow) (s : Z) : DB :=
  mk_db (BNContext db) (BNChatHistory db) (BNChatMessages db) t
        (seq_BNContext db) (seq_BNChatHistory db) (seq_BNChatMessages db) s.

(** ** SQL helpers *)

(** MAX(...) over the selected values; NULL on no row. *)
Definition sql_max (l : list Z) : option Z :=
  fold_left (fun acc x => match acc with
                          | None => Some x
                          | Some m => Some (Z.max m x)
                          end) l None.

(** COALESCE(v, d) *)
Definition coalesce (v : option Z) (d : Z) : Z :=
  match v with Some x => x | None => d end.

(** ORDER BY key ASC, by insertion into the sorted result. *)
Fixpoint insert_by {A : Type} (key : A -> Z) (x : A) (l : list A) : list A :=
  match l with
  | [] => [x]
  | y :: l' => if (key x <? key y)%Z then x :: l else y :: insert_by key x l'
  end.

Definition order_by {A : Type} (key : A -> Z) (l : list A) : list A :=
  fold_left (fun sorted x => insert_by key x sorted) l [].

(** An exception inside [try] is re-raised as RuntimeError. *)
Definition wrap {A : Type} (m : outcome A) : outcome A :=
  match m with
  | Ok a => Ok a
  | Raise _ => Raise RuntimeError
  end.

(** [json.loads(s)] as a call that may raise. *)
Definition json_loads (s : string) : outcome json :=
  match loads s with
  | Some v => Ok v
  | None => Raise JSONDecodeError
  end.

(** ** Context cache *)

Definition ctx_key (binary_hash : string) (function_start : Z) (r : ContextRow)
  : bool :=
  (ctx_binary_hash r =? binary_hash) && (ctx_function_start r =? function_start)%Z.

(** [expires_at] is [datetime.now() + timedelta(hours=ttl_hours)], computed
    by the caller's clock. *)
Definition save_context_cache (db : DB) (binary_hash : string)
    (function_start : Z) (context_data : json) (expires_at : datetime)
  : outcome (DB * Z) :=
  let context_json := dumps context_data in
  let context_id := (seq_BNContext db + 1)%Z in
  let kept := filter (fun r => negb (ctx_key binary_hash function_start r))
                     (BNContext db) in
  let row := mk_context context_id binary_hash function_start context_json
                        (Some (isoformat expires_at)) in
  Ok (with_BNContext db (kept ++ [row]) context_id, context_id).

(** WHERE ... AND (expires_at IS NULL OR expires_at > CURRENT_TIMESTAMP) *)
Definition not_expired (now : string) (r : ContextRow) : bool :=
  match ctx_expires_at r with
  | None => true
  | Some e => text_gt e now
  end.

(** WHERE expires_at IS NOT NULL AND expires_at <= CURRENT_TIMESTAMP *)
Definition expired (now : string) (r : ContextRow) : bool :=
  match ctx_expires_at r with
  | None => false
  | Some e => text_le e now
  end.

(** [now] is the value of CURRENT_TIMESTAMP when the statement runs. *)
Definition get_context_cache (now : string) (db : DB) (binary_hash : string)
    (function_start : Z) : outcome (option json) :=
  let rows := filter (fun r => ctx_key binary_hash function_start r
                               && not_expired now r) (BNContext db) in
  match rows with
  | row :: _ => wrap (v <- json_loads (ctx_context_data row) ;; Ok (Some v))
  | [] => Ok None
  end.

Definition cleanup_expired_context (now : string) (db : DB) : outcome (DB * Z) :=
  let deleted_count := Z.of_nat (List.length (filter (expired now) (BNContext db))) in
  let kept := filter (fun r => negb (expired now r)) (BNContext db) in
  Ok (with_BNContext db kept (seq_BNContext db), deleted_count).

(** ** Legacy chat history *)

Definition ch_key (binary_hash chat_id : string) (r : ChatHistoryRow) : bool :=
  (ch_binary_hash r =? binary_hash) && (ch_chat_id r =? chat_id).

Definition save_chat_message (db : DB) (binary_hash chat_id role content : string)
    (metadata : option json) : outcome (DB * Z) :=
  let message_order :=
    (coalesce (sql_max (map ch_message_order
                 (filter (ch_key binary_hash chat_id) (BNChatHistory db)))) (-1)
     + 1)%Z in
  let metadata_json :=
    match metadata with
    | Some m => if truthy m then Some (dumps m) else None
    | None => None
    end in
  if existsb (fun r => ch_key binary_hash chat_id r
                       && (ch_message_order r =? message_order)%Z)
             (BNChatHistory db)
  then Raise RuntimeError
  else
    let message_id := (seq_BNChatHistory db + 1)%Z in
    let row := mk_history message_id binary_hash chat_id message_order role
                          content metadata_json in
    Ok (with_BNChatHistory db (BNChatHistory db ++ [row]) message_id, message_id).

Definition delete_chat (db : DB) (binary_hash chat_id : string)
  : outcome (DB * bool) :=
  let deleted := existsb (ch_key binary_hash chat_id) (BNChatHistory db) in
  let kept := filter (fun r => negb (ch_key binary_hash chat_id r))
                     (BNChatHistory db) in
  Ok (with_BNChatHistory db kept (seq_BNChatHistory db), deleted).

(** ** Native messages *)

Definition cm_key (binary_hash chat_id : string) (r : ChatMessageRow) : bool :=
  (cm_binary_hash r =? binary_hash) && (cm_chat_id r =? chat_id).

(** A [for] loop that builds a list and stops at the first exception. *)
Fixpoint map_outcome {A B : Type} (f : A -> outcome B) (l : list A)
  : outcome (list B) :=
  match l with
  | [] => Ok []
  | x :: l' => y <- f x ;; ys <- map_outcome f l' ;; Ok (y :: ys)
  end.

(** A message as [get_chat_history] returns it. *)
Record HistoryMessage : Type := mk_history_message {
  hm_id : Z;
  hm_message_order : Z;
  hm_role : string;
  hm_content : string;
  hm_metadata : json
}.

(** [json.loads(text) if text else {}] on a nullable column. *)
Definition loads_or_empty (column : option string) : outcome json :=
  match column with
  | Some text => if negb (text =? "") then json_loads text else Ok (JDict [])
  | None => Ok (JDict [])
  end.

Definition get_chat_history (db : DB) (binary_hash chat_id : string)
  : outcome (list HistoryMessage) :=
  wrap (map_outcome
          (fun row =>
             metadata <- loads_or_empty (ch_metadata row) ;;
             Ok (mk_history_message (ch_id row) (ch_message_order row)
                                    (ch_role row) (ch_content row) metadata))
          (order_by ch_message_order
             (filter (ch_key binary_hash chat_id) (BNChatHistory db)))).

Section FormatService.

(** The provider enumeration of [models.provider_types] and the normalizer
    of [message_format_service] are not part of the store; the store is
    stated over any pair of them.  [ProviderType p] tells whether [p] is a
    value of the enumeration; [extract_display_info] returns role,
    content_text and message_type, or raises. *)
Variable ProviderType : string -> bool.
Variable extract_display_info : json -> string -> outcome (string * string * string).

Definition save_native_message (db : DB) (binary_hash chat_id : string)
    (native_message : json) (provider_type : string)
    (parent_message_id : option Z) (conversation_thread_id : option string)
  : outcome (DB * Z) :=
  if negb (ProviderType provider_type) then Raise ValueError
  else
    info <- extract_display_info native_message provider_type ;;
    let '(role, content_text, message_type) := info in
    let message_order :=
      (coalesce (sql_max (map cm_message_order
                   (filter (cm_key binary_hash chat_id) (BNChatMessages db)))) (-1)
       + 1)%Z in
    if existsb (fun r => cm_key binary_hash chat_id r
                         && (cm_message_order r =? message_order)%Z)
               (BNChatMessages db)
    then Raise RuntimeError
    else
      let message_id := (seq_BNChatMessages db + 1)%Z in
      let row := mk_message message_id binary_hash chat_id message_order
                            provider_type (dumps native_message) role
                            content_text message_type parent_message_id
                            conversation_thread_id in
      Ok (with_BNChatMessages db (BNChatMessages db ++ [row]) message_id,
          message_id).

End FormatService.

(** A row as [get_native_messages] returns it. *)
Record NativeMessage : Type := mk_native {
  nm_id : Z;
  nm_message_order : Z;
  nm_provider_type : string;
  nm_native_message_data : json;
  nm_role : string;
  nm_content_text : string;
  nm_message_type : string;
  nm_parent_message_id : option Z;
  nm_conversation_thread_id : option string
}.

Definition get_native_messages (db : DB) (binary_hash chat_id : string)
    (provider_type : option string) : outcome (list NativeMessage) :=
  let filtered :=
    match provider_type with
    | Some p =>
        if negb (p =? "")
        then filter (fun r => cm_key binary_hash chat_id r
                              && (cm_provider_type r =? p)) (BNChatMessages db)
        else filter (cm_key binary_hash chat_id) (BNChatMessages db)
    | None => filter (cm_key binary_hash chat_id) (BNChatMessages db)
    end in
  wrap (map_outcome
          (fun row =>
             native_data <- json_loads (cm_native_message_data row) ;;
             Ok (mk_native (cm_id row) (cm_message_order row)
                           (cm_provider_type row) native_data (cm_role row)
                           (cm_content_text row) (cm_message_type row)
                           (cm_parent_message_id row)
                           (cm_conversation_thread_id row)))
          (order_by cm_message_order filtered)).

Definition get_native_messages_for_provider (db : DB)
    (binary_hash chat_id provider_type : string) : outcome (list json) :=
  wrap (map_outcome
          (fun row => json_loads (cm_native_message_data row))
          (order_by cm_message_order
             (filter (fun r => cm_key binary_hash chat_id r
                               && (cm_provider_type r =? provider_type))
                     (BNChatMessages db)))).

Definition delete_native_chat (db : DB) (binary_hash chat_id : string)
  : outcome (DB * bool) :=
  let deleted_count :=
    List.length (filter (cm_key binary_hash chat_id) (BNChatMessages db)) in
  let kept := filter (fun r => negb (cm_key binary_hash chat_id r))
                     (BNChatMessages db) in
  Ok (with_BNChatMessages db kept (seq_BNChatMessages db),
      (0 <? deleted_count)%nat).

(** ** System prompts *)

Definition save_system_prompt (db : DB) (prompt version : string)
  : outcome (DB * Z) :=
  let prompt_id := (seq_SystemPrompts db + 1)%Z in
  let row := mk_prompt prompt_id prompt version false in
  Ok (with_SystemPrompts db (SystemPrompts db ++ [row]) prompt_id, prompt_id).

(** UPDATE SystemPrompts SET is_active = 0 *)
Definition deactivate (r : SystemPromptRow) : SystemPromptRow :=
  mk_prompt (sp_id r) (sp_prompt r) (sp_version r) false.

(** UPDATE SystemPrompts SET is_active = 1 WHERE version = ? *)
Definition activate (version : string) (r : SystemPromptRow) : SystemPromptRow :=
  if (sp_version r =? version)
  then mk_prompt (sp_id r) (sp_prompt r) (sp_version r) true
  else r.

Definition set_active_system_prompt (db : DB) (version : string)
  : outcome (DB * bool) :=
  let cleared := map deactivate (SystemPrompts db) in
  let rowcount :=
    List.length (filter (fun r => sp_version r =? version) cleared) in
  let updated := (0 <? rowcount)%nat in
  Ok (with_SystemPrompts db (map (activate version) cleared)
                         (seq_SystemPrompts db), updated).

Section CreatedAt.

(** The created_at column of SystemPrompts, which the rows leave out: the
    value of CURRENT_TIMESTAMP when the row was inserted, as a function of
    the row id. *)
Variable created_at : Z -> string.

(** ORDER BY created_at DESC LIMIT 1.  Among rows of one time stamp SQLite
    is free to choose; the model takes the first of them. *)
Definition newest (rows : list SystemPromptRow) : option SystemPromptRow :=
  fold_left
    (fun best r =>
       match best with
       | None => Some r
       | Some b =>
           if text_gt (created_at (sp_id r)) (created_at (sp_id b))
           then Some r else Some b
       end)
    rows None.

Definition get_active_system_prompt (db : DB) : option string :=
  match newest (filter sp_is_active (SystemPrompts db)) with
  | Some row => Some (sp_prompt row)
  | None => None
  end.

End CreatedAt.

(** ** The store as a state machine

    One constructor per state-changing operation, with its arguments and,
    for a statement that reads the clock, the value of CURRENT_TIMESTAMP. *)
Inductive call : Type :=
| SaveContextCache (binary_hash : string) (function_start : Z)
    (context_data : json) (expires_at : datetime)
| CleanupExpiredContext (now : string)
| SaveChatMessage (binary_hash chat_id role content : string)
    (metadata : option json)
| DeleteChat (binary_hash chat_id : string)
| SaveNativeMessage (binary_hash chat_id : string) (native_message : json)
    (provider_type : string) (parent_message_id : option Z)
    (conversation_thread_id : option string)
| DeleteNativeChat (binary_hash chat_id : string)
| SaveSystemPrompt (prompt version : string)
| SetActiveSystemPrompt (version : string).

Definition state_of {A : Type} (m : outcome (DB * A)) : outcome DB :=
  r <- m ;; Ok (fst r).

Section Machine.

Variable ProviderType : string -> bool.
Variable extract_display_info : json -> string -> outcome (string * string * string).

(** The state a call leaves behind, when it returns. *)
Definition exec (c : call) (db : DB) : outcome DB :=
  match c with
  | SaveContextCache h f d e => state_of (save_context_cache db h f d e)
  | CleanupExpiredContext now => state_of (cleanup_expired_context now db)
  | SaveChatMessage h c r t m => state_of (save_chat_message db h c r t m)
  | DeleteChat h c => state_of (delete_chat db h c)
  | SaveNativeMessage h c m p par thr =>
      state_of (save_native_message ProviderType extract_display_info
                  db h c m p par thr)
  | DeleteNativeChat h c => state_of (delete_native_chat db h c)
  | SaveSystemPrompt p v => state_of (save_system_prompt db p v)
  | SetActiveSystemPrompt v => state_of (set_active_system_prompt db v)
  end.

(** A sequence of calls, each of which returns. *)
Fixpoint run (cs : list call) (db : DB) : outcome DB :=
  match cs with
  | [] => Ok db
  | c :: cs' => db' <- exec c db ;; run cs' db'
  end.

End Machine.

(** ** The display pipeline *)

(** A message on its way to the display: the dictionary built from a row
    and its parsed payload. *)
Record RawMessage : Type := mk_raw {
  id : Z;
  message_order : Z;
  role : string;
  content_text : string;
  message_type : string;
  provider_type : string;
  native_data : json
}.

Definition _choose_better_assistant_message (msg1 msg2 : RawMessage)
  : RawMessage :=
  let content1 := strip (content_text msg1) in
  let content2 := strip (content_text msg2) in
  if (length content1 <? length content2)%nat then msg2
  else if (length content2 <? length content1)%nat then msg1
  else if (message_order msg1 <? message_order msg2)%Z then msg2
  else msg1.

Definition is_assistant (m : RawMessage) : bool := (role m =? "assistant").

(** The inner [while]: the assistant messages that follow position [i], and
    the messages from position [j] on. *)
Fixpoint assistant_run (l : list RawMessage) : list RawMessage :=
  match l with
  | m :: l' => if is_assistant m then m :: assistant_run l' else []
  | [] => []
  end.

Fixpoint after_run (l : list RawMessage) : list RawMessage :=
  match l with
  | m :: l' => if is_assistant m then after_run l' else l
  | [] => []
  end.

Equations? _group_and_deduplicate_messages (raw_messages : list RawMessage)
  : list RawMessage by wf (List.length raw_messages) lt :=
  _group_and_deduplicate_messages [] := [];
  _group_and_deduplicate_messages (msg :: rest) :=
    if (role msg =? "user") then
      msg :: _group_and_deduplicate_messages rest
    else if (role msg =? "assistant") then
      let assistant_messages := msg :: assistant_run rest in
      (if (1 <? List.length assistant_messages)%nat
       then fold_left _choose_better_assistant_message
                      (tl assistant_messages) (hd msg assistant_messages)
       else msg)
      :: _group_and_deduplicate_messages (after_run rest)
    else
      msg :: _group_and_deduplicate_messages rest.
Proof.
  all: try (simpl; lia).
  clear. induction rest as [|m l IH]; simpl; [lia|].
  destruct (is_assistant m); simpl in *; lia.
Qed.

Definition _clean_user_message_for_display (content_text : string) : string :=
  if contains "Available MCP Tools" content_text then
    strip (hd "" (split content_text "Available MCP Tools"))
  else if contains "**RAG Context**" content_text then
    strip (hd "" (split content_text "**RAG Context**"))
  else
    let content_text :=
      if contains "Use the available tool calls as needed." content_text
      then replace content_text
             (nl ++ nl ++ "Use the available tool calls as needed.") ""
      else content_text in
    strip content_text.

(** [d.get(k, default)] on the members of a [dict]. *)
Definition dget (d : list (string * json)) (k : string) (default : json) : json :=
  match dict_get k d with
  | Some v => v
  | None => default
  end.

(** A [for] loop over [xs] that threads the list under construction. *)
Fixpoint for_each {A S : Type} (body : S -> A -> outcome S) (xs : list A) (st : S)
  : outcome S :=
  match xs with
  | [] => Ok st
  | x :: xs' => st' <- body st x ;; for_each body xs' st'
  end.

(** A tool call collected for display: its name and its arguments. *)
Definition tool_call : Type := (json * json)%type.

Definition append_named (details : list tool_call) (tool_name tool_args : json)
  : list tool_call :=
  if negb (eq_str tool_name "unknown")
  then (details ++ [(tool_name, tool_args)])%list
  else details.

(** Arguments that arrive as a JSON string are parsed; text that does not
    parse is kept under the key raw_args. *)
Definition parse_args (tool_args : json) : json :=
  match tool_args with
  | JStr s =>
      match loads s with
      | Some v => v
      | None => JDict [("raw_args", JStr s)]
      end
  | _ => tool_args
  end.

Definition anthropic_block (details : list tool_call) (block : json)
  : outcome (bool * list tool_call) :=
  match block with
  | JDict d =>
      if eq_str (dget d "type" JNull) "tool_use"
      then Ok (true, append_named details (dget d "name" (JStr "unknown"))
                                  (dget d "input" (JDict [])))
      else Ok (false, details)
  | _ => Ok (false, details)
  end.

Definition openai_tool_call (details : list tool_call) (tc : json)
  : outcome (list tool_call) :=
  match tc with
  | JDict d =>
      match dict_get "function" d with
      | Some fn =>
          tool_name <- py_get fn "name" (JStr "unknown") ;;
          tool_args <- py_get fn "arguments" (JDict []) ;;
          Ok (append_named details tool_name (parse_args tool_args))
      | None => Ok details
      end
  | _ => Ok details
  end.

Definition ollama_tool_call (details : list tool_call) (tc : json)
  : outcome (list tool_call) :=
  match tc with
  | JDict d =>
      named <-
        match dict_get "function" d with
        | Some fn =>
            tool_name <- py_get fn "name" (JStr "unknown") ;;
            tool_args <- py_get fn "arguments" (JDict []) ;;
            Ok (tool_name, tool_args)
        | None =>
            match dict_get "name" d with
            | Some tool_name =>
                Ok (tool_name,
                    dget d "arguments" (dget d "parameters" (JDict [])))
            | None => Ok (JStr "unknown", JDict [])
            end
        end ;;
      Ok (append_named details (fst named) (parse_args (snd named)))
  | _ => Ok details
  end.

(** [if 'tool_calls' in data and data['tool_calls']: ...]: [Some] of the
    collected calls when the branch is taken. *)
Definition tool_calls_of (each : list tool_call -> json -> outcome (list tool_call))
    (data : json) : outcome (option (list tool_call)) :=
  present <- py_in "tool_calls" data ;;
  if present then
    calls <- py_getitem data "tool_calls" ;;
    if truthy calls then
      items <- py_iter calls ;;
      details <- for_each each items [] ;;
      Ok (Some details)
    else Ok None
  else Ok None.

(** The first part of [_format_assistant_message_for_display]: the value
    of [has_tool_calls] and of [tool_calls_details] after the provider
    branches. *)
Definition collect_tool_calls (native_data : json) (provider_type : string)
  : outcome (bool * list tool_call) :=
  if (provider_type =? "anthropic") then
    present <- py_in "content" native_data ;;
    if present then
      content <- py_getitem native_data "content" ;;
      blocks <- py_iter content ;;
      for_each (fun st block =>
                  r <- anthropic_block (snd st) block ;;
                  Ok (fst st || fst r, snd r))
               blocks (false, [])
    else Ok (false, [])
  else if (provider_type =? "openai") then
    r <- tool_calls_of openai_tool_call native_data ;;
    match r with
    | Some details => Ok (true, details)
    | None => Ok (false, [])
    end
  else if (provider_type =? "ollama") then
    r <- tool_calls_of ollama_tool_call native_data ;;
    match r with
    | Some details => Ok (true, details)
    | None =>
        present <- py_in "message" native_data ;;
        if present then
          message_data <- py_getitem native_data "message" ;;
          if is_dict message_data then
            r' <- tool_calls_of ollama_tool_call message_data ;;
            match r' with
            | Some details => Ok (true, details)
            | None => Ok (false, [])
            end
          else Ok (false, [])
        else Ok (false, [])
    end
  else Ok (false, []).

Fixpoint drop_newlines (s : string) : string :=
  match s with
  | String c s' => if (c =? ascii_of_nat 10)%char then drop_newlines s' else s
  | EmptyString => EmptyString
  end.

(** The second part: the content without a leading tool indicator. *)
Definition clean_tool_indicator (content_text : string) : string :=
  let clean_content := if negb (content_text =? "") then strip content_text else "" in
  if startswith clean_content "[Tools:" && contains "]" clean_content then
    let bracket_end := find clean_content "]" in
    if negb (bracket_end =? -1)%Z
    then drop_newlines (strip (slice_from clean_content (bracket_end + 1)%Z))
    else clean_content
  else clean_content.

Definition format_arg (key : string) (value : json) : string :=
  match value with
  | JStr v =>
      if (30 <? length v)%nat
      then key ++ "=" ++ String dquote (slice_to v 30 ++ "..." ++ String dquote "")
      else key ++ "=" ++ String dquote (v ++ String dquote "")
  | JInt _ | JBool _ => key ++ "=" ++ str value
  | JList l => key ++ "=[" ++ str_int (Z.of_nat (List.length l)) ++ " items]"
  | JDict d => key ++ "={" ++ str_int (Z.of_nat (List.length d)) ++ " keys}"
  | JNull => key ++ "=" ++ str value
  end.

Definition _format_args_compact (args : json) : outcome string :=
  if negb (truthy args) then Ok ""
  else
    match args with
    | JDict d => Ok (join ", " (map (fun kv => format_arg (fst kv) (snd kv)) d))
    | _ => Raise AttributeError
    end.

(** The numbered lines of the multi-call form, counted from [i]. *)
Fixpoint tool_lines (i : nat) (details : list tool_call) : outcome (list string) :=
  match details with
  | [] => Ok []
  | (name, args) :: rest =>
      args_str <- (if truthy args then _format_args_compact args else Ok "") ;;
      let line :=
        if negb (args_str =? "")
        then "  " ++ str_int (Z.of_nat i) ++ ". " ++ str name ++ "(" ++ args_str ++ ")"
        else "  " ++ str_int (Z.of_nat i) ++ ". " ++ str name in
      lines <- tool_lines (S i) rest ;;
      Ok (line :: lines)
  end.

Definition _format_tool_calls_with_params (tool_calls_details : list tool_call)
  : outcome string :=
  match tool_calls_details with
  | [] => Ok ""
  | [(name, args)] =>
      if negb (truthy args) then Ok ("[Tool: " ++ str name ++ "]")
      else
        args_str <- _format_args_compact args ;;
        Ok ("[Tool: " ++ str name ++ "(" ++ args_str ++ ")]")
  | _ =>
      lines <- tool_lines 1 tool_calls_details ;;
      Ok (join nl ("[Tools called:]" :: lines))
  end.

Definition _format_assistant_message_for_display (content_text : string)
    (native_data : json) (provider_type : string) : outcome string :=
  collected <- collect_tool_calls native_data provider_type ;;
  let '(has_tool_calls, tool_calls_details) := collected in
  let clean_content := clean_tool_indicator content_text in
  if has_tool_calls && match tool_calls_details with [] => false | _ => true end
  then
    tool_details_text <- _format_tool_calls_with_params tool_calls_details ;;
    if negb (clean_content =? "")
    then Ok (tool_details_text ++ nl ++ nl ++ clean_content)
    else Ok tool_details_text
  else Ok clean_content.

(** The name written on a line that announces a tool, if the content has
    one: the loop stops at the first such line. *)
Fixpoint tool_name_in_lines (lines : list string) (tool_name : string) : string :=
  match lines with
  | [] => tool_name
  | line :: rest =>
      if startswith (strip line) "Tool:" || startswith (strip line) "**Tool:**"
      then match split_ws line with
           | _ :: part :: _ => replace (replace part "`" "") "*" ""
           | _ => tool_name
           end
      else tool_name_in_lines rest tool_name
  end.

Definition _format_tool_message_for_display (content_text : string)
    (native_data : json) : outcome string :=
  if (content_text =? "") || (strip content_text =? "") then Ok ""
  else
    let clean_content := strip content_text in
    tool_name <-
      (named <- (if truthy native_data then py_in "name" native_data
                 else Ok false) ;;
       if named then py_getitem native_data "name"
       else if contains "Tool:" clean_content
       then Ok (JStr (tool_name_in_lines (split clean_content nl) "Tool"))
       else Ok (JStr "Tool")) ;;
    if (200 <? length clean_content)%nat then
      let preview := slice_to clean_content 200 ++ "..." ++ nl ++ nl
                     ++ "[Tool result truncated for display]" in
      Ok ("**" ++ str tool_name ++ " Result:**" ++ nl ++ "```" ++ nl
          ++ preview ++ nl ++ "```")
    else
      Ok ("**" ++ str tool_name ++ " Result:**" ++ nl ++ "```" ++ nl
          ++ clean_content ++ nl ++ "```").

(** The body of the [try] block of [_format_message_for_display]. *)
Definition format_by_role (role content_text message_type provider_type : string)
    (native_data : json) : outcome string :=
  if (role =? "user") then Ok (_clean_user_message_for_display content_text)
  else if (role =? "assistant") then
    _format_assistant_message_for_display content_text native_data provider_type
  else if (role =? "tool") then
    _format_tool_message_for_display content_text native_data
  else Ok content_text.

Definition _format_message_for_display (role content_text message_type
    provider_type : string) (native_data : json) : string :=
  match format_by_role role content_text message_type provider_type native_data with
  | Ok formatted => formatted
  | Raise _ => content_text
  end.

(** A message as [get_display_messages] returns it. *)
Record DisplayMessage : Type := mk_display {
  dm_id : Z;
  dm_message_order : Z;
  dm_role : string;
  dm_content : string;
  dm_message_type : string;
  dm_provider_type : string
}.

Definition raw_of_row (row : ChatMessageRow) : outcome RawMessage :=
  native_data <- (if negb (cm_native_message_data row =? "")
                  then json_loads (cm_native_message_data row)
                  else Ok (JDict [])) ;;
  Ok (mk_raw (cm_id row) (cm_message_order row) (cm_role row)
             (cm_content_text row) (cm_message_type row)
             (cm_provider_type row) native_data).

Definition display_of_raw (msg : RawMessage) : DisplayMessage :=
  mk_display (id msg) (message_order msg) (role msg)
    (_format_message_for_display (role msg) (content_text msg)
       (message_type msg) (provider_type msg) (native_data msg))
    (message_type msg) (provider_type msg).

(** The transcript synthesizer over rows already fetched. *)
Definition synthesize (raw_messages : list RawMessage) : list DisplayMessage :=
  filter (fun m => negb (dm_content m =? ""))
         (map display_of_raw (_group_and_deduplicate_messages raw_messages)).

Definition get_display_messages (db : DB) (binary_hash chat_id : string)
  : outcome (list DisplayMessage) :=
  wrap (
    rows <- map_outcome raw_of_row
              (order_by cm_message_order
                 (filter (cm_key binary_hash chat_id) (BNChatMessages db))) ;;
    let raw_messages := filter (fun m => negb (role m =? "system")) rows in
    Ok (synthesize raw_messages)).

End AnalysisDB.

(** * The settings store: LLM providers *)

Module Settings.
Import Py.

(** llm_providers; name is UNIQUE. *)
Record LLMProviderRow : Type := mk_provider {
  lp_id : Z;
  lp_name : string;
  lp_model : string;
  lp_url : string;
  lp_max_tokens : Z;
  lp_api_key : string;
  lp_disable_tls : bool;
  lp_provider_type : string;
  lp_is_active : bool
}.

(** settings; key is the primary key. *)
Record SettingRow : Type := mk_setting {
  st_key : string;
  st_value : string;
  st_type : string;
  st_category : string
}.

Record DB : Type := mk_db {
  llm_providers : list LLMProviderRow;
  settings : list SettingRow;
  seq_llm_providers : Z
}.

Definition set_is_active (b : bool) (r : LLMProviderRow) : LLMProviderRow :=
  mk_provider (lp_id r) (lp_name r) (lp_model r) (lp_url r) (lp_max_tokens r)
              (lp_api_key r) (lp_disable_tls r) (lp_provider_type r) b.

Definition add_llm_provider (db : DB) (name model url : string) (max_tokens : Z)
    (api_key : string) (disable_tls : bool) (provider_type : string)
  : outcome (DB * Z) :=
  if existsb (fun r => lp_name r =? name) (llm_providers db)
  then Raise ValueError
  else
    let provider_id := (seq_llm_providers db + 1)%Z in
    let row := mk_provider provider_id name model url max_tokens api_key
                           disable_tls provider_type false in
    Ok (mk_db (llm_providers db ++ [row]) (settings db) provider_id, provider_id).

(** [_serialize_value] on a string. *)
Definition _serialize_value (value : string) : string * string :=
  (value, "string").

(** INSERT OR REPLACE INTO settings *)
Definition replace_setting (row : SettingRow) (t : list SettingRow)
  : list SettingRow :=
  filter (fun r => negb (st_key r =? st_key row)) t ++ [row].

Definition set_active_llm_provider (db : DB) (provider_name : string)
  : outcome (DB * bool) :=
  let cleared := map (set_is_active false) (llm_providers db) in
  let activated :=
    map (fun r => if (lp_name r =? provider_name) then set_is_active true r else r)
        cleared in
  let '(value_str, value_type) := _serialize_value provider_name in
  Ok (mk_db activated
            (replace_setting
               (mk_setting "active_llm_provider" value_str value_type "ui")
               (settings db))
            (seq_llm_providers db),
      true).

(** SELECT ... LIMIT 1 *)
Definition fetchone {A : Type} (rows : list A) : option A := hd_error rows.

Definition get_active_llm_provider (db : DB)
  : outcome (DB * option LLMProviderRow) :=
  match fetchone (filter lp_is_active (llm_providers db)) with
  | Some row => Ok (db, Some row)
  | None =>
      match fetchone (filter (fun r => st_key r =? "active_llm_provider")
                             (settings db)) with
      | Some setting_row =>
          let saved_provider_name := st_value setting_row in
          match fetchone (filter (fun r => lp_name r =? saved_provider_name)
                                 (llm_providers db)) with
          | Some provider_row =>
              Ok (mk_db (map (fun r => if (lp_name r =? saved_provider_name)
                                       then set_is_active true r else r)
                             (llm_providers db))
                        (settings db) (seq_llm_providers db),
                  Some provider_row)
          | None => Ok (db, None)
          end
      | None => Ok (db, None)
      end
  end.

End Settings.

(** * The settings service: typed values, the settings table, the providers *)

Module SettingsService.
Import Py Json Settings.

(** ** [int(s)]

    The white space [int] looks past: the characters of C's [isspace] and,
    above U+007E, those of [str.isspace]. *)
Definition int_space (c : ascii) : bool :=
  let n := nat_of_ascii c in
  (((9 <=? n) && (n <=? 13)) || (n =? 32) || (n =? 133) || (n =? 160))%nat.

Fixpoint lstrip_int (s : string) : string :=
  match s with
  | String c s' => if int_space c then lstrip_int s' else s
  | EmptyString => EmptyString
  end.

Fixpoint rstrip_int (s : string) : string :=
  match s with
  | EmptyString => EmptyString
  | String c s' =>
      match rstrip_int s' with
      | EmptyString => if int_space c then EmptyString else String c EmptyString
      | r => String c r
      end
  end.

(** The digits of a literal, which single underscores may separate;
    [after_digit] tells whether the character before was a digit. *)
Fixpoint int_digits (after_digit : bool) (s : string) : option string :=
  match s with
  | EmptyString => if after_digit then Some EmptyString else None
  | String c s' =>
      if is_digit c then
        match int_digits true s' with
        | Some ds => Some (String c ds)
        | None => None
        end
      else if (c =? "_")%char && after_digit then int_digits false s'
      else None
  end.

(** The sign in front of a literal, and the literal without it. *)
Definition int_sign (body : string) : bool * string :=
  match body with
  | String "-" r => (true, r)
  | String "+" r => (false, r)
  | _ => (false, body)
  end.

(** [int(s)] in base ten: white space, a sign, digits, white space. *)
Definition int_of_str (s : string) : outcome Z :=
  let '(negative, literal) := int_sign (rstrip_int (lstrip_int s)) in
  match int_digits false literal with
  | Some ds =>
      match NilEmpty.uint_of_string ds with
      | Some u => Ok (if negative then - Z.of_uint u else Z.of_uint u)%Z
      | None => Raise ValueError
      end
  | None => Raise ValueError
  end.

(** ** Values of settings *)

Section Values.

(** Floating-point numbers are not part of the model: the type [float],
    [float(s)] ([None] for ValueError) and [str(x)] are taken as given. *)
Variable float : Type.
Variable float_of_str : string -> option float.
Variable str_of_float : float -> string.

(** A Python value as a setting holds it. *)
Inductive pyvalue : Type :=
| Plain (v : json)
| Float (x : float).

Definition _serialize_value (value : pyvalue) : string * string :=
  match value with
  | Plain (JBool b) => (str_int (if b then 1 else 0), "boolean")
  | Plain (JInt n) => (str_int n, "integer")
  | Float x => (str_of_float x, "float")
  | Plain (JList items) => (dumps (JList items), "json")
  | Plain (JDict members) => (dumps (JDict members), "json")
  | Plain v => (str v, "string")
  end.

Definition _deserialize_value (value value_type : string) : pyvalue :=
  if (value_type =? "boolean") then
    match int_of_str value with
    | Ok n => Plain (JBool (negb (n =? 0)%Z))
    | Raise _ => Plain (JStr value)
    end
  else if (value_type =? "integer") then
    match int_of_str value with
    | Ok n => Plain (JInt n)
    | Raise _ => Plain (JStr value)
    end
  else if (value_type =? "float") then
    match float_of_str value with
    | Some x => Float x
    | None => Plain (JStr value)
    end
  else if (value_type =? "json") then
    match loads value with
    | Some v => Plain v
    | None => Plain (JStr value)
    end
  else Plain (JStr value).

(** ** The settings table *)

Definition has_key (key : string) (r : SettingRow) : bool := (st_key r =? key).

Definition with_settings (db : DB) (t : list SettingRow) : DB :=
  mk_db (llm_providers db) t (seq_llm_providers db).

Definition get_setting (db : DB) (key : string) (default : pyvalue) : pyvalue :=
  match fetchone (filter (has_key key) (settings db)) with
  | Some result => _deserialize_value (st_value result) (st_type result)
  | None => default
  end.

Definition set_setting (db : DB) (key : string) (value : pyvalue)
    (category : string) : DB * bool :=
  let '(value_str, value_type) := _serialize_value value in
  (with_settings db
     (replace_setting (mk_setting key value_str value_type category)
                      (settings db)),
   true).

Definition delete_setting (db : DB) (key : string) : DB * bool :=
  let deleted := existsb (has_key key) (settings db) in
  (with_settings db (filter (fun r => negb (has_key key r)) (settings db)),
   deleted).

(** [d[k] = v] on a dictionary of values. *)
Fixpoint assign (k : string) (v : pyvalue) (d : list (string * pyvalue))
  : list (string * pyvalue) :=
  match d with
  | [] => [(k, v)]
  | (k', v') :: d' =>
      if (k' =? k) then (k', v) :: d' else (k', v') :: assign k v d'
  end.

Fixpoint lookup (k : string) (d : list (string * pyvalue)) : option pyvalue :=
  match d with
  | [] => None
  | (k', v) :: d' => if (k' =? k) then Some v else lookup k d'
  end.

Definition get_settings_by_category (db : DB) (category : string)
  : list (string * pyvalue) :=
  fold_left
    (fun settings r =>
       assign (st_key r) (_deserialize_value (st_value r) (st_type r)) settings)
    (filter (fun r => st_category r =? category) (settings db))
    [].

End Values.

Arguments Plain {float} v.
Arguments Float {float} x.

Section Defaults.

(** [user_file name] is os.path.join(user_directory(), 'binassist', name),
    which depends on the installation. *)
Variable user_file : string -> string.

Definition default_system_prompt : string :=
  "You are an AI assistant specialized in binary analysis and reverse engineering. Help users understand code, identify patterns, and provide actionable insights for their reverse engineering tasks.".

(** The dictionary [defaults], in the order it is written. *)
Definition defaults : list SettingRow :=
  [ mk_setting "system_prompt" default_system_prompt "string" "system";
    mk_setting "analysis_db_path" (user_file "analysis.db") "string" "database";
    mk_setting "rlhf_db_path" (user_file "rlhf.db") "string" "database";
    mk_setting "rag_index_path" (user_file "rag_index") "string" "database";
    mk_setting "active_llm_provider" "" "string" "ui" ].

Definition _populate_defaults (db : DB) : DB :=
  fold_left
    (fun db config =>
       match fetchone (filter (has_key (st_key config)) (settings db)) with
       | Some _ => db
       | None => with_settings db (settings db ++ [config])
       end)
    defaults db.

End Defaults.

(** ** LLM providers *)



Definition with_llm_providers (db : DB) (t : list LLMProviderRow) : DB :=
  mk_db t (settings db) (seq_llm_providers db).


(** The keyword arguments of [update_llm_provider]: each valid field absent
    or given with a value of its column's type; [kw_other] holds the
    keywords outside [valid_fields]. *)
Record LLMProviderFields : Type := mk_llm_fields {
  kw_name : option string;
  kw_model : option string;
  kw_url : option string;
  kw_max_tokens : option Z;
  kw_api_key : option string;
  kw_disable_tls : option bool;
  kw_provider_type : option string;
  kw_is_active : option bool;
  kw_other : list string
}.

Definition given {A : Type} (o : option A) : bool :=
  match o with Some _ => true | None => false end.

Definition assigned {A : Type} (o : option A) (old : A) : A :=
  match o with Some v => v | None => old end.

(** [update_fields] is not empty. *)
Definition llm_update_fields (kwargs : LLMProviderFields) : bool :=
  given (kw_name kwargs) || given (kw_model kwargs) || given (kw_url kwargs)
  || given (kw_max_tokens kwargs) || given (kw_api_key kwargs)
  || given (kw_disable_tls kwargs) || given (kw_provider_type kwargs)
  || given (kw_is_active kwargs).

(** UPDATE llm_providers SET ... on one row. *)
Definition llm_assign (kwargs : LLMProviderFields) (r : LLMProviderRow)
  : LLMProviderRow :=
  mk_provider (lp_id r)
    (assigned (kw_name kwargs) (lp_name r))
    (assigned (kw_model kwargs) (lp_model r))
    (assigned (kw_url kwargs) (lp_url r))
    (assigned (kw_max_tokens kwargs) (lp_max_tokens r))
    (assigned (kw_api_key kwargs) (lp_api_key r))
    (assigned (kw_disable_tls kwargs) (lp_disable_tls r))
    (assigned (kw_provider_type kwargs) (lp_provider_type r))
    (assigned (kw_is_active kwargs) (lp_is_active r)).

Definition has_id (provider_id : Z) (r : LLMProviderRow) : bool :=
  (lp_id r =? provider_id)%Z.

(** The UNIQUE constraint on name: the row to update exists and its new
    name is held by another row. *)
Definition llm_name_taken (db : DB) (provider_id : Z)
    (kwargs : LLMProviderFields) : bool :=
  match kw_name kwargs with
  | Some name =>
      existsb (has_id provider_id) (llm_providers db)
      && existsb (fun r => negb (has_id provider_id r) && (lp_name r =? name))
                 (llm_providers db)
  | None => false
  end.

Definition update_llm_provider (db : DB) (provider_id : Z)
    (kwargs : LLMProviderFields) : outcome (DB * bool) :=
  if negb (llm_update_fields kwargs) then Ok (db, false)
  else if llm_name_taken db provider_id kwargs then Raise RuntimeError
  else
    let updated := existsb (has_id provider_id) (llm_providers db) in
    Ok (with_llm_providers db
          (map (fun r => if has_id provider_id r then llm_assign kwargs r else r)
               (llm_providers db)),
        updated).

Definition delete_llm_provider (db : DB) (provider_id : Z) : DB * bool :=
  let deleted := existsb (has_id provider_id) (llm_providers db) in
  (with_llm_providers db
     (filter (fun r => negb (has_id provider_id r)) (llm_providers db)),
   deleted).

(** ** MCP providers *)












(** ** The service as a state machine

    One constructor per operation on the tables settings and llm_providers,
    with its arguments. *)
Section Machine.

Variable float : Type.
Variable str_of_float : float -> string.
Variable user_file : string -> string.

Inductive call : Type :=
| SetSetting (key : string) (value : pyvalue float) (category : string)
| DeleteSetting (key : string)
| PopulateDefaults
| AddLLMProvider (name model url : string) (max_tokens : Z) (api_key : string)
    (disable_tls : bool) (provider_type : string)
| UpdateLLMProvider (provider_id : Z) (kwargs : LLMProviderFields)
| DeleteLLMProvider (provider_id : Z)
| SetActiveLLMProvider (provider_name : string)
| GetActiveLLMProvider.

(** The store a call leaves, and the store as it was when the call raises:
    nothing is committed then. *)
Definition committed {A : Type} (db : DB) (m : outcome (DB * A)) : DB :=
  match m with
  | Ok (db', _) => db'
  | Raise _ => db
  end.

Definition exec (c : call) (db : DB) : DB :=
  match c with
  | SetSetting key value category =>
      fst (set_setting float str_of_float db key value category)
  | DeleteSetting key => fst (delete_setting db key)
  | PopulateDefaults => _populate_defaults user_file db
  | AddLLMProvider name model url max_tokens api_key disable_tls provider_type =>
      committed db (add_llm_provider db name model url max_tokens api_key
                                     disable_tls provider_type)
  | UpdateLLMProvider provider_id kwargs =>
      committed db (update_llm_provider db provider_id kwargs)
  | DeleteLLMProvider provider_id => fst (delete_llm_provider db provider_id)
  | SetActiveLLMProvider provider_name =>
      committed db (set_active_llm_provider db provider_name)
  | GetActiveLLMProvider => committed db (get_active_llm_provider db)
  end.

Definition run (cs : list call) (db : DB) : DB := fold_left (fun db c => exec c db) cs db.

End Machine.

Arguments SetSetting {float} key value category.
Arguments DeleteSetting {float} key.
Arguments PopulateDefaults {float}.
Arguments AddLLMProvider {float} name model url max_tokens api_key disable_tls provider_type.
Arguments UpdateLLMProvider {float} provider_id kwargs.
Arguments DeleteLLMProvider {float} provider_id.
Arguments SetActiveLLMProvider {float} provider_name.
Arguments GetActiveLLMProvider {float}.

End SettingsService.

(** * The analysis store: function analyses and chat names *)

Module Analyses.
Import Py Json AnalysisDB.








(** BNChatMetadata; UNIQUE(binary_hash, chat_id). *)
Record ChatMetadataRow : Type := mk_chat_metadata {
  md_id : Z;
  md_binary_hash : string;
  md_chat_id : string;
  md_name : string;
  md_created_at : string;
  md_updated_at : string
}.

Record ChatMetadataTable : Type := mk_chat_metadata_table {
  BNChatMetadata : list ChatMetadataRow;
  seq_BNChatMetadata : Z
}.

Definition md_key (binary_hash chat_id : string) (r : ChatMetadataRow) : bool :=
  (md_binary_hash r =? binary_hash) && (md_chat_id r =? chat_id).

Definition save_chat_metadata (now : string) (t : ChatMetadataTable)
    (binary_hash chat_id name : string) : ChatMetadataTable * Z :=
  let metadata_id := (seq_BNChatMetadata t + 1)%Z in
  let kept := filter (fun r => negb (md_key binary_hash chat_id r))
                     (BNChatMetadata t) in
  let row := mk_chat_metadata metadata_id binary_hash chat_id name now now in
  (mk_chat_metadata_table (kept ++ [row]) metadata_id, metadata_id).

(** The dictionary [get_chat_metadata] returns has the columns of the row,
    with the hash and the chat id of the request. *)
Definition get_chat_metadata (t : ChatMetadataTable) (binary_hash chat_id : string)
  : option ChatMetadataRow :=
  match filter (md_key binary_hash chat_id) (BNChatMetadata t) with
  | row :: _ =>
      Some (mk_chat_metadata (md_id row) binary_hash chat_id (md_name row)
                             (md_created_at row) (md_updated_at row))
  | [] => None
  end.

Definition delete_chat_metadata (t : ChatMetadataTable)
    (binary_hash chat_id : string) : ChatMetadataTable * bool :=
  let deleted := existsb (md_key binary_hash chat_id) (BNChatMetadata t) in
  (mk_chat_metadata_table
     (filter (fun r => negb (md_key binary_hash chat_id r)) (BNChatMetadata t))
     (seq_BNChatMetadata t),
   deleted).

End Analyses.

(** * The settings service: the system prompt, kept in the analysis store *)

Module SystemPrompt.
Import Py Json AnalysisDB Settings SettingsService.

Section Clock.

Variable float : Type.
Variable float_of_str : string -> option float.
Variable created_at : Z -> string.

Definition get_system_prompt (adb : AnalysisDB.DB) (sdb : DB) : pyvalue float :=
  let fallback :=
    get_setting float float_of_str sdb "system_prompt"
                (Plain (JStr default_system_prompt)) in
  match get_active_system_prompt created_at adb with
  | Some active_prompt =>
      if negb (active_prompt =? "") then Plain (JStr active_prompt) else fallback
  | None => fallback
  end.

(** [stamp] is datetime.now().strftime("%Y%m%d_%H%M%S"), the version of a
    prompt saved without one. *)
Definition save_system_prompt (str_of_float : float -> string)
    (adb : AnalysisDB.DB) (sdb : DB) (prompt : string)
    (version : option string) (stamp : string)
  : AnalysisDB.DB * DB * bool :=
  let version :=
    match version with
    | Some v => if negb (v =? "") then v else stamp
    | None => stamp
    end in
  match AnalysisDB.save_system_prompt adb prompt version with
  | Ok (adb1, prompt_id) =>
      match AnalysisDB.set_active_system_prompt adb1 version with
      | Ok (adb2, _) =>
          let '(sdb', _) :=
            set_setting float str_of_float sdb "system_prompt"
                        (Plain (JStr prompt)) "system" in
          (adb2, sdb', true)
      | Raise _ => (adb1, sdb, false)
      end
  | Raise _ => (adb, sdb, false)
  end.

End Clock.

End SystemPrompt.

(** * Notions the properties are stated with *)

Module Spec.
Import Py Json AnalysisDB.

(** The message_order values a chat holds, in the order of insertion. *)
Definition history_orders (db : DB) (binary_hash chat_id : string) : list Z :=
  map ch_message_order (filter (ch_key binary_hash chat_id) (BNChatHistory db)).

Definition native_orders (db : DB) (binary_hash chat_id : string) : list Z :=
  map cm_message_order (filter (cm_key binary_hash chat_id) (BNChatMessages db)).

(** 0, 1, ..., n-1 *)
Definition dense (n : nat) : list Z := map Z.of_nat (seq 0 n).

Definition same_chat (h c h' c' : string) : bool := (h' =? h) && (c' =? c).

Definition is_history_save (h c : string) (cl : call) : bool :=
  match cl with
  | SaveChatMessage h' c' _ _ _ => same_chat h c h' c'
  | _ => false
  end.

Definition is_native_save (h c : string) (cl : call) : bool :=
  match cl with
  | SaveNativeMessage h' c' _ _ _ _ => same_chat h c h' c'
  | _ => false
  end.

Definition is_delete (h c : string) (cl : call) : bool :=
  match cl with
  | DeleteChat h' c' | DeleteNativeChat h' c' => same_chat h c h' c'
  | _ => false
  end.

Definition count (p : call -> bool) (cs : list call) : nat :=
  List.length (filter p cs).

Definition bump (b : bool) (n : nat) : nat := if b then S n else n.

(** The rows of SystemPrompts with is_active = 1. *)
Definition active_prompts (db : DB) : list SystemPromptRow :=
  filter sp_is_active (SystemPrompts db).

(** A row with its is_active column set by the activation of [version]. *)
Definition activated_by (version : string) (r : SystemPromptRow)
  : SystemPromptRow :=
  mk_prompt (sp_id r) (sp_prompt r) (sp_version r) (sp_version r =? version).

(** The versions of the active rows: all equal to one string. *)
Definition one_version (l : list SystemPromptRow) : Prop :=
  exists v, forall r, In r l -> sp_is_active r = true -> sp_version r = v.

(** A provider enumeration and a normalizer to run the machine with. *)
Definition demo_ProviderType (p : string) : bool :=
  (p =? "anthropic") || (p =? "openai") || (p =? "ollama").

Definition demo_extract_display_info (m : json) (p : string)
  : outcome (string * string * string) :=
  Ok (match dict_get "role" (match m with JDict d => d | _ => [] end) with
      | Some (JStr r) => r
      | _ => "assistant"
      end, "", "text").

(** The transcript as the specification words it: the rows are cut into
    maximal runs, a run being either consecutive assistant rows or a single
    row of another role; each run is replaced by its representative, the
    left fold of the better-of-two choice over the run. *)
Fixpoint runs (l : list RawMessage) : list (list RawMessage) :=
  match l with
  | [] => []
  | m :: l' =>
      match runs l' with
      | (m' :: r) :: rs =>
          if is_assistant m && is_assistant m'
          then (m :: m' :: r) :: rs
          else [m] :: (m' :: r) :: rs
      | rs => [m] :: rs
      end
  end.

Definition representative (run : list RawMessage) : list RawMessage :=
  match run with
  | [] => []
  | m :: r => [fold_left _choose_better_assistant_message r m]
  end.

Definition collapse_runs (l : list RawMessage) : list RawMessage :=
  flat_map representative (runs l).

(** A list that does not end, respectively start, with an assistant row. *)
Definition starts_other (l : list RawMessage) : bool :=
  match l with
  | [] => true
  | m :: _ => negb (is_assistant m)
  end.

Definition ends_other (l : list RawMessage) : bool := starts_other (rev l).

(** The length of the trimmed content_text. *)
Definition trimmed_length (m : RawMessage) : nat := length (strip (content_text m)).

(** The text of [s] that precedes the first occurrence of [sep]; all of
    [s] when [sep] does not occur. *)
Fixpoint before (sep s : string) : string :=
  if prefix sep s then EmptyString
  else match s with
       | EmptyString => EmptyString
       | String c s' => String c (before sep s')
       end.

(** The markers of injected context and the sentence of the plain tool
    hint, with and without the blank line in front of it. *)
Definition mcp_marker : string := "Available MCP Tools".
Definition rag_marker : string := "**RAG Context**".
Definition tool_hint : string := "Use the available tool calls as needed.".
Definition tool_hint_paragraph : string := nl ++ nl ++ tool_hint.

(** [s] between double quotes. *)
Definition quoted (s : string) : string := String dquote (s ++ String dquote "").

(** The JSON text of the arguments of the get_disassembly call: an object
    with the one member addr, 4096. *)
Definition addr_arguments : string := "{" ++ quoted "addr" ++ ":4096}".

(** The OpenAI payload with that one tool call. *)
Definition get_disassembly_payload : json :=
  JDict [("tool_calls",
          JList [JDict [("function",
                         JDict [("name", JStr "get_disassembly");
                                ("arguments", JStr addr_arguments)])]])].

(** An Anthropic payload with two tool calls. *)
Definition two_calls_payload : json :=
  JDict [("content",
          JList [JDict [("type", JStr "tool_use"); ("name", JStr "list_functions");
                        ("input", JDict [])];
                 JDict [("type", JStr "tool_use"); ("name", JStr "rename");
                        ("input", JDict [("to", JStr "main")])]])].

(** A document as a Python value can be: no dictionary has a key twice. *)
Fixpoint unique_keys (ks : list string) : bool :=
  match ks with
  | [] => true
  | k :: r => negb (existsb (String.eqb k) r) && unique_keys r
  end.

Fixpoint well_formed (v : json) : bool :=
  match v with
  | JList l => forallb well_formed l
  | JDict d => unique_keys (map fst d) && forallb (fun kv => well_formed (snd kv)) d
  | _ => true
  end.

(** The calls the parser makes, at most, to read back a printed document. *)
Fixpoint parse_calls (v : json) : nat :=
  match v with
  | JList l => S (fold_right (fun x n => S (parse_calls x + n)) 0 l)
  | JDict d => S (fold_right (fun kv n => S (parse_calls (snd kv) + n)) 0 d)
  | _ => 1
  end.

(** What may follow a printed value: the end of the text, a comma, or a
    closing bracket or brace. *)
Definition ends_value (rest : string) : bool :=
  match rest with
  | EmptyString => true
  | String c _ => (c =? ",")%char || (c =? "]")%char || (c =? "}")%char
  end.

(** What a printed value starts with: neither white space nor a closing
    bracket or brace. *)
Definition starts_value (s : string) : bool :=
  match s with
  | EmptyString => false
  | String c _ => negb (is_ws c) && negb (c =? "]")%char && negb (c =? "}")%char
  end.

(** A member as [dumps] prints it. *)
Definition member (kv : string * json) : string :=
  dumps_str (fst kv) ++ ": " ++ dumps (snd kv).

(** What reading a printed document back means, for the value parser. *)
Definition reads_back (v : json) : Prop :=
  forall fuel rest,
    (parse_calls v <= fuel)%nat -> ends_value rest = true ->
    parse_value fuel (dumps v ++ rest) = Some (v, rest).

(** The provider types and payloads a sequence of calls saves to a chat, in
    the order of the calls, and the payloads among them of one provider. *)
Fixpoint saved_messages (h c : string) (cs : list call) : list (string * json) :=
  match cs with
  | [] => []
  | SaveNativeMessage h' c' m p _ _ :: cs' =>
      if same_chat h c h' c'
      then (p, m) :: saved_messages h c cs'
      else saved_messages h c cs'
  | _ :: cs' => saved_messages h c cs'
  end.

Definition saved_payloads (h c p : string) (cs : list call) : list json :=
  map snd (filter (fun pm => fst pm =? p) (saved_messages h c cs)).

(** A row that holds a saved message: its provider type and the printed
    payload. *)
Definition holds (r : ChatMessageRow) (pm : string * json) : Prop :=
  cm_provider_type r = fst pm /\ cm_native_message_data r = dumps (snd pm).

(** The rows of a chat in BNChatMessages, in the order of insertion. *)
Definition native_rows (db : DB) (h c : string) : list ChatMessageRow :=
  filter (cm_key h c) (BNChatMessages db).

(** A question with quotes in it, and an answer in content blocks. *)
Definition demo_question : json :=
  JDict [("role", JStr "user");
         ("content", JStr ("Who calls " ++ quoted "main" ++ "?" ++ nl))].

Definition demo_answer : json :=
  JDict [("role", JStr "assistant");
         ("content", JList [JDict [("type", JStr "text");
                                   ("text", JStr "Only _start does.")]]);
         ("usage", JDict [("input_tokens", JInt 42); ("cached", JBool false);
                          ("stop", JNull); ("delta", JInt (-7))])].

(** A session with two chats, and the store it leaves. *)
Definition demo_session : list call :=
  [ SaveChatMessage "cafe" "chat-1" "user" "What is this?" None;
    SaveNativeMessage "cafe" "chat-1" demo_question "openai" None None;
    SaveChatMessage "cafe" "chat-2" "user" "Other chat" None;
    DeleteChat "cafe" "chat-2";
    SaveChatMessage "cafe" "chat-1" "assistant" "A function." None;
    SaveNativeMessage "cafe" "chat-1" get_disassembly_payload "openai" None None;
    SaveNativeMessage "cafe" "chat-1" demo_answer "ollama" None None ].

Definition store_after (cs : list call) : DB :=
  match run demo_ProviderType demo_extract_display_info cs empty_db with
  | Ok db => db
  | Raise _ => empty_db
  end.

Definition demo_store : DB := Eval vm_compute in store_after demo_session.

(** Two prompts under distinct versions, the first one activated. *)
Definition demo_prompts : list call :=
  [ SaveSystemPrompt "You are an analyst." "v1";
    SaveSystemPrompt "You are a reverser." "v2";
    SetActiveSystemPrompt "v1" ].

Definition demo_prompt_store : DB := Eval vm_compute in store_after demo_prompts.

End Spec.

(** * Notions for the other operations of the services *)

Module Notions.
Import Py Json AnalysisDB Spec.

(** What a stored value reads as: itself, except [None], which was stored
    as the text of [str(None)]. *)
Definition read_back (v : json) : json :=
  match v with
  | JNull => JStr "None"
  | _ => v
  end.

(** A stand-in for Python's floats to run the functions with: no text is
    read as a float. *)
Definition no_float : Type := Empty_set.
Definition no_float_of_str (s : string) : option no_float := None.
Definition str_of_no_float (x : no_float) : string := match x with end.

(** A settings table to run the functions with. *)
Definition demo_settings : Settings.DB :=
  Settings.mk_db []
    [ Settings.mk_setting "theme" "dark" "string" "ui";
      Settings.mk_setting "retries" "3" "integer" "network";
      Settings.mk_setting "stream" "1" "boolean" "network";
      Settings.mk_setting "active_llm_provider" "local" "string" "ui" ]
    0.

Definition demo_user_file (name : string) : string :=
  "/home/re/.binaryninja/binassist/" ++ name.

(** Two providers, the second one active; the same two with none active
    and the second one named by the setting. *)
Definition demo_gpt : Settings.LLMProviderRow :=
  Settings.mk_provider 1 "gpt" "gpt-4o" "https://api.openai.com/v1" 4096 ""
                       false "openai" false.

Definition demo_local : Settings.LLMProviderRow :=
  Settings.mk_provider 2 "local" "llama3" "http://localhost:11434" 8192 ""
                       true "ollama" false.

Definition demo_providers : Settings.DB :=
  Settings.mk_db [demo_gpt; Settings.set_is_active true demo_local] [] 2.

Definition demo_unrestored : Settings.DB :=
  Settings.mk_db [demo_gpt; demo_local]
    [Settings.mk_setting "active_llm_provider" "local" "string" "ui"] 2.


(** Keyword arguments that name the model only, and some that name no
    column. *)
Definition demo_kwargs : SettingsService.LLMProviderFields :=
  SettingsService.mk_llm_fields None (Some "gpt-4.1") None None None None None
                                None ["colour"].



Definition demo_names : Analyses.ChatMetadataTable :=
  Analyses.mk_chat_metadata_table
    [Analyses.mk_chat_metadata 1 "cafe" "chat-1" "First look"
                               "2024-01-01 10:00:00" "2024-01-01 10:00:00"] 1.

(** A chat that is emptied and started again. *)
Definition demo_restart : list call :=
  [ SaveNativeMessage "cafe" "chat-1" demo_question "openai" None None;
    DeleteNativeChat "cafe" "chat-1";
    SaveNativeMessage "cafe" "chat-1" demo_answer "openai" None None;
    SaveChatMessage "cafe" "chat-1" "user" "Hello" None;
    DeleteChat "cafe" "chat-1";
    SaveChatMessage "cafe" "chat-1" "user" "Again"
                    (Some (JDict [("source", JStr "ui")])) ].

Definition demo_restart_store : DB := Eval vm_compute in store_after demo_restart.

(** A chat of four rows: a system message, a question, and an answer that
    was stored twice, first without its text. *)
Definition demo_transcript : DB :=
  mk_db [] []
    [ mk_message 1 "cafe" "chat-1" 0 "openai" "{}" "system" "Be brief." "text"
                 None None;
      mk_message 2 "cafe" "chat-1" 1 "openai" "{}" "user" "  What is this?  "
                 "text" None None;
      mk_message 3 "cafe" "chat-1" 2 "openai" "{}" "assistant" "" "text"
                 None None;
      mk_message 4 "cafe" "chat-1" 3 "openai" "{}" "assistant" "A parser."
                 "text" None None ]
    [] 0 0 4 0.

(** The time every prompt row was created at. *)
Definition demo_created_at (id : Z) : string := "2024-01-01 10:00:00".

(** The metadata a reader gets for what a writer passed: an absent or
    empty value is stored as NULL and read as the empty dictionary. *)
Definition stored_metadata (metadata : option json) : json :=
  match metadata with
  | Some m => if truthy m then m else JDict []
  | None => JDict []
  end.

(** The role, content and metadata of the messages saved to a chat of the
    legacy history since the chat was last deleted, in the order of the
    calls; [acc] holds those of the calls already passed. *)
Fixpoint saved_history (h c : string) (cs : list call)
    (acc : list (string * string * option json))
  : list (string * string * option json) :=
  match cs with
  | [] => acc
  | SaveChatMessage h' c' role content metadata :: cs' =>
      saved_history h c cs'
        (if same_chat h c h' c' then acc ++ [(role, content, metadata)] else acc)
  | DeleteChat h' c' :: cs' =>
      saved_history h c cs' (if same_chat h c h' c' then [] else acc)
  | _ :: cs' => saved_history h c cs' acc
  end.

(** What a reader sees of a message: its order, role, content, metadata. *)
Definition history_view (m : HistoryMessage) : Z * string * string * json :=
  (hm_message_order m, hm_role m, hm_content m, hm_metadata m).

(** The saved messages as a reader is to see them, numbered from [i]. *)
Fixpoint numbered (i : nat) (ms : list (string * string * option json))
  : list (Z * string * string * json) :=
  match ms with
  | [] => []
  | (role, content, metadata) :: ms' =>
      (Z.of_nat i, role, content, stored_metadata metadata) :: numbered (S i) ms'
  end.

(** The same for the rows of the table, with the metadata as text. *)
Definition row_view (r : ChatHistoryRow) : Z * string * string * option string :=
  (ch_message_order r, ch_role r, ch_content r, ch_metadata r).

Definition metadata_json (metadata : option json) : option string :=
  match metadata with
  | Some m => if truthy m then Some (dumps m) else None
  | None => None
  end.

Fixpoint numbered_rows (i : nat) (ms : list (string * string * option json))
  : list (Z * string * string * option string) :=
  match ms with
  | [] => []
  | (role, content, metadata) :: ms' =>
      (Z.of_nat i, role, content, metadata_json metadata) :: numbered_rows (S i) ms'
  end.

(** [s] is [l] with some of its elements left out. *)
Inductive subsequence {A : Type} : list A -> list A -> Prop :=
| sub_nil : subsequence [] []
| sub_skip (x : A) (s l : list A) : subsequence s l -> subsequence s (x :: l)
| sub_keep (x : A) (s l : list A) : subsequence s l -> subsequence (x :: s) (x :: l).

(** No assistant message directly follows another. *)
Fixpoint no_adjacent_assistants (l : list RawMessage) : bool :=
  match l with
  | [] => true
  | m :: l' =>
      negb (is_assistant m && negb (starts_other l')) && no_adjacent_assistants l'
  end.

(** The version [save_system_prompt] of the settings service stores a
    prompt under: the one given, or the time stamp when none or the empty
    string is given. *)
Definition version_used (version : option string) (stamp : string) : string :=
  match version with
  | Some v => if negb (v =? "") then v else stamp
  | None => stamp
  end.

(** A content block of an Anthropic message that is not a tool use. *)
Definition plain_block (block : json) : bool :=
  match block with
  | JDict d => negb (eq_str (dget d "type" JNull) "tool_use")
  | _ => true
  end.

(** A payload that announces no tool call to the display, by provider:
    for Anthropic the content is absent, a string, or a list of blocks none
    of which is a tool use; for OpenAI and Ollama the key tool_calls is
    absent or holds an empty value, and for Ollama the same holds of the
    dictionary under the key message. *)
Definition no_tool_calls (provider_type : string) (d : list (string * json))
  : bool :=
  if (provider_type =? "anthropic") then
    match dict_get "content" d with
    | None => true
    | Some (JStr _) => true
    | Some (JList blocks) => forallb plain_block blocks
    | Some _ => false
    end
  else if (provider_type =? "openai") then
    negb (truthy (dget d "tool_calls" JNull))
  else if (provider_type =? "ollama") then
    negb (truthy (dget d "tool_calls" JNull))
    && match dict_get "message" d with
       | Some (JDict m) => negb (truthy (dget m "tool_calls" JNull))
       | _ => true
       end
  else true.

(** The provider types and payloads of the native messages saved to a chat
    since the chat was last deleted, in the order of the calls; [acc]
    holds those of the calls already passed. *)
Fixpoint saved_since_delete (h c : string) (cs : list call)
    (acc : list (string * json)) : list (string * json) :=
  match cs with
  | [] => acc
  | SaveNativeMessage h' c' m p _ _ :: cs' =>
      saved_since_delete h c cs' (if same_chat h c h' c' then acc ++ [(p, m)] else acc)
  | DeleteNativeChat h' c' :: cs' =>
      saved_since_delete h c cs' (if same_chat h c h' c' then [] else acc)
  | _ :: cs' => saved_since_delete h c cs' acc
  end.

(** The constraints the schema puts on the two tables of the settings
    store: the primary key of settings, the unique name and the primary key
    of llm_providers, and no id above the counter of AUTOINCREMENT. *)
Definition schema_holds (db : Settings.DB) : Prop :=
  NoDup (map Settings.st_key (Settings.settings db))
  /\ NoDup (map Settings.lp_name (Settings.llm_providers db))
  /\ NoDup (map Settings.lp_id (Settings.llm_providers db))
  /\ (forall r, In r (Settings.llm_providers db) ->
        (Settings.lp_id r <= Settings.seq_llm_providers db)%Z).

(** A session with the settings service. *)
Definition demo_calls : list (SettingsService.call no_float) :=
  [ SettingsService.PopulateDefaults;
    SettingsService.AddLLMProvider "gpt" "gpt-4o" "https://api.openai.com/v1"
      4096 "" false "openai";
    SettingsService.AddLLMProvider "local" "llama3" "http://localhost:11434"
      8192 "" true "ollama";
    SettingsService.SetActiveLLMProvider "local";
    SettingsService.UpdateLLMProvider 1 demo_kwargs;
    SettingsService.DeleteLLMProvider 2;
    SettingsService.GetActiveLLMProvider;
    SettingsService.SetSetting "theme" (SettingsService.Plain (JStr "dark")) "ui" ].

End Notions.

(** * Properties *)

Import Py Json AnalysisDB Spec.

(** Case analysis on a character: its 256 values, without those a
    hypothesis on the character excludes. *)
Ltac char_cases c :=
  destruct c as [[] [] [] [] [] [] [] []]; try discriminate.

(** ** Strings *)

Lemma append_assoc (a b c : string) : (a ++ b) ++ c = a ++ (b ++ c).
Proof. induction a as [|x a IH]; simpl; [reflexivity|rewrite IH; reflexivity]. Qed.

Lemma append_nil_r (a : string) : a ++ "" = a.
Proof. induction a as [|x a IH]; simpl; [reflexivity|rewrite IH; reflexivity]. Qed.

Lemma length_append (a b : string) : length (a ++ b) = (length a + length b)%nat.
Proof. induction a as [|x a IH]; simpl; [reflexivity|rewrite IH; reflexivity]. Qed.

Lemma prefix_empty (s : string) : prefix "" s = true.
Proof. destruct s; reflexivity. Qed.

Lemma prefix_app (p r : string) : prefix p (p ++ r) = true.
Proof.
  induction p as [|x p IH]; simpl; [apply prefix_empty|].
  destruct (ascii_dec x x) as [_|N]; [exact IH|contradiction].
Qed.

Lemma prefix_inv (p s : string) : prefix p s = true -> exists r, s = p ++ r.
Proof.
  revert s. induction p as [|x p IH]; intros s H; [exists s; reflexivity|].
  destruct s as [|y s]; simpl in H; [discriminate|].
  destruct (ascii_dec x y) as [->|_]; [|discriminate].
  destruct (IH s H) as [r ->]. exists r. reflexivity.
Qed.

Lemma prefix_nil (p : string) : prefix p "" = true -> p = "".
Proof. destruct p; [reflexivity|discriminate]. Qed.

Lemma contains_cons (sep : string) (c : ascii) (s : string) :
  contains sep (String c s) = prefix sep (String c s) || contains sep s.
Proof. reflexivity. Qed.

Lemma before_cons (sep : string) (c : ascii) (s : string) :
  before sep (String c s)
  = if prefix sep (String c s) then "" else String c (before sep s).
Proof. reflexivity. Qed.

(** [before] cuts at an occurrence of the separator ... *)
Lemma before_occurrence (sep s : string) :
  contains sep s = true -> exists rest, s = before sep s ++ sep ++ rest.
Proof.
  induction s as [|c s IH]; intros H.
  - simpl in H. rewrite orb_false_r in H. simpl. rewrite H.
    apply prefix_nil in H. subst. exists "". reflexivity.
  - rewrite contains_cons in H. rewrite before_cons.
    destruct (prefix sep (String c s)) eqn:P.
    + apply prefix_inv in P. destruct P as [r ->]. exists r. reflexivity.
    + simpl in H. destruct (IH H) as [r E]. exists r.
      change (String c (before sep s) ++ sep ++ r)
        with (String c (before sep s ++ sep ++ r)).
      rewrite <- E. reflexivity.
Qed.

(** ... and at the first one. *)
Lemma before_first (sep pre post : string) :
  exists t, pre = before sep (pre ++ sep ++ post) ++ t.
Proof.
  induction pre as [|c pre IH].
  - change ("" ++ sep ++ post) with (sep ++ post).
    assert (E : before sep (sep ++ post) = "").
    { destruct (sep ++ post) eqn:E0.
      - destruct sep; reflexivity.
      - rewrite before_cons, <- E0, prefix_app. reflexivity. }
    rewrite E. exists "". reflexivity.
  - change (String c pre ++ sep ++ post) with (String c (pre ++ sep ++ post)).
    rewrite before_cons.
    destruct (prefix sep (String c (pre ++ sep ++ post))).
    + exists (String c pre). reflexivity.
    + destruct IH as [t E]. exists t.
      change (String c (before sep (pre ++ sep ++ post)) ++ t)
        with (String c (before sep (pre ++ sep ++ post) ++ t)).
      rewrite <- E. reflexivity.
Qed.

Lemma contains_app (sep pre post : string) :
  contains sep (pre ++ sep ++ post) = true.
Proof.
  induction pre as [|c pre IH].
  - change ("" ++ sep ++ post) with (sep ++ post).
    destruct (sep ++ post) eqn:E.
    + destruct sep; [reflexivity|discriminate].
    + rewrite contains_cons, <- E, prefix_app. reflexivity.
  - change (String c pre ++ sep ++ post) with (String c (pre ++ sep ++ post)).
    rewrite contains_cons, IH. apply orb_true_r.
Qed.

Lemma split_go_hd (sep cur s : string) :
  hd "" (split_go sep 0 cur s) = cur ++ before sep s.
Proof.
  revert cur. induction s as [|c s IH]; intros cur.
  - destruct sep; simpl; rewrite append_nil_r; reflexivity.
  - rewrite before_cons.
    change (split_go sep 0 cur (String c s))
      with (if prefix sep (String c s)
            then cur :: split_go sep (length sep - 1) EmptyString s
            else split_go sep 0 (cur ++ String c EmptyString) s).
    destruct (prefix sep (String c s)).
    + simpl. rewrite append_nil_r. reflexivity.
    + rewrite IH, append_assoc. reflexivity.
Qed.

(** [s.split(sep)[0]] is the text before the first occurrence. *)
Lemma split_hd (s sep : string) : hd "" (split s sep) = before sep s.
Proof. unfold split. rewrite split_go_hd. reflexivity. Qed.

Lemma replace_go_cons (old new : string) (c : ascii) (s : string) :
  replace_go old new 0 (String c s)
  = if prefix old (String c s)
    then new ++ replace_go old new (length old - 1) s
    else String c (replace_go old new 0 s).
Proof. reflexivity. Qed.

Lemma replace_go_skip (old new : string) (k : nat) (s : string) :
  replace_go old new k s = replace_go old new 0 (drop k s).
Proof.
  revert k. induction s as [|c s IH]; intros k.
  - destruct k; reflexivity.
  - destruct k as [|k]; [reflexivity|].
    change (replace_go old new (S k) (String c s)) with (replace_go old new k s).
    rewrite IH. reflexivity.
Qed.

Lemma drop_append (a b : string) : drop (length a) (a ++ b) = b.
Proof. induction a as [|x a IH]; [destruct b; reflexivity|exact IH]. Qed.

(** Nothing is replaced where the old text does not occur. *)
Lemma replace_absent (s old new : string) :
  contains old s = false -> replace s old new = s.
Proof.
  unfold replace. induction s as [|c s IH]; intros H; [reflexivity|].
  rewrite contains_cons in H. apply orb_false_iff in H. destruct H as [P H].
  rewrite replace_go_cons, P, (IH H). reflexivity.
Qed.

(** The first occurrence of a non-empty old text is replaced, and the
    replacement goes on after it. *)
Lemma replace_first (old new rest : string) :
  old <> "" ->
  forall pre, before old (pre ++ old ++ rest) = pre ->
  replace (pre ++ old ++ rest) old new = pre ++ new ++ replace rest old new.
Proof.
  intros Ho. unfold replace. induction pre as [|x pre IH]; intros Hb.
  - change ("" ++ old ++ rest) with (old ++ rest).
    destruct old as [|c tail]; [contradiction|].
    change (String c tail ++ rest) with (String c (tail ++ rest)).
    rewrite replace_go_cons.
    change (String c (tail ++ rest)) with (String c tail ++ rest).
    rewrite prefix_app, replace_go_skip.
    replace (length (String c tail) - 1)%nat with (length tail) by (simpl; lia).
    rewrite drop_append. reflexivity.
  - change (String x pre ++ old ++ rest) with (String x (pre ++ old ++ rest)) in *.
    rewrite before_cons in Hb. rewrite replace_go_cons.
    destruct (prefix old (String x (pre ++ old ++ rest))); [discriminate|].
    injection Hb as Hb. rewrite (IH Hb). reflexivity.
Qed.

(** ** Context cache: what is read and what is swept *)

Lemma expired_refused (now : string) (r : ContextRow) :
  expired now r = negb (not_expired now r).
Proof.
  unfold expired, not_expired, text_le, text_gt, String.leb, String.ltb.
  destruct (ctx_expires_at r) as [e|]; [|reflexivity].
  rewrite (String.compare_antisym e now).
  destruct (String.compare now e); reflexivity.
Qed.

(** A row [get_context_cache] is ready to return is one the sweep keeps, and
    conversely; the sweep reports how many rows it removed and leaves the
    others as they were. *)
Lemma cleanup_removes_refused (now : string) (db : DB) :
  exists db',
    cleanup_expired_context now db
      = Ok (db', Z.of_nat (List.length (filter (fun r => negb (not_expired now r))
                                               (BNContext db))))
    /\ BNContext db' = filter (not_expired now) (BNContext db).
Proof.
  unfold cleanup_expired_context.
  rewrite (filter_ext (expired now) (fun r => negb (not_expired now r)))
    by (intros r; apply expired_refused).
  rewrite (filter_ext (fun r => negb (expired now r)) (not_expired now))
    by (intros r; rewrite expired_refused; apply negb_involutive).
  eexists; split; reflexivity.
Qed.

Lemma get_context_cache_not_expired (now : string) (db : DB) (h : string)
    (f : Z) (v : json) :
  get_context_cache now db h f = Ok (Some v) ->
  exists r, In r (BNContext db) /\ ctx_key h f r = true
            /\ not_expired now r = true /\ loads (ctx_context_data r) = Some v.
Proof.
  unfold get_context_cache.
  destruct (filter _ (BNContext db)) as [|row rest] eqn:E; [discriminate|].
  assert (Hin : In row (filter (fun r => ctx_key h f r && not_expired now r)
                               (BNContext db))) by (rewrite E; left; reflexivity).
  apply filter_In in Hin. destruct Hin as [Hin Hk].
  apply andb_true_iff in Hk. destruct Hk as [Hk Hn].
  unfold json_loads. destruct (loads (ctx_context_data row)) as [w|] eqn:L;
    simpl; [|discriminate].
  intros [= <-]. exists row. auto.
Qed.

(** C2.  An entry saved with an expiry of 00:00:01 on 2024-01-01 is still
    returned by [get_context_cache] at 23:59:59 of that day, hours after
    it expired whatever the time zone of the local clock, and the sweep
    run at that moment removes nothing: [isoformat] separates date
    and time with the letter T, CURRENT_TIMESTAMP with a space, and the
    comparison is of text, so an expiry reads as later than any moment of
    its own day. *)
Theorem get_context_cache_returns_expired_entry :
  let expires_at := mk_datetime 2024 1 1 0 0 1 0 in
  let now := mk_datetime 2024 1 1 23 59 59 0 in
  let data := JDict [("blocks", JInt 3)] in
  exists db,
    save_context_cache empty_db "cafe" 4096 data expires_at = Ok (db, 1%Z)
    /\ earlier expires_at now = true
    /\ map ctx_expires_at (BNContext db) = [Some "2024-01-01T00:00:01"]
    /\ CURRENT_TIMESTAMP now = "2024-01-01 23:59:59"
    /\ get_context_cache (CURRENT_TIMESTAMP now) db "cafe" 4096 = Ok (Some data)
    /\ cleanup_expired_context (CURRENT_TIMESTAMP now) db = Ok (db, 0%Z).
Proof.
  eexists. split; [reflexivity|]. repeat split.
Qed.

(** ** Message order *)

Lemma dense_S (n : nat) : dense (S n) = (dense n ++ [Z.of_nat n])%list.
Proof. unfold dense. rewrite seq_S, map_app. reflexivity. Qed.

Lemma sql_max_app (l : list Z) (x : Z) :
  sql_max (l ++ [x]) = Some (match sql_max l with
                             | None => x
                             | Some m => Z.max m x
                             end).
Proof.
  unfold sql_max. rewrite fold_left_app. simpl.
  destruct (fold_left _ l None); reflexivity.
Qed.

Lemma sql_max_dense (n : nat) : sql_max (dense (S n)) = Some (Z.of_nat n).
Proof.
  induction n as [|n IH]; [reflexivity|].
  rewrite dense_S, sql_max_app, IH. f_equal. lia.
Qed.

(** COALESCE(MAX(message_order), -1) + 1 over a dense chat is its length. *)
Lemma next_order_dense (n : nat) :
  (coalesce (sql_max (dense n)) (-1) + 1)%Z = Z.of_nat n.
Proof.
  destruct n as [|n]; [reflexivity|].
  rewrite sql_max_dense. simpl coalesce. lia.
Qed.

Lemma filter_filter_implied {A : Type} (p q : A -> bool) (l : list A) :
  (forall x, p x = true -> q x = true) ->
  filter p (filter q l) = filter p l.
Proof.
  intros H. induction l as [|x l IH]; [reflexivity|]. simpl.
  destruct (q x) eqn:Q; simpl.
  - rewrite IH. reflexivity.
  - destruct (p x) eqn:P; [|exact IH].
    rewrite (H x P) in Q. discriminate.
Qed.

Lemma fold_max_upper (k : list Z) (acc : option Z) (x : Z) :
  In x k \/ acc = Some x ->
  exists m, fold_left (fun acc x => match acc with
                                    | None => Some x
                                    | Some m => Some (Z.max m x)
                                    end) k acc = Some m /\ (x <= m)%Z.
Proof.
  revert acc x. induction k as [|y k IH]; intros acc x [H|H].
  - destruct H.
  - subst. exists x. split; [reflexivity|lia].
  - simpl. destruct H as [->|H].
    + destruct acc as [m|].
      * destruct (IH (Some (Z.max m x)) (Z.max m x)) as [b [E L]]; [now right|].
        exists b. split; [exact E|lia].
      * destruct (IH (Some x) x) as [b [E L]]; [now right|]. eauto.
    + apply IH. now left.
  - subst. simpl.
    destruct (IH (Some (Z.max x y)) (Z.max x y)) as [b [E L]]; [now right|].
    exists b. split; [exact E|lia].
Qed.

Lemma sql_max_upper (l : list Z) (x : Z) :
  In x l -> (x <= coalesce (sql_max l) (-1))%Z.
Proof.
  intros Hx. destruct (fold_max_upper l None x) as [m [E L]]; [now left|].
  unfold sql_max. rewrite E. exact L.
Qed.

(** The UNIQUE constraint cannot fire on the order the insert computes. *)
Lemma fresh_order {A : Type} (key : A -> bool) (order : A -> Z) (rows : list A) :
  existsb (fun r => key r
     && (order r =? coalesce (sql_max (map order (filter key rows))) (-1) + 1)%Z)
    rows = false.
Proof.
  apply not_true_is_false. intros E.
  apply existsb_exists in E. destruct E as [r [Hin Hr]].
  apply andb_true_iff in Hr. destruct Hr as [Hk Ho].
  apply Z.eqb_eq in Ho.
  assert (H : In (order r) (map order (filter key rows))).
  { apply in_map. apply filter_In. auto. }
  apply sql_max_upper in H. lia.
Qed.

(** [save_chat_message] returns on every store and every argument. *)
Lemma save_chat_message_returns (db : DB) (h c role content : string)
    (metadata : option json) :
  exists db' message_id, save_chat_message db h c role content metadata
                         = Ok (db', message_id).
Proof.
  unfold save_chat_message.
  rewrite (fresh_order (ch_key h c) ch_message_order). eauto.
Qed.

(** [save_native_message] returns whenever the provider type is one of the
    enumeration and the normalizer returns. *)
Lemma save_native_message_returns (ProviderType : string -> bool)
    (extract_display_info : json -> string -> outcome (string * string * string))
    (db : DB) (h c : string) (m : json) (p : string) (parent : option Z)
    (thread : option string) (info : string * string * string) :
  ProviderType p = true ->
  extract_display_info m p = Ok info ->
  exists db' message_id,
    save_native_message ProviderType extract_display_info db h c m p parent thread
    = Ok (db', message_id).
Proof.
  intros HP HE. unfold save_native_message. rewrite HP, HE. simpl.
  destruct info as [[r t] ty].
  rewrite (fresh_order (cm_key h c) cm_message_order). eauto.
Qed.

Section OrderInvariant.

Variable ProviderType : string -> bool.
Variable extract_display_info : json -> string -> outcome (string * string * string).
Variables h c : string.

(** One call that is not a deletion of the chat extends a dense chat by the
    next number when it is a save to that chat, and leaves it alone
    otherwise. *)
Lemma exec_history_orders (cl : call) (db db' : DB) (n : nat) :
  is_delete h c cl = false ->
  exec ProviderType extract_display_info cl db = Ok db' ->
  history_orders db h c = dense n ->
  history_orders db' h c = dense (bump (is_history_save h c cl) n).
Proof.
  intros Hd He Hn.
  destruct cl as [? ? ? ?|?|binary_hash chat_id ? ? ?|binary_hash chat_id
                 |binary_hash chat_id msg pt ? ?|binary_hash chat_id|? ?|?];
    simpl in He, Hd |- *;
    try (injection He as <-; exact Hn).
  - (* SaveChatMessage *)
    unfold save_chat_message in He.
    rewrite (fresh_order (ch_key binary_hash chat_id) ch_message_order) in He.
    simpl in He. injection He as <-.
    unfold history_orders in *. simpl. rewrite filter_app, map_app. simpl.
    unfold ch_key at 2. simpl.
    destruct (same_chat h c binary_hash chat_id) eqn:S; unfold same_chat in S;
      rewrite S; simpl.
    + apply andb_true_iff in S. destruct S as [S1 S2].
      apply String.eqb_eq in S1, S2. subst.
      rewrite Hn, next_order_dense, dense_S. reflexivity.
    + rewrite app_nil_r. exact Hn.
  - (* DeleteChat *)
    injection He as <-. unfold history_orders in *. simpl.
    rewrite filter_filter_implied; [exact Hn|].
    intros x Hx. unfold ch_key in *. unfold same_chat in Hd.
    apply andb_true_iff in Hx. destruct Hx as [H1 H2].
    apply String.eqb_eq in H1, H2. rewrite H1, H2.
    rewrite (String.eqb_sym h), (String.eqb_sym c), Hd. reflexivity.
  - (* SaveNativeMessage *)
    unfold save_native_message in He.
    destruct (ProviderType pt); simpl in He; [|discriminate].
    destruct (extract_display_info msg pt)
      as [[[r t] ty]|]; simpl in He; [|discriminate].
    rewrite (fresh_order (cm_key binary_hash chat_id) cm_message_order) in He.
    simpl in He. injection He as <-. exact Hn.
Qed.

Lemma exec_native_orders (cl : call) (db db' : DB) (n : nat) :
  is_delete h c cl = false ->
  exec ProviderType extract_display_info cl db = Ok db' ->
  native_orders db h c = dense n ->
  native_orders db' h c = dense (bump (is_native_save h c cl) n).
Proof.
  intros Hd He Hn.
  destruct cl as [? ? ? ?|?|binary_hash chat_id ? ? ?|binary_hash chat_id
                 |binary_hash chat_id msg pt ? ?|binary_hash chat_id|? ?|?];
    simpl in He, Hd |- *;
    try (injection He as <-; exact Hn).
  - (* SaveChatMessage *)
    unfold save_chat_message in He.
    rewrite (fresh_order (ch_key binary_hash chat_id) ch_message_order) in He.
    simpl in He. injection He as <-. exact Hn.
  - (* SaveNativeMessage *)
    unfold save_native_message in He.
    destruct (ProviderType pt); simpl in He; [|discriminate].
    destruct (extract_display_info msg pt)
      as [[[r t] ty]|]; simpl in He; [|discriminate].
    rewrite (fresh_order (cm_key binary_hash chat_id) cm_message_order) in He.
    simpl in He. injection He as <-.
    unfold native_orders in *. simpl. rewrite filter_app, map_app. simpl.
    unfold cm_key at 2. simpl.
    destruct (same_chat h c binary_hash chat_id) eqn:S; unfold same_chat in S;
      rewrite S; simpl.
    + apply andb_true_iff in S. destruct S as [S1 S2].
      apply String.eqb_eq in S1, S2. subst.
      rewrite Hn, next_order_dense, dense_S. reflexivity.
    + rewrite app_nil_r. exact Hn.
  - (* DeleteNativeChat *)
    injection He as <-. unfold native_orders in *. simpl.
    rewrite filter_filter_implied; [exact Hn|].
    intros x Hx. unfold cm_key in *. unfold same_chat in Hd.
    apply andb_true_iff in Hx. destruct Hx as [H1 H2].
    apply String.eqb_eq in H1, H2. rewrite H1, H2.
    rewrite (String.eqb_sym h), (String.eqb_sym c), Hd. reflexivity.
Qed.

Lemma run_orders (cs : list call) (db db' : DB) (n m : nat) :
  forallb (fun cl => negb (is_delete h c cl)) cs = true ->
  run ProviderType extract_display_info cs db = Ok db' ->
  history_orders db h c = dense n ->
  native_orders db h c = dense m ->
  history_orders db' h c = dense (n + count (is_history_save h c) cs)
  /\ native_orders db' h c = dense (m + count (is_native_save h c) cs).
Proof.
  revert db n m. induction cs as [|cl cs IH]; intros db n m Hd Hr Hn Hm.
  - injection Hr as <-. unfold count. simpl. rewrite !Nat.add_0_r. auto.
  - simpl in Hd. apply andb_true_iff in Hd. destruct Hd as [Hd1 Hd2].
    apply negb_true_iff in Hd1.
    simpl in Hr.
    destruct (exec ProviderType extract_display_info cl db) as [db1|] eqn:E;
      simpl in Hr; [|discriminate].
    pose proof (exec_history_orders cl db _ _ Hd1 E Hn) as H1.
    pose proof (exec_native_orders cl db _ _ Hd1 E Hm) as H2.
    destruct (IH db1 _ _ Hd2 Hr H1 H2) as [G1 G2].
    rewrite G1, G2. unfold count, bump. simpl.
    destruct (is_history_save h c cl), (is_native_save h c cl); simpl;
      rewrite ?Nat.add_succ_r; auto.
Qed.

End OrderInvariant.

(** C1.  From a store in which the chat has no row, after any sequence of
    calls that all return and none of which deletes the chat, the
    message_order values of the chat are, in order of insertion,
    0, 1, ..., N-1 in BNChatHistory, N being the number of
    [save_chat_message] calls to the chat, and likewise in BNChatMessages
    for [save_native_message]. *)
Theorem message_order_dense (ProviderType : string -> bool)
    (extract_display_info : json -> string -> outcome (string * string * string))
    (h c : string) (cs : list call) (db db' : DB) :
  history_orders db h c = [] ->
  native_orders db h c = [] ->
  forallb (fun cl => negb (is_delete h c cl)) cs = true ->
  run ProviderType extract_display_info cs db = Ok db' ->
  history_orders db' h c = dense (count (is_history_save h c) cs)
  /\ native_orders db' h c = dense (count (is_native_save h c) cs).
Proof.
  intros H1 H2 Hd Hr.
  exact (run_orders ProviderType extract_display_info h c cs db db' 0 0 Hd Hr H1 H2).
Qed.

Lemma message_order_dense_witness :
  run demo_ProviderType demo_extract_display_info demo_session empty_db
    = Ok demo_store
  /\ history_orders demo_store "cafe" "chat-1" = [0; 1]%Z
  /\ native_orders demo_store "cafe" "chat-1" = [0; 1; 2]%Z.
Proof.
  split; [vm_compute; reflexivity|].
  apply (message_order_dense demo_ProviderType demo_extract_display_info
           "cafe" "chat-1" demo_session empty_db demo_store);
    vm_compute; reflexivity.
Defined.

(** ** System prompts *)

Lemma set_active_system_prompt_rows (db : DB) (v : string) :
  exists db',
    set_active_system_prompt db v
      = Ok (db', existsb (fun r => sp_version r =? v) (SystemPrompts db))
    /\ SystemPrompts db' = map (activated_by v) (SystemPrompts db).
Proof.
  unfold set_active_system_prompt. eexists. split.
  - f_equal. f_equal.
    induction (SystemPrompts db) as [|r l IH]; [reflexivity|].
    simpl. destruct (sp_version r =? v); simpl; [reflexivity|exact IH].
  - simpl. rewrite map_map. apply map_ext. intros r.
    unfold activate, deactivate, activated_by. simpl.
    destruct (sp_version r =? v); reflexivity.
Qed.

Lemma active_after_activation (l : list SystemPromptRow) (v : string) :
  List.length (filter sp_is_active (map (activated_by v) l))
  = List.length (filter (fun r => sp_version r =? v) l).
Proof.
  induction l as [|r l IH]; [reflexivity|]. simpl.
  destruct (sp_version r =? v); simpl; rewrite IH; reflexivity.
Qed.

Lemma exec_one_version (PT : string -> bool)
    (edi : json -> string -> outcome (string * string * string))
    (cl : call) (db db' : DB) :
  exec PT edi cl db = Ok db' ->
  one_version (SystemPrompts db) -> one_version (SystemPrompts db').
Proof.
  intros He Hi.
  destruct cl as [? ? ? ?|?|hh cc ? ? ?|hh cc|hh cc msg pt ? ?|hh cc|p v|v];
    unfold exec in He;
    try (simpl in He; injection He as <-; exact Hi).
  - unfold save_chat_message in He.
    rewrite (fresh_order (ch_key hh cc) ch_message_order) in He.
    injection He as <-. exact Hi.
  - unfold save_native_message in He.
    destruct (PT pt); simpl in He; [|discriminate].
    destruct (edi msg pt) as [[[r t] ty]|]; simpl in He; [|discriminate].
    rewrite (fresh_order (cm_key hh cc) cm_message_order) in He.
    injection He as <-. exact Hi.
  - injection He as <-. simpl. destruct Hi as [w Hw]. exists w.
    intros r Hr Ha. apply in_app_or in Hr. destruct Hr as [Hr|[<-|[]]].
    + auto.
    + discriminate.
  - destruct (set_active_system_prompt_rows db v) as [d [E R]].
    rewrite E in He. simpl in He. injection He as <-. rewrite R. exists v.
    intros r Hr Ha. apply in_map_iff in Hr. destruct Hr as [x [<- _]].
    simpl in *. apply String.eqb_eq. exact Ha.
Qed.

Lemma run_one_version (PT : string -> bool)
    (edi : json -> string -> outcome (string * string * string))
    (cs : list call) (db db' : DB) :
  run PT edi cs db = Ok db' ->
  one_version (SystemPrompts db) -> one_version (SystemPrompts db').
Proof.
  revert db. induction cs as [|cl cs IH]; intros db Hr Hi.
  - injection Hr as <-. exact Hi.
  - simpl in Hr. destruct (exec PT edi cl db) as [db1|] eqn:E; [|discriminate].
    simpl in Hr. eapply IH; [exact Hr|]. eapply exec_one_version; eauto.
Qed.

Lemma at_most_one_of_a_version (l : list SystemPromptRow) (v : string) :
  NoDup (map sp_version l) ->
  (forall r, In r l -> sp_is_active r = true -> sp_version r = v) ->
  (List.length (filter sp_is_active l) <= 1)%nat.
Proof.
  induction l as [|r l IH]; intros Hn Hv; [simpl; lia|].
  simpl in Hn. inversion Hn as [|? ? Hnot Hn']; subst.
  simpl. destruct (sp_is_active r) eqn:A.
  - assert (Z : filter sp_is_active l = []).
    { destruct (filter sp_is_active l) as [|x t] eqn:F; [reflexivity|exfalso].
      assert (Hx : In x (filter sp_is_active l)) by (rewrite F; now left).
      apply filter_In in Hx. destruct Hx as [Hx Ha].
      apply Hnot. rewrite (Hv r (or_introl eq_refl) A).
      rewrite <- (Hv x (or_intror Hx) Ha). apply in_map. exact Hx. }
    rewrite Z. simpl. lia.
  - apply IH; [exact Hn'|]. intros x Hx. apply Hv. now right.
Qed.

(** C5, as the store has it.  In every state reached from the empty store
    all active rows of SystemPrompts carry one and the same version, hence
    at most one row is active when the stored versions are pairwise
    distinct; [set_active_system_prompt] leaves active exactly the rows of
    the given version (as many as there are) and returns whether there is
    one. *)
Theorem active_prompts_share_version (PT : string -> bool)
    (edi : json -> string -> outcome (string * string * string))
    (cs : list call) (db : DB) (v : string) :
  run PT edi cs empty_db = Ok db ->
  (forall r1 r2, In r1 (active_prompts db) -> In r2 (active_prompts db) ->
                 sp_version r1 = sp_version r2)
  /\ (NoDup (map sp_version (SystemPrompts db)) ->
      (List.length (active_prompts db) <= 1)%nat)
  /\ exists db',
       set_active_system_prompt db v
         = Ok (db', existsb (fun r => sp_version r =? v) (SystemPrompts db))
       /\ SystemPrompts db' = map (activated_by v) (SystemPrompts db)
       /\ List.length (active_prompts db')
          = List.length (filter (fun r => sp_version r =? v) (SystemPrompts db)).
Proof.
  intros Hr.
  assert (Hi : one_version (SystemPrompts db)).
  { eapply run_one_version; [exact Hr|]. exists "". intros r []. }
  destruct Hi as [w Hw]. split; [|split].
  - intros r1 r2 H1 H2. unfold active_prompts in *.
    apply filter_In in H1, H2. destruct H1 as [I1 A1], H2 as [I2 A2].
    rewrite (Hw r1 I1 A1), (Hw r2 I2 A2). reflexivity.
  - intros Hn. apply (at_most_one_of_a_version _ w Hn Hw).
  - destruct (set_active_system_prompt_rows db v) as [d [E R]].
    exists d. split; [exact E|]. split; [exact R|].
    unfold active_prompts. rewrite R. apply active_after_activation.
Qed.

Lemma active_prompts_share_version_witness :
  run demo_ProviderType demo_extract_display_info demo_prompts empty_db
    = Ok demo_prompt_store
  /\ map sp_is_active (SystemPrompts demo_prompt_store) = [true; false]
  /\ exists db',
       set_active_system_prompt demo_prompt_store "v2" = Ok (db', true)
       /\ map sp_is_active (SystemPrompts db') = [false; true].
Proof.
  split; [vm_compute; reflexivity|]. split; [vm_compute; reflexivity|].
  destruct (active_prompts_share_version demo_ProviderType
              demo_extract_display_info demo_prompts demo_prompt_store "v2")
    as [_ [_ [db' [E [R _]]]]]; [vm_compute; reflexivity|].
  exists db'. split; [exact E|]. rewrite R. reflexivity.
Defined.

(** C5, as the claim has it: two prompts saved under one version string are
    both active after that version is activated. *)
Lemma two_active_system_prompts :
  exists db,
    run demo_ProviderType demo_extract_display_info
        [ SaveSystemPrompt "You are an analyst." "v1";
          SaveSystemPrompt "You are a reverser." "v1";
          SetActiveSystemPrompt "v1" ] empty_db = Ok db
    /\ map sp_is_active (SystemPrompts db) = [true; true]
    /\ List.length (active_prompts db) = 2%nat.
Proof. eexists. repeat split. Qed.

(** ** LLM providers *)

Lemma no_row_named (name : string) (l : list Settings.LLMProviderRow) :
  existsb (fun r => Settings.lp_name r =? name) l = false ->
  map (fun r => if (Settings.lp_name r =? name)
                then Settings.set_is_active true r else r)
      (map (Settings.set_is_active false) l)
  = map (Settings.set_is_active false) l.
Proof.
  induction l as [|r l IH]; intros H; [reflexivity|].
  simpl in H. apply orb_false_iff in H. destruct H as [H1 H2].
  simpl. rewrite H1, (IH H2). reflexivity.
Qed.

Lemma none_active_after_clearing (l : list Settings.LLMProviderRow) :
  filter Settings.lp_is_active (map (Settings.set_is_active false) l) = [].
Proof. induction l as [|r l IH]; [reflexivity|exact IH]. Qed.

Lemma none_named_after_clearing (name : string)
    (l : list Settings.LLMProviderRow) :
  existsb (fun r => Settings.lp_name r =? name) l = false ->
  filter (fun r => Settings.lp_name r =? name)
         (map (Settings.set_is_active false) l) = [].
Proof.
  induction l as [|r l IH]; intros H; [reflexivity|].
  simpl in H. apply orb_false_iff in H. destruct H as [H1 H2].
  simpl. rewrite H1. exact (IH H2).
Qed.

Lemma filter_replace_setting (row : Settings.SettingRow)
    (t : list Settings.SettingRow) :
  filter (fun r => Settings.st_key r =? Settings.st_key row)
         (Settings.replace_setting row t) = [row].
Proof.
  unfold Settings.replace_setting. rewrite filter_app. simpl.
  rewrite String.eqb_refl.
  replace (filter _ (filter _ t)) with (@nil Settings.SettingRow); [reflexivity|].
  induction t as [|x t IH]; [reflexivity|]. simpl.
  destruct (Settings.st_key x =? Settings.st_key row) eqn:E; simpl;
    [|rewrite E]; exact IH.
Qed.

(** C6, as the store has it.  With a name that no row of llm_providers
    carries, [set_active_llm_provider] returns and leaves every provider
    inactive, the other columns as they were; the name is recorded under
    the key active_llm_provider, and [get_active_llm_provider] then finds
    no active provider. *)
Theorem set_active_llm_provider_unknown_name (db : Settings.DB) (name : string) :
  existsb (fun r => Settings.lp_name r =? name) (Settings.llm_providers db) = false ->
  exists db' updated,
    Settings.set_active_llm_provider db name = Ok (db', updated)
    /\ Settings.llm_providers db'
       = map (Settings.set_is_active false) (Settings.llm_providers db)
    /\ filter Settings.lp_is_active (Settings.llm_providers db') = []
    /\ filter (fun r => Settings.st_key r =? "active_llm_provider")
              (Settings.settings db')
       = [Settings.mk_setting "active_llm_provider" name "string" "ui"]
    /\ Settings.get_active_llm_provider db' = Ok (db', None).
Proof.
  intros H. unfold Settings.set_active_llm_provider. simpl.
  rewrite (no_row_named name _ H).
  eexists. eexists. split; [reflexivity|]. simpl.
  pose proof (none_active_after_clearing (Settings.llm_providers db)) as A.
  pose proof (none_named_after_clearing name _ H) as B.
  pose proof (filter_replace_setting
                (Settings.mk_setting "active_llm_provider" name "string" "ui")
                (Settings.settings db)) as C.
  simpl in C.
  repeat split; try assumption.
  unfold Settings.get_active_llm_provider. simpl.
  rewrite A, C. simpl. rewrite B. reflexivity.
Qed.

Lemma set_active_llm_provider_unknown_name_witness :
  let gpt := Settings.mk_provider 1 "gpt" "gpt-4o" "https://api.openai.com/v1"
                                  4096 "" false "openai" true in
  let db := Settings.mk_db [gpt] [] 1 in
  exists db' updated,
    Settings.set_active_llm_provider db "local" = Ok (db', updated)
    /\ Settings.llm_providers db' = [Settings.set_is_active false gpt]
    /\ Settings.get_active_llm_provider db' = Ok (db', None).
Proof.
  intros gpt db.
  destruct (set_active_llm_provider_unknown_name db "local" eq_refl)
    as [db' [updated [E [P [_ [_ G]]]]]].
  exists db', updated. split; [exact E|]. split; [exact P|exact G].
Defined.

(** C6, as the claim has it: the provider that was active is no longer
    active after a call with a name that does not exist, and the call
    returns True. *)
Lemma set_active_llm_provider_deactivates_prior :
  let gpt := Settings.mk_provider 1 "gpt" "gpt-4o" "https://api.openai.com/v1"
                                  4096 "" false "openai" true in
  let db := Settings.mk_db [gpt] [] 1 in
  exists db',
    Settings.set_active_llm_provider db "local" = Ok (db', true)
    /\ existsb (fun r => Settings.lp_name r =? "local") (Settings.llm_providers db)
       = false
    /\ map Settings.lp_is_active (Settings.llm_providers db) = [true]
    /\ map Settings.lp_is_active (Settings.llm_providers db') = [false]
    /\ Settings.llm_providers db' <> Settings.llm_providers db.
Proof.
  eexists. split; [reflexivity|]. repeat split. discriminate.
Qed.

(** ** Grouping and deduplication *)

Lemma runs_head (m : RawMessage) (l : list RawMessage) :
  exists r rs, runs (m :: l) = (m :: r) :: rs.
Proof.
  simpl. destruct (runs l) as [|[|m' r] rs]; eauto.
  destruct (is_assistant m && is_assistant m'); eauto.
Qed.

Lemma runs_other (m : RawMessage) (l : list RawMessage) :
  is_assistant m = false -> runs (m :: l) = [m] :: runs l.
Proof.
  intros H. simpl. rewrite H. simpl.
  destruct (runs l) as [|[|m' r] rs]; reflexivity.
Qed.

(** The first run of a list that starts with an assistant row is what the
    inner loop collects, and the other runs are those of what the loop
    leaves. *)
Lemma runs_assistant (m : RawMessage) (l : list RawMessage) :
  is_assistant m = true ->
  runs (m :: l) = (m :: assistant_run l) :: runs (after_run l).
Proof.
  revert m. induction l as [|x l IH]; intros m Hm; [reflexivity|].
  change (runs (m :: x :: l))
    with (match runs (x :: l) with
          | (m' :: r) :: rs =>
              if is_assistant m && is_assistant m'
              then (m :: m' :: r) :: rs
              else [m] :: (m' :: r) :: rs
          | rs => [m] :: rs
          end).
  simpl assistant_run. simpl after_run.
  destruct (is_assistant x) eqn:Hx.
  - rewrite (IH x Hx), Hm, Hx. reflexivity.
  - destruct (runs_head x l) as [r [rs E]]. rewrite E, Hm, Hx. reflexivity.
Qed.

Lemma group_and_deduplicate_collapses (l : list RawMessage) :
  _group_and_deduplicate_messages l = collapse_runs l.
Proof.
  funelim (_group_and_deduplicate_messages l); [reflexivity|].
  unfold collapse_runs in *.
  destruct (role msg =? "user") eqn:U.
  - rewrite runs_other.
    + simpl. f_equal. auto.
    + unfold is_assistant. apply String.eqb_eq in U. rewrite U. reflexivity.
  - destruct (role msg =? "assistant") eqn:A.
    + rewrite (runs_assistant msg rest A). simpl. f_equal; [|auto].
      destruct (assistant_run rest); reflexivity.
    + rewrite (runs_other msg rest A). simpl. f_equal. auto.
Qed.

Lemma dedup_other (m : RawMessage) (l : list RawMessage) :
  is_assistant m = false ->
  _group_and_deduplicate_messages (m :: l)
  = m :: _group_and_deduplicate_messages l.
Proof.
  intros H. rewrite !group_and_deduplicate_collapses. unfold collapse_runs.
  rewrite (runs_other m l H). reflexivity.
Qed.

Lemma dedup_assistant (m : RawMessage) (l : list RawMessage) :
  is_assistant m = true ->
  _group_and_deduplicate_messages (m :: l)
  = fold_left _choose_better_assistant_message (assistant_run l) m
    :: _group_and_deduplicate_messages (after_run l).
Proof.
  intros H. rewrite !group_and_deduplicate_collapses. unfold collapse_runs.
  rewrite (runs_assistant m l H). reflexivity.
Qed.

Lemma runs_app_other (pre post : list RawMessage) (m : RawMessage) :
  is_assistant m = false ->
  runs (pre ++ m :: post) = (runs pre ++ [m] :: runs post)%list.
Proof.
  intros H. induction pre as [|x pre IH]; [apply runs_other; exact H|].
  change (runs ((x :: pre) ++ m :: post))
    with (match runs (pre ++ m :: post) with
          | (m' :: r) :: rs =>
              if is_assistant x && is_assistant m'
              then (x :: m' :: r) :: rs
              else [x] :: (m' :: r) :: rs
          | rs => [x] :: rs
          end).
  rewrite IH. simpl runs.
  destruct (runs pre) as [|[|m' r] rs]; simpl.
  - rewrite H, andb_false_r. reflexivity.
  - reflexivity.
  - destruct (is_assistant x && is_assistant m'); reflexivity.
Qed.

(** A row that is not an assistant row passes through, wherever it is. *)
Lemma dedup_passes_other (pre post : list RawMessage) (m : RawMessage) :
  is_assistant m = false ->
  _group_and_deduplicate_messages (pre ++ m :: post)
  = (_group_and_deduplicate_messages pre
     ++ m :: _group_and_deduplicate_messages post)%list.
Proof.
  intros H. rewrite !group_and_deduplicate_collapses. unfold collapse_runs.
  rewrite (runs_app_other pre post m H), flat_map_app. reflexivity.
Qed.

Lemma assistant_run_app (run post : list RawMessage) :
  forallb is_assistant run = true -> starts_other post = true ->
  assistant_run (run ++ post) = run /\ after_run (run ++ post) = post.
Proof.
  intros Hr Hp. induction run as [|x run IH].
  - destruct post as [|y post]; [split; reflexivity|].
    simpl in *. apply negb_true_iff in Hp. rewrite Hp. split; reflexivity.
  - simpl in Hr. apply andb_true_iff in Hr. destruct Hr as [Hx Hr].
    simpl. rewrite Hx. destruct (IH Hr) as [-> ->]. split; reflexivity.
Qed.

(** A maximal run of assistant rows is replaced by the left fold of the
    choice over it. *)
Lemma dedup_collapses_maximal_run (pre post : list RawMessage)
    (m : RawMessage) (run : list RawMessage) :
  forallb is_assistant (m :: run) = true ->
  ends_other pre = true -> starts_other post = true ->
  _group_and_deduplicate_messages (pre ++ (m :: run) ++ post)
  = (_group_and_deduplicate_messages pre
     ++ fold_left _choose_better_assistant_message run m
        :: _group_and_deduplicate_messages post)%list.
Proof.
  intros Hr Hpre Hpost.
  simpl in Hr. apply andb_true_iff in Hr. destruct Hr as [Hm Hr].
  assert (G : _group_and_deduplicate_messages (m :: run ++ post)
              = fold_left _choose_better_assistant_message run m
                :: _group_and_deduplicate_messages post).
  { rewrite (dedup_assistant m _ Hm).
    destruct (assistant_run_app run post Hr Hpost) as [-> ->]. reflexivity. }
  unfold ends_other in Hpre.
  destruct (rev pre) as [|p q] eqn:E.
  - apply (f_equal (@rev RawMessage)) in E. rewrite rev_involutive in E.
    subst pre. exact G.
  - apply (f_equal (@rev RawMessage)) in E. rewrite rev_involutive in E.
    simpl in E. subst pre. simpl in Hpre. apply negb_true_iff in Hpre.
    rewrite <- app_assoc. simpl app.
    rewrite (dedup_passes_other (rev q) _ p Hpre).
    rewrite (dedup_passes_other (rev q) [] p Hpre).
    rewrite G, <- app_assoc.
    replace (_group_and_deduplicate_messages []) with (@nil RawMessage)
      by (rewrite group_and_deduplicate_collapses; reflexivity).
    reflexivity.
Qed.

Lemma choose_either (m1 m2 : RawMessage) :
  _choose_better_assistant_message m1 m2 = m1
  \/ _choose_better_assistant_message m1 m2 = m2.
Proof.
  unfold _choose_better_assistant_message.
  repeat match goal with |- context [if ?b then _ else _] => destruct b end; auto.
Qed.

Lemma fold_choose_assistant (run : list RawMessage) (m : RawMessage) :
  is_assistant m = true -> forallb is_assistant run = true ->
  is_assistant (fold_left _choose_better_assistant_message run m) = true.
Proof.
  revert m. induction run as [|x run IH]; intros m Hm Hr; [exact Hm|].
  simpl in Hr. apply andb_true_iff in Hr. destruct Hr as [Hx Hr].
  simpl. apply IH; [|exact Hr].
  destruct (choose_either m x) as [-> | ->]; assumption.
Qed.

Lemma assistant_run_all (l : list RawMessage) :
  forallb is_assistant (assistant_run l) = true.
Proof.
  induction l as [|x l IH]; [reflexivity|]. simpl.
  destruct (is_assistant x) eqn:E; [|reflexivity]. simpl. rewrite E. exact IH.
Qed.

Lemma after_run_starts_other (l : list RawMessage) :
  starts_other (after_run l) = true.
Proof.
  induction l as [|x l IH]; [reflexivity|]. simpl.
  destruct (is_assistant x) eqn:E; [exact IH|]. simpl. rewrite E. reflexivity.
Qed.

Lemma dedup_starts_other (l : list RawMessage) :
  starts_other l = true -> starts_other (_group_and_deduplicate_messages l) = true.
Proof.
  destruct l as [|x l]; intros H.
  - rewrite group_and_deduplicate_collapses. reflexivity.
  - simpl in H. apply negb_true_iff in H. rewrite (dedup_other x l H).
    simpl. rewrite H. reflexivity.
Qed.

Lemma run_of_starts_other (l : list RawMessage) :
  starts_other l = true -> assistant_run l = [] /\ after_run l = l.
Proof.
  destruct l as [|x l]; intros H; [split; reflexivity|].
  simpl in *. apply negb_true_iff in H. rewrite H. split; reflexivity.
Qed.

(** Deduplicating a deduplicated transcript changes nothing. *)
Lemma dedup_idempotent (l : list RawMessage) :
  _group_and_deduplicate_messages (_group_and_deduplicate_messages l)
  = _group_and_deduplicate_messages l.
Proof.
  remember (List.length l) as n eqn:Hn. revert l Hn.
  induction n as [n IH] using lt_wf_ind. intros l Hn.
  destruct l as [|m l]; [rewrite !group_and_deduplicate_collapses; reflexivity|].
  destruct (is_assistant m) eqn:A.
  - rewrite (dedup_assistant m l A).
    set (best := fold_left _choose_better_assistant_message (assistant_run l) m).
    assert (B : is_assistant best = true)
      by (apply fold_choose_assistant; [exact A|apply assistant_run_all]).
    rewrite (dedup_assistant best _ B).
    destruct (run_of_starts_other _
                (dedup_starts_other _ (after_run_starts_other l))) as [-> ->].
    simpl. f_equal.
    apply (IH (List.length (after_run l))); [|reflexivity].
    subst n. simpl. clear. induction l as [|x l IHl]; simpl; [lia|].
    destruct (is_assistant x); simpl; lia.
  - rewrite (dedup_other m l A), (dedup_other m _ A). f_equal.
    apply (IH (List.length l)); [subst n; simpl; lia|reflexivity].
Qed.

(** C7.  [_group_and_deduplicate_messages] yields, for each maximal run of
    consecutive assistant rows, the left fold of the better-of-two choice
    over the run, and passes every other row through; the choice prefers
    the strictly longer trimmed content_text and, on equal length, the
    higher message_order; of two consecutive assistant rows with contents
    the empty string and "Result: done" the second one is kept. *)
Theorem dedup_collapses_runs :
  (forall l, _group_and_deduplicate_messages l = collapse_runs l)
  /\ (forall pre m run post,
        forallb is_assistant (m :: run) = true ->
        ends_other pre = true -> starts_other post = true ->
        _group_and_deduplicate_messages (pre ++ (m :: run) ++ post)
        = (_group_and_deduplicate_messages pre
           ++ fold_left _choose_better_assistant_message run m
              :: _group_and_deduplicate_messages post)%list)
  /\ (forall pre m post,
        is_assistant m = false ->
        _group_and_deduplicate_messages (pre ++ m :: post)
        = (_group_and_deduplicate_messages pre
           ++ m :: _group_and_deduplicate_messages post)%list)
  /\ (forall m1 m2,
        (trimmed_length m1 < trimmed_length m2)%nat ->
        _choose_better_assistant_message m1 m2 = m2)
  /\ (forall m1 m2,
        (trimmed_length m2 < trimmed_length m1)%nat ->
        _choose_better_assistant_message m1 m2 = m1)
  /\ (forall m1 m2,
        trimmed_length m1 = trimmed_length m2 ->
        (message_order m1 < message_order m2)%Z ->
        _choose_better_assistant_message m1 m2 = m2)
  /\ (forall m1 m2,
        trimmed_length m1 = trimmed_length m2 ->
        (message_order m2 <= message_order m1)%Z ->
        _choose_better_assistant_message m1 m2 = m1)
  /\ (forall i1 i2 o1 o2 t1 t2 p1 p2 d1 d2,
        _group_and_deduplicate_messages
          [ mk_raw i1 o1 "assistant" "" t1 p1 d1;
            mk_raw i2 o2 "assistant" "Result: done" t2 p2 d2 ]
        = [ mk_raw i2 o2 "assistant" "Result: done" t2 p2 d2 ]).
Proof.
  split; [exact group_and_deduplicate_collapses|].
  split; [intros; apply dedup_collapses_maximal_run; assumption|].
  split; [intros; apply dedup_passes_other; assumption|].
  unfold trimmed_length, _choose_better_assistant_message.
  split; [|split; [|split; [|split]]]; intros.
  - apply Nat.ltb_lt in H. rewrite H. reflexivity.
  - pose proof H as H'. apply Nat.ltb_lt in H. rewrite H.
    assert (E : (length (strip (content_text m1))
                 <? length (strip (content_text m2)))%nat = false)
      by (apply Nat.ltb_ge; lia).
    rewrite E. reflexivity.
  - rewrite H, Nat.ltb_irrefl. apply Z.ltb_lt in H0. rewrite H0. reflexivity.
  - rewrite H, Nat.ltb_irrefl.
    assert (E : (message_order m1 <? message_order m2)%Z = false)
      by (apply Z.ltb_ge; exact H0).
    rewrite E. reflexivity.
  - rewrite dedup_assistant by reflexivity. reflexivity.
Qed.

Lemma dedup_collapses_runs_witness :
  let user := mk_raw 1 0 "user" "Analyze this." "text" "openai" (JDict []) in
  let a1 := mk_raw 2 1 "assistant" "" "tool_call" "openai" (JDict []) in
  let a2 := mk_raw 3 2 "assistant" "Result: done" "text" "openai" (JDict []) in
  let a3 := mk_raw 4 3 "assistant" "Result: okay" "text" "openai" (JDict []) in
  let tool := mk_raw 5 4 "tool" "4096" "tool_result" "openai" (JDict []) in
  _group_and_deduplicate_messages [user; a1; a2; a3; tool] = [user; a3; tool]
  /\ _choose_better_assistant_message a1 a2 = a2
  /\ _choose_better_assistant_message a2 a1 = a2
  /\ _choose_better_assistant_message a2 a3 = a3
  /\ _choose_better_assistant_message a3 a2 = a3.
Proof.
  intros user a1 a2 a3 tool.
  destruct dedup_collapses_runs as [_ [R [_ [L1 [L2 [T1 [T2 _]]]]]]].
  split.
  - apply (R [user] a1 [a2; a3] [tool]); reflexivity.
  - split; [apply L1; vm_compute; lia|].
    split; [apply L2; vm_compute; lia|].
    split; [apply T1; [reflexivity|vm_compute; reflexivity]|].
    apply T2; [reflexivity|vm_compute; discriminate].
Defined.

(** ** Rendering of tool calls *)




(** ** Formatting one message never raises *)



(** ** Cleaning a user message *)

Lemma hint_inside_paragraph (pre rest : string) :
  contains tool_hint (pre ++ tool_hint_paragraph ++ rest) = true.
Proof.
  replace (pre ++ tool_hint_paragraph ++ rest)
    with ((pre ++ nl ++ nl) ++ tool_hint ++ rest).
  - apply contains_app.
  - unfold tool_hint_paragraph. rewrite !append_assoc. reflexivity.
Qed.

(** C9, as the code has it.  A content with the tool-enumeration marker is
    cut to the trimmed text before its first occurrence; otherwise a content
    with the retrieval-context marker is cut in the same way; otherwise the
    sentence "Use the available tool calls as needed." is removed together
    with the blank line in front of it, the text on both sides being kept,
    and a content in which the sentence does not follow a blank line is
    only trimmed.  The content "Analyze this.\n\nAvailable MCP
    Tools\n...more..." cleans to "Analyze this.". *)
Theorem clean_user_message_for_display :
  (forall c, contains mcp_marker c = true ->
      _clean_user_message_for_display c = strip (before mcp_marker c))
  /\ (forall c, contains mcp_marker c = false -> contains rag_marker c = true ->
      _clean_user_message_for_display c = strip (before rag_marker c))
  /\ (forall pre rest,
      contains mcp_marker (pre ++ tool_hint_paragraph ++ rest) = false ->
      contains rag_marker (pre ++ tool_hint_paragraph ++ rest) = false ->
      before tool_hint_paragraph (pre ++ tool_hint_paragraph ++ rest) = pre ->
      contains tool_hint_paragraph rest = false ->
      _clean_user_message_for_display (pre ++ tool_hint_paragraph ++ rest)
      = strip (pre ++ rest))
  /\ (forall c, contains mcp_marker c = false -> contains rag_marker c = false ->
      contains tool_hint_paragraph c = false ->
      _clean_user_message_for_display c = strip c)
  /\ _clean_user_message_for_display
       ("Analyze this." ++ nl ++ nl ++ "Available MCP Tools" ++ nl ++ "...more...")
     = "Analyze this.".
Proof.
  split; [|split; [|split; [|split]]].
  - intros c H. unfold _clean_user_message_for_display.
    fold mcp_marker. rewrite H, split_hd. reflexivity.
  - intros c H1 H2. unfold _clean_user_message_for_display.
    fold mcp_marker rag_marker. rewrite H1, H2, split_hd. reflexivity.
  - intros pre rest H1 H2 Hb Hr. unfold _clean_user_message_for_display.
    fold mcp_marker rag_marker tool_hint. rewrite H1, H2.
    rewrite hint_inside_paragraph.
    change (nl ++ nl ++ tool_hint) with tool_hint_paragraph.
    rewrite (replace_first tool_hint_paragraph "" rest); [|discriminate|exact Hb].
    rewrite (replace_absent rest _ "" Hr). reflexivity.
  - intros c H1 H2 H3. unfold _clean_user_message_for_display.
    fold mcp_marker rag_marker tool_hint. rewrite H1, H2.
    change (nl ++ nl ++ tool_hint) with tool_hint_paragraph.
    rewrite (replace_absent c _ "" H3).
    destruct (contains tool_hint c); reflexivity.
  - reflexivity.
Qed.

Lemma clean_user_message_for_display_witness :
  _clean_user_message_for_display
    ("Rename it. " ++ mcp_marker ++ ": get_disassembly") = "Rename it."
  /\ _clean_user_message_for_display
       ("Explain main." ++ nl ++ rag_marker ++ nl ++ "doc 1") = "Explain main."
  /\ _clean_user_message_for_display
       ("Explain main." ++ tool_hint_paragraph ++ " Thanks.")
     = "Explain main. Thanks."
  /\ _clean_user_message_for_display ("Explain main. " ++ tool_hint)
     = "Explain main. " ++ tool_hint.
Proof.
  destruct clean_user_message_for_display as [M [R [P [K _]]]].
  split; [|split; [|split]].
  - apply (M ("Rename it. " ++ mcp_marker ++ ": get_disassembly")). reflexivity.
  - apply (R ("Explain main." ++ nl ++ rag_marker ++ nl ++ "doc 1")); reflexivity.
  - apply (P "Explain main." " Thanks."); reflexivity.
  - apply (K ("Explain main. " ++ tool_hint)); reflexivity.
Defined.

(** C9, as the claim has it: the sentence stays in the text when no blank
    line precedes it. *)
Lemma tool_hint_without_blank_line_is_kept :
  _clean_user_message_for_display "Hi. Use the available tool calls as needed."
  = "Hi. Use the available tool calls as needed."
  /\ contains "Use the available tool calls as needed."
       (_clean_user_message_for_display
          "Hi. Use the available tool calls as needed.") = true.
Proof. split; reflexivity. Qed.

(** ** The tool indicator in front of an assistant content *)

Lemma rstrip_cons_other (c : ascii) (s : string) :
  isspace c = false -> rstrip (String c s) = String c (rstrip s).
Proof. intros H. simpl. rewrite H. destruct (rstrip s); reflexivity. Qed.

Lemma rstrip_cons_kept (c : ascii) (s : string) :
  rstrip s <> "" -> rstrip (String c s) = String c (rstrip s).
Proof.
  intros H. simpl. destruct (rstrip s); [contradiction|reflexivity].
Qed.

Lemma rstrip_append (a b : string) :
  rstrip b <> "" -> rstrip (a ++ b) = a ++ rstrip b.
Proof.
  intros H. induction a as [|x a IH]; [reflexivity|].
  change (String x a ++ b) with (String x (a ++ b)).
  rewrite rstrip_cons_kept; rewrite IH.
  - reflexivity.
  - destruct a; [exact H|discriminate].
Qed.

Lemma rstrip_idempotent (s : string) : rstrip (rstrip s) = rstrip s.
Proof.
  induction s as [|c s IH]; [reflexivity|].
  destruct (rstrip s) as [|y r] eqn:E.
  - simpl. rewrite E. destruct (isspace c) eqn:W; [reflexivity|].
    simpl. rewrite W. reflexivity.
  - assert (K : rstrip (String c s) = String c (String y r))
      by (simpl; rewrite E; reflexivity).
    rewrite K. rewrite rstrip_cons_kept; rewrite IH; [reflexivity|discriminate].
Qed.

Lemma lstrip_rstrip (s : string) : lstrip (rstrip s) = rstrip (lstrip s).
Proof.
  induction s as [|c s IH]; [reflexivity|].
  destruct (isspace c) eqn:W.
  - change (lstrip (String c s)) with (if isspace c then lstrip s else String c s).
    rewrite W, <- IH. simpl rstrip. rewrite W.
    destruct (rstrip s) as [|y r]; [reflexivity|].
    change (lstrip (String c (String y r)))
      with (if isspace c then lstrip (String y r) else String c (String y r)).
    rewrite W. reflexivity.
  - change (lstrip (String c s)) with (if isspace c then lstrip s else String c s).
    rewrite W, (rstrip_cons_other c s W).
    change (lstrip (String c (rstrip s)))
      with (if isspace c then lstrip (rstrip s) else String c (rstrip s)).
    rewrite W. reflexivity.
Qed.

Lemma strip_rstrip (s : string) : strip (rstrip s) = strip s.
Proof. unfold strip. rewrite lstrip_rstrip, rstrip_idempotent. reflexivity. Qed.

Lemma lstrip_head (s : string) :
  match lstrip s with
  | EmptyString => True
  | String c _ => isspace c = false
  end.
Proof.
  induction s as [|c s IH]; [exact I|]. simpl.
  destruct (isspace c) eqn:W; [exact IH|exact W].
Qed.

Lemma rstrip_head (s : string) (c : ascii) (r : string) :
  rstrip s = String c r -> exists r', s = String c r'.
Proof.
  destruct s as [|x s]; [discriminate|]. simpl.
  destruct (rstrip s); [destruct (isspace x)|]; intros [= <- _]; eauto.
Qed.

Lemma strip_head (s : string) :
  match strip s with
  | EmptyString => True
  | String c _ => isspace c = false
  end.
Proof.
  unfold strip. pose proof (lstrip_head s) as H.
  destruct (rstrip (lstrip s)) as [|c r] eqn:E; [exact I|].
  apply rstrip_head in E. destruct E as [r' E]. rewrite E in H. exact H.
Qed.

Lemma drop_newlines_strip (s : string) : drop_newlines (strip s) = strip s.
Proof.
  pose proof (strip_head s) as H. destruct (strip s) as [|c r]; [reflexivity|].
  simpl. destruct (c =? ascii_of_nat 10)%char eqn:E; [|reflexivity].
  apply Ascii.eqb_eq in E. subst. discriminate.
Qed.

Lemma find_from_before (sep s : string) (i : Z) :
  contains sep s = true ->
  find_from sep s i = (i + Z.of_nat (length (before sep s)))%Z.
Proof.
  revert i. induction s as [|c s IH]; intros i H.
  - simpl in H. rewrite orb_false_r in H. simpl. rewrite H. simpl. lia.
  - rewrite contains_cons in H. rewrite before_cons.
    change (find_from sep (String c s) i)
      with (if prefix sep (String c s) then i else find_from sep s (i + 1)%Z).
    destruct (prefix sep (String c s)); [simpl; lia|].
    simpl in H. rewrite (IH _ H). simpl length. lia.
Qed.

Lemma prefix_char (a b : ascii) (s s' : string) :
  prefix (String a "") (String b s) = prefix (String a "") (String b s').
Proof.
  change (match ascii_dec a b with left _ => prefix "" s | right _ => false end
          = match ascii_dec a b with left _ => prefix "" s' | right _ => false end).
  destruct (ascii_dec a b); [rewrite !prefix_empty|]; reflexivity.
Qed.

Lemma contains_char_app (ch : ascii) (a b : string) :
  contains (String ch "") (a ++ b)
  = contains (String ch "") a || contains (String ch "") b.
Proof.
  induction a as [|x a IH]; [reflexivity|].
  change (String x a ++ b) with (String x (a ++ b)).
  rewrite !contains_cons, IH, (prefix_char ch x (a ++ b) a).
  apply orb_assoc.
Qed.

Lemma before_char_app (ch : ascii) (pre s : string) :
  contains (String ch "") pre = false ->
  before (String ch "") (pre ++ s) = pre ++ before (String ch "") s.
Proof.
  induction pre as [|x pre IH]; intros H; [reflexivity|].
  rewrite contains_cons in H. apply orb_false_iff in H. destruct H as [P H].
  change (String x pre ++ s) with (String x (pre ++ s)).
  rewrite before_cons, (prefix_char ch x _ pre), P, (IH H). reflexivity.
Qed.

(** The text before the first closing bracket, when [m] has none. *)
Lemma before_bracket (m rest : string) :
  contains "]" m = false ->
  before "]" (("[Tools:" ++ m) ++ "]" ++ rest) = "[Tools:" ++ m.
Proof.
  intros H. rewrite before_char_app.
  - change ("]" ++ rest) with (String "]" rest). rewrite before_cons.
    replace (prefix "]" (String "]" rest)) with true
      by (symmetry; apply (prefix_app "]" rest)).
    apply append_nil_r.
  - rewrite contains_char_app, H. reflexivity.
Qed.

(** A leading [[Tools: ...]] indicator is cut off, through its bracket. *)
Lemma clean_tool_indicator_marker (m rest : string) :
  contains "]" m = false ->
  clean_tool_indicator ("[Tools:" ++ m ++ "]" ++ rest) = strip rest.
Proof.
  intros H. unfold clean_tool_indicator.
  set (c := "[Tools:" ++ m ++ "]" ++ rest).
  assert (S : strip c = "[Tools:" ++ m ++ "]" ++ rstrip rest).
  { unfold strip, c. simpl lstrip.
    replace ("[Tools:" ++ m ++ "]" ++ rest) with (("[Tools:" ++ m) ++ "]" ++ rest)
      by (rewrite append_assoc; reflexivity).
    assert (R : rstrip ("]" ++ rest) = "]" ++ rstrip rest)
      by (apply rstrip_cons_other; reflexivity).
    change (String "[" (String "T" (String "o" (String "o" (String "l"
             (String "s" (String ":" (m ++ String "]" rest))))))))
      with (("[Tools:" ++ m) ++ "]" ++ rest).
    rewrite rstrip_append; rewrite R; [|discriminate].
    rewrite append_assoc. reflexivity. }
  change (negb (c =? "")) with true. cbv iota. rewrite S.
  unfold startswith. rewrite prefix_app.
  replace ("[Tools:" ++ m ++ "]" ++ rstrip rest)
    with (("[Tools:" ++ m) ++ "]" ++ rstrip rest)
    by (rewrite append_assoc; reflexivity).
  rewrite contains_app. cbv iota. simpl andb. cbv iota.
  unfold find. rewrite find_from_before by apply contains_app.
  rewrite before_bracket by exact H.
  assert (N : (0 + Z.of_nat (length ("[Tools:" ++ m)) =? -1)%Z = false)
    by (apply Z.eqb_neq; lia).
  rewrite N. cbv iota. simpl negb. cbv iota.
  unfold slice_from.
  assert (L : (0 + Z.of_nat (length ("[Tools:" ++ m)) + 1 <? 0)%Z = false)
    by (apply Z.ltb_ge; lia).
  rewrite L.
  replace (Z.to_nat (0 + Z.of_nat (length ("[Tools:" ++ m)) + 1))
    with (length (("[Tools:" ++ m) ++ "]")) by (rewrite length_append; simpl; lia).
  replace (("[Tools:" ++ m) ++ "]" ++ rstrip rest)
    with ((("[Tools:" ++ m) ++ "]") ++ rstrip rest)
    by (rewrite !append_assoc; reflexivity).
  rewrite drop_append, strip_rstrip. apply drop_newlines_strip.
Qed.

(** A content that, once trimmed, does not start with the indicator is only
    trimmed. *)
Lemma clean_tool_indicator_plain (s : string) :
  startswith (strip s) "[Tools:" = false -> clean_tool_indicator s = strip s.
Proof.
  intros H. unfold clean_tool_indicator.
  destruct (s =? "") eqn:E.
  - apply String.eqb_eq in E. subst. reflexivity.
  - simpl. rewrite H. reflexivity.
Qed.

(** C3, as the code has it.  Before an assistant content is rendered, a
    leading indicator that starts with [[Tools:] is cut off through its
    closing bracket, so a content made of such an indicator and a text
    renders as the text alone does; grouping a grouped transcript changes
    nothing, and the synthesizer gives the same transcript on the grouped
    rows as on the rows. *)
Theorem tool_indicator_stripped_before_rendering :
  (forall m rest native_data provider_type,
      contains "]" m = false ->
      startswith (strip rest) "[Tools:" = false ->
      _format_assistant_message_for_display ("[Tools:" ++ m ++ "]" ++ rest)
                                            native_data provider_type
      = _format_assistant_message_for_display rest native_data provider_type)
  /\ (forall l,
      _group_and_deduplicate_messages (_group_and_deduplicate_messages l)
      = _group_and_deduplicate_messages l)
  /\ (forall l, synthesize (_group_and_deduplicate_messages l) = synthesize l).
Proof.
  split; [|split].
  - intros m rest nd p Hm Hr. unfold _format_assistant_message_for_display.
    rewrite (clean_tool_indicator_marker m rest Hm).
    rewrite (clean_tool_indicator_plain rest Hr). reflexivity.
  - exact dedup_idempotent.
  - intros l. unfold synthesize. rewrite dedup_idempotent. reflexivity.
Qed.

Lemma tool_indicator_stripped_before_rendering_witness :
  _format_assistant_message_for_display
    "[Tools: get_disassembly] The function parses a header."
    get_disassembly_payload "openai"
  = _format_assistant_message_for_display
      " The function parses a header." get_disassembly_payload "openai"
  /\ _format_assistant_message_for_display
       " The function parses a header." get_disassembly_payload "openai"
     = Ok ("[Tool: get_disassembly(addr=4096)]" ++ nl ++ nl
           ++ "The function parses a header.").
Proof.
  split; [|reflexivity].
  destruct tool_indicator_stripped_before_rendering as [H _].
  apply (H " get_disassembly" " The function parses a header.");
    reflexivity.
Defined.

(** C3, as the claim has it: the text the renderer gives for a row with a
    tool call, put back as the content of that row, is rendered with the
    tool line in front of it once more, in the single-call form as in the
    numbered form. *)
Lemma rendered_tool_call_is_prefixed_again :
  _format_assistant_message_for_display "" get_disassembly_payload "openai"
    = Ok "[Tool: get_disassembly(addr=4096)]"
  /\ _format_assistant_message_for_display "[Tool: get_disassembly(addr=4096)]"
       get_disassembly_payload "openai"
     = Ok ("[Tool: get_disassembly(addr=4096)]" ++ nl ++ nl
           ++ "[Tool: get_disassembly(addr=4096)]")
  /\ (exists once twice,
        _format_assistant_message_for_display "" two_calls_payload "anthropic"
          = Ok once
        /\ _format_assistant_message_for_display once two_calls_payload "anthropic"
          = Ok twice
        /\ once = "[Tools called:]" ++ nl ++ "  1. list_functions" ++ nl
                  ++ "  2. rename(to=" ++ quoted "main" ++ ")"
        /\ twice = once ++ nl ++ nl ++ once
        /\ twice <> once).
Proof.
  split; [reflexivity|]. split; [reflexivity|].
  eexists. eexists. split; [reflexivity|]. split; [reflexivity|].
  split; [reflexivity|]. split; [reflexivity|]. discriminate.
Qed.

(** ** JSON: what is printed is read back *)

Lemma scan_escape_char (c : ascii) (rest : string) :
  scan_string SNormal (escape_char c ++ rest)
  = cons_char c (scan_string SNormal rest).
Proof.
  char_cases c; reflexivity.
Qed.

Lemma scan_escape (s rest : string) :
  scan_string SNormal (escape s ++ String dquote rest) = Some (s, rest).
Proof.
  induction s as [|c s IH]; [reflexivity|].
  change (escape (String c s)) with (escape_char c ++ escape s).
  rewrite append_assoc, scan_escape_char, IH. reflexivity.
Qed.

Lemma ends_value_no_digit (rest : string) :
  ends_value rest = true -> span_digits rest = ("", rest).
Proof.
  destruct rest as [|c r]; [reflexivity|].
  char_cases c; reflexivity.
Qed.

Lemma ends_value_no_fraction (rest : string) :
  ends_value rest = true ->
  prefix "." rest || prefix "e" rest || prefix "E" rest = false.
Proof.
  destruct rest as [|c r]; [reflexivity|].
  char_cases c; reflexivity.
Qed.

Lemma span_digits_uint (u : Decimal.uint) (rest : string) :
  ends_value rest = true ->
  span_digits (NilEmpty.string_of_uint u ++ rest)
  = (NilEmpty.string_of_uint u, rest).
Proof.
  intros H. induction u; simpl; rewrite ?IHu; try reflexivity.
  apply ends_value_no_digit. exact H.
Qed.

Lemma to_uint_no_leading_zero (p : positive) (d : Decimal.uint) :
  Pos.to_uint p <> Decimal.D0 d.
Proof.
  intros E.
  pose proof (DecimalPos.Unsigned.to_of (Pos.to_uint p)) as H.
  rewrite DecimalPos.Unsigned.of_to in H. simpl N.to_uint in H.
  rewrite E in H. unfold Decimal.unorm in H.
  destruct (Decimal.nzhead (Decimal.D0 d)) eqn:Z;
    try (exfalso; exact (DecimalFacts.nzhead_nonzero _ _ Z)); try discriminate.
  injection H as ->. apply (DecimalPos.Unsigned.to_uint_nonzero p). exact E.
Qed.

(** The digits of a number without a leading zero are read back as that
    number, with and without a minus sign in front. *)
Lemma parse_number_uint (u : Decimal.uint) (rest : string) :
  u <> Decimal.Nil -> (forall d, u <> Decimal.D0 d) -> ends_value rest = true ->
  parse_number (NilEmpty.string_of_uint u ++ rest)
    = Some (JInt (Z.of_uint u), rest)
  /\ parse_number (String "-" (NilEmpty.string_of_uint u ++ rest))
    = Some (JInt (- Z.of_uint u), rest).
Proof.
  intros Hn Hz He.
  pose proof (ends_value_no_fraction rest He) as Hf.
  destruct u; try contradiction; try (exfalso; eapply Hz; reflexivity);
    unfold parse_number; simpl;
    rewrite (span_digits_uint _ rest He); simpl; rewrite Hf, NilEmpty.usu;
    split; reflexivity.
Qed.

Lemma parse_number_str_int (z : Z) (rest : string) :
  ends_value rest = true ->
  parse_number (str_int z ++ rest) = Some (JInt z, rest).
Proof.
  intros He. unfold str_int. destruct z as [|p|p].
  - pose proof (ends_value_no_fraction rest He) as Hf.
    unfold parse_number. simpl.
    rewrite (ends_value_no_digit rest He), Hf. reflexivity.
  - simpl Z.to_int. unfold NilZero.string_of_int, NilZero.string_of_uint.
    pose proof (DecimalPos.Unsigned.to_uint_nonnil p) as Hn.
    pose proof (to_uint_no_leading_zero p) as Hz.
    destruct (parse_number_uint (Pos.to_uint p) rest Hn Hz He) as [H _].
    replace (Z.pos p) with (Z.of_uint (Pos.to_uint p))
      by (unfold Z.of_uint; rewrite DecimalPos.Unsigned.of_to; reflexivity).
    destruct (Pos.to_uint p); try contradiction; exact H.
  - simpl Z.to_int. unfold NilZero.string_of_int, NilZero.string_of_uint.
    pose proof (DecimalPos.Unsigned.to_uint_nonnil p) as Hn.
    pose proof (to_uint_no_leading_zero p) as Hz.
    destruct (parse_number_uint (Pos.to_uint p) rest Hn Hz He) as [_ H].
    replace (Z.neg p) with (- Z.of_uint (Pos.to_uint p))%Z
      by (unfold Z.of_uint; rewrite DecimalPos.Unsigned.of_to; reflexivity).
    destruct (Pos.to_uint p); try contradiction; exact H.
Qed.

(** A number starts with a digit or a minus sign, and the parser then
    reads a number. *)
Lemma parse_value_number (f : nat) (c : ascii) (s : string) :
  is_digit c || (c =? "-")%char = true ->
  parse_value (S f) (String c s) = parse_number (String c s).
Proof.
  char_cases c; reflexivity.
Qed.

Lemma str_int_head (z : Z) :
  exists c s, str_int z = String c s /\ is_digit c || (c =? "-")%char = true.
Proof.
  unfold str_int. destruct z as [|p|p].
  - exists "0"%char, "". split; reflexivity.
  - simpl. unfold NilZero.string_of_uint.
    pose proof (DecimalPos.Unsigned.to_uint_nonnil p) as Hn.
    destruct (Pos.to_uint p); try contradiction; simpl; eexists; eexists;
      split; reflexivity.
  - simpl. eexists; eexists; split; reflexivity.
Qed.

Lemma parse_value_int (f : nat) (z : Z) (rest : string) :
  ends_value rest = true ->
  parse_value (S f) (str_int z ++ rest) = Some (JInt z, rest).
Proof.
  intros He. destruct (str_int_head z) as [c [s [E H]]].
  rewrite <- (parse_number_str_int z rest He). rewrite E.
  apply parse_value_number. exact H.
Qed.

Lemma parse_value_str (f : nat) (s rest : string) :
  parse_value (S f) (dumps_str s ++ rest) = Some (JStr s, rest).
Proof.
  unfold dumps_str.
  change (String dquote (escape s ++ String dquote "") ++ rest)
    with (String dquote ((escape s ++ String dquote "") ++ rest)).
  rewrite append_assoc.
  change (String dquote "" ++ rest) with (String dquote rest).
  change (parse_value (S f) (String dquote (escape s ++ String dquote rest)))
    with (match scan_string SNormal (escape s ++ String dquote rest) with
          | Some (x, r') => Some (JStr x, r')
          | None => None
          end).
  rewrite scan_escape. reflexivity.
Qed.

Lemma starts_value_dumps (v : json) (rest : string) :
  starts_value (dumps v ++ rest) = true.
Proof.
  destruct v as [|[]|z|s|l|d]; try reflexivity.
  destruct (str_int_head z) as [c [s [E H]]]. simpl dumps. rewrite E.
  char_cases c; reflexivity.
Qed.

Lemma skip_ws_starts_value (s : string) :
  starts_value s = true -> skip_ws s = s.
Proof.
  destruct s as [|c s]; [reflexivity|]. simpl. intros H.
  apply andb_true_iff in H. destruct H as [H _].
  apply andb_true_iff in H. destruct H as [H _].
  apply negb_true_iff in H. rewrite H. reflexivity.
Qed.

Lemma starts_value_not_closing (s : string) :
  starts_value s = true -> prefix "]" s = false /\ prefix "}" s = false.
Proof.
  destruct s as [|c s]; [discriminate|].
  char_cases c; split; reflexivity.
Qed.

Lemma starts_value_join (l : list json) (x : json) (rest : string) :
  starts_value (join ", " (map dumps (x :: l)) ++ rest) = true.
Proof.
  destruct l as [|y l]; [apply starts_value_dumps|].
  change (join ", " (map dumps (x :: y :: l)))
    with (dumps x ++ ", " ++ join ", " (map dumps (y :: l))).
  rewrite append_assoc. apply starts_value_dumps.
Qed.

(** Pairs with distinct keys make the dictionary that lists them. *)
Lemma dict_set_fresh (k : string) (v : json) (d : list (string * json)) :
  existsb (String.eqb k) (map fst d) = false ->
  dict_set k v d = (d ++ [(k, v)])%list.
Proof.
  induction d as [|[k' v'] d IH]; intros H; [reflexivity|].
  simpl in H. apply orb_false_iff in H. destruct H as [H1 H2].
  simpl. rewrite String.eqb_sym, H1, (IH H2). reflexivity.
Qed.

Lemma dict_of_pairs_unique (d : list (string * json)) :
  unique_keys (map fst d) = true -> dict_of_pairs d = d.
Proof.
  unfold dict_of_pairs.
  assert (G : forall ps acc,
             unique_keys (map fst (acc ++ ps)) = true ->
             fold_left (fun d kv => dict_set (fst kv) (snd kv) d) ps acc
             = (acc ++ ps)%list).
  { induction ps as [|[k v] ps IH]; intros acc H.
    - rewrite app_nil_r. reflexivity.
    - simpl. rewrite dict_set_fresh.
      + rewrite IH; rewrite <- app_assoc; [reflexivity|exact H].
      + clear IH. induction acc as [|[k' v'] acc IHa]; [reflexivity|].
        simpl in H. apply andb_true_iff in H. destruct H as [H1 H2].
        simpl. rewrite (IHa H2), orb_false_r.
        apply negb_true_iff in H1. rewrite map_app, existsb_app in H1.
        apply orb_false_iff in H1. destruct H1 as [_ H1]. simpl in H1.
        apply orb_false_iff in H1. destruct H1 as [H1 _].
        rewrite String.eqb_sym. exact H1. }
  intros H. apply (G d []). exact H.
Qed.

(** Induction on documents, with the hypothesis for every element of a
    list and for every value of a dictionary. *)
Lemma json_induction (P : json -> Prop) :
  P JNull -> (forall b, P (JBool b)) -> (forall n, P (JInt n)) ->
  (forall s, P (JStr s)) ->
  (forall l, Forall P l -> P (JList l)) ->
  (forall d, Forall (fun kv => P (snd kv)) d -> P (JDict d)) ->
  forall v, P v.
Proof.
  intros HN HB HI HS HL HD. fix IH 1. intros [|b|n|s|l|d].
  - exact HN.
  - apply HB.
  - apply HI.
  - apply HS.
  - apply HL. induction l as [|x l IHl]; constructor; [apply IH|exact IHl].
  - apply HD. induction d as [|[k x] d IHd]; constructor; [apply IH|exact IHd].
Qed.

Lemma parse_value_S (f : nat) (c : ascii) (r : string) :
  parse_value (S f) (String c r)
  = if (c =? dquote)%char then
      match scan_string SNormal r with
      | Some (x, r') => Some (JStr x, r')
      | None => None
      end
    else if (c =? "{")%char then
      if prefix "}" (skip_ws r) then Some (JDict [], drop 1 (skip_ws r))
      else
        match parse_members f (skip_ws r) with
        | Some (ps, r') => Some (JDict (dict_of_pairs ps), r')
        | None => None
        end
    else if (c =? "[")%char then
      if prefix "]" (skip_ws r) then Some (JList [], drop 1 (skip_ws r))
      else
        match parse_elements f (skip_ws r) with
        | Some (vs, r') => Some (JList vs, r')
        | None => None
        end
    else if prefix "null" (String c r) then Some (JNull, drop 4 (String c r))
    else if prefix "true" (String c r) then Some (JBool true, drop 4 (String c r))
    else if prefix "false" (String c r) then Some (JBool false, drop 5 (String c r))
    else parse_number (String c r).
Proof. reflexivity. Qed.

Lemma parse_elements_S (f : nat) (s : string) :
  parse_elements (S f) s
  = match parse_value f s with
    | Some (v, r) =>
        if prefix "," (skip_ws r) then
          match parse_elements f (skip_ws (drop 1 (skip_ws r))) with
          | Some (vs, r'') => Some (v :: vs, r'')
          | None => None
          end
        else if prefix "]" (skip_ws r) then Some ([v], drop 1 (skip_ws r))
        else None
    | None => None
    end.
Proof. reflexivity. Qed.

Lemma parse_members_S (f : nat) (r : string) :
  parse_members (S f) (String dquote r)
  = match scan_string SNormal r with
    | Some (k, r1) =>
        if prefix ":" (skip_ws r1) then
          match parse_value f (skip_ws (drop 1 (skip_ws r1))) with
          | Some (v, r3) =>
              if prefix "," (skip_ws r3) then
                match parse_members f (skip_ws (drop 1 (skip_ws r3))) with
                | Some (ps, r5) => Some ((k, v) :: ps, r5)
                | None => None
                end
              else if prefix "}" (skip_ws r3)
              then Some ([(k, v)], drop 1 (skip_ws r3))
              else None
          | None => None
          end
        else None
    | None => None
    end.
Proof. reflexivity. Qed.

(** After a comma and a space the parser stands at the next value. *)
Lemma after_comma (s : string) :
  starts_value s = true ->
  prefix "," (skip_ws (String "," (String " " s))) = true
  /\ skip_ws (drop 1 (skip_ws (String "," (String " " s)))) = s.
Proof.
  intros H. split.
  - apply (prefix_app "," (String " " s)).
  - change (skip_ws s = s). apply skip_ws_starts_value. exact H.
Qed.

Lemma parse_elements_dumps (x : json) (l : list json) :
  Forall reads_back (x :: l) ->
  forall fuel rest,
    (fold_right (fun y n => S (parse_calls y + n)) 0 (x :: l) <= fuel)%nat ->
    parse_elements fuel (join ", " (map dumps (x :: l)) ++ String "]" rest)
    = Some (x :: l, rest).
Proof.
  revert x. induction l as [|y l IH]; intros x HF fuel rest Hfuel.
  - inversion HF as [|? ? Hx _]; subst.
    destruct fuel as [|f]; [simpl in Hfuel; lia|]. simpl in Hfuel.
    rewrite parse_elements_S. simpl join.
    rewrite (Hx f (String "]" rest)); [|lia|reflexivity].
    simpl. rewrite prefix_empty. reflexivity.
  - inversion HF as [|? ? Hx HF']; subst.
    destruct fuel as [|f]; [simpl in Hfuel; lia|].
    change (fold_right (fun y n => S (parse_calls y + n)) 0 (x :: y :: l))
      with (S (parse_calls x
               + fold_right (fun y n => S (parse_calls y + n)) 0 (y :: l)))
      in Hfuel.
    rewrite parse_elements_S.
    change (join ", " (map dumps (x :: y :: l)))
      with (dumps x ++ ", " ++ join ", " (map dumps (y :: l))).
    rewrite !append_assoc.
    change (", " ++ join ", " (map dumps (y :: l)) ++ String "]" rest)
      with (String "," (String " " (join ", " (map dumps (y :: l))
                                    ++ String "]" rest))).
    rewrite (Hx f _); [|lia|reflexivity].
    destruct (after_comma (join ", " (map dumps (y :: l)) ++ String "]" rest))
      as [A B]; [apply starts_value_join|].
    rewrite A, B, (IH y HF' f rest); [reflexivity|lia].
Qed.

(** After a colon and a space the parser stands at the value. *)
Lemma after_colon (s : string) :
  starts_value s = true ->
  prefix ":" (skip_ws (String ":" (String " " s))) = true
  /\ skip_ws (drop 1 (skip_ws (String ":" (String " " s)))) = s.
Proof.
  intros H. split.
  - apply (prefix_app ":" (String " " s)).
  - change (skip_ws s = s). apply skip_ws_starts_value. exact H.
Qed.

(** At a closing bracket or brace the parser stops. *)
Lemma at_closing (c : ascii) (rest : string) :
  c = "]"%char \/ c = "}"%char ->
  prefix "," (skip_ws (String c rest)) = false
  /\ prefix (String c "") (skip_ws (String c rest)) = true
  /\ drop 1 (skip_ws (String c rest)) = rest.
Proof.
  intros [-> | ->]; (split; [reflexivity|split; [|reflexivity]]).
  - apply (prefix_app "]" rest).
  - apply (prefix_app "}" rest).
Qed.

Lemma member_text (k : string) (v : json) (rest : string) :
  member (k, v) ++ rest
  = String dquote (escape k ++ String dquote
                     (String ":" (String " " (dumps v ++ rest)))).
Proof.
  unfold member, dumps_str. simpl fst. simpl snd.
  change (String dquote (escape k ++ String dquote "") ++ ": " ++ dumps v)
    with (String dquote ((escape k ++ String dquote "") ++ ": " ++ dumps v)).
  change (String dquote ((escape k ++ String dquote "") ++ ": " ++ dumps v) ++ rest)
    with (String dquote (((escape k ++ String dquote "") ++ ": " ++ dumps v) ++ rest)).
  rewrite !append_assoc. reflexivity.
Qed.

Lemma members_text (kv kv' : string * json) (d : list (string * json))
    (rest : string) :
  join ", " (map member (kv :: kv' :: d)) ++ rest
  = member kv ++ String "," (String " " (join ", " (map member (kv' :: d)) ++ rest)).
Proof.
  change (join ", " (map member (kv :: kv' :: d)))
    with (member kv ++ ", " ++ join ", " (map member (kv' :: d))).
  rewrite !append_assoc. reflexivity.
Qed.

Lemma starts_value_members (kv : string * json) (d : list (string * json))
    (rest : string) :
  starts_value (join ", " (map member (kv :: d)) ++ rest) = true.
Proof.
  destruct kv as [k v]. destruct d as [|kv' d].
  - change (join ", " (map member [(k, v)])) with (member (k, v)).
    rewrite member_text. reflexivity.
  - rewrite members_text, member_text. reflexivity.
Qed.

Lemma parse_members_dumps (kv : string * json) (d : list (string * json)) :
  Forall (fun kv => reads_back (snd kv)) (kv :: d) ->
  forall fuel rest,
    (fold_right (fun kv n => S (parse_calls (snd kv) + n)) 0 (kv :: d) <= fuel)%nat ->
    parse_members fuel (join ", " (map member (kv :: d)) ++ String "}" rest)
    = Some (kv :: d, rest).
Proof.
  revert kv. induction d as [|kv' d IH]; intros [k v] HF fuel rest Hfuel.
  - inversion HF as [|? ? Hx _]; subst. simpl in Hx.
    destruct fuel as [|f]; [simpl in Hfuel; lia|]. simpl in Hfuel.
    change (join ", " (map member [(k, v)])) with (member (k, v)).
    rewrite member_text, parse_members_S, scan_escape.
    destruct (after_colon (dumps v ++ String "}" rest)) as [A B];
      [apply starts_value_dumps|].
    rewrite A, B, (Hx f (String "}" rest)); [|lia|reflexivity].
    destruct (at_closing "}" rest) as [C [D E]]; [now right|].
    rewrite C, D, E. reflexivity.
  - inversion HF as [|? ? Hx HF']; subst. simpl in Hx.
    destruct fuel as [|f]; [simpl in Hfuel; lia|].
    change (fold_right (fun kv n => S (parse_calls (snd kv) + n)) 0
              ((k, v) :: kv' :: d))
      with (S (parse_calls v
               + fold_right (fun kv n => S (parse_calls (snd kv) + n)) 0 (kv' :: d)))
      in Hfuel.
    rewrite members_text, member_text, parse_members_S, scan_escape.
    destruct (after_colon
                (dumps v ++ String "," (String " "
                   (join ", " (map member (kv' :: d)) ++ String "}" rest))))
      as [A B]; [apply starts_value_dumps|].
    rewrite A, B, (Hx f _); [|lia|reflexivity].
    destruct (after_comma (join ", " (map member (kv' :: d)) ++ String "}" rest))
      as [C D]; [apply starts_value_members|].
    rewrite C, D, (IH kv' HF' f rest); [reflexivity|lia].
Qed.

(** Every well-formed document is read back from its printed form, with
    fuel for the calls its shape needs. *)
Lemma dumps_reads_back (v : json) : well_formed v = true -> reads_back v.
Proof.
  induction v as [|b|n|s|l IHl|d IHd] using json_induction;
    intros Hw fuel rest Hfuel He;
    (destruct fuel as [|f]; [simpl in Hfuel; lia|]).
  - simpl. rewrite prefix_empty. reflexivity.
  - destruct b; simpl; rewrite prefix_empty; reflexivity.
  - apply parse_value_int. exact He.
  - apply parse_value_str.
  - assert (HF : Forall reads_back l).
    { simpl in Hw. rewrite forallb_forall in Hw. rewrite Forall_forall in *.
      intros x Hx. apply IHl; auto. }
    change (dumps (JList l)) with ("[" ++ join ", " (map dumps l) ++ "]").
    change (("[" ++ join ", " (map dumps l) ++ "]") ++ rest)
      with (String "[" ((join ", " (map dumps l) ++ "]") ++ rest)).
    rewrite append_assoc. change ("]" ++ rest) with (String "]" rest).
    rewrite parse_value_S.
    change ("[" =? dquote)%char with false.
    change ("[" =? "{")%char with false.
    change ("[" =? "[")%char with true. cbv iota.
    destruct l as [|x l].
    + destruct (at_closing "]" rest) as [_ [D E]]; [now left|].
      change (join ", " (map dumps []) ++ String "]" rest) with (String "]" rest).
      rewrite D, E. reflexivity.
    + pose proof (starts_value_join l x (String "]" rest)) as Hs.
      rewrite (skip_ws_starts_value _ Hs).
      destruct (starts_value_not_closing _ Hs) as [N _]. rewrite N.
      rewrite (parse_elements_dumps x l HF f rest); [reflexivity|].
      simpl in Hfuel. simpl. lia.
  - assert (HF : Forall (fun kv => reads_back (snd kv)) d).
    { simpl in Hw. apply andb_true_iff in Hw. destruct Hw as [_ Hw].
      rewrite forallb_forall in Hw. rewrite Forall_forall in *.
      intros x Hx. apply IHd; auto. }
    assert (HU : unique_keys (map fst d) = true).
    { simpl in Hw. apply andb_true_iff in Hw. tauto. }
    change (dumps (JDict d)) with ("{" ++ join ", " (map member d) ++ "}").
    change (("{" ++ join ", " (map member d) ++ "}") ++ rest)
      with (String "{" ((join ", " (map member d) ++ "}") ++ rest)).
    rewrite append_assoc. change ("}" ++ rest) with (String "}" rest).
    rewrite parse_value_S.
    change ("{" =? dquote)%char with false.
    change ("{" =? "{")%char with true. cbv iota.
    destruct d as [|kv d].
    + destruct (at_closing "}" rest) as [_ [D E]]; [now right|].
      change (join ", " (map member []) ++ String "}" rest) with (String "}" rest).
      rewrite D, E. reflexivity.
    + pose proof (starts_value_members kv d (String "}" rest)) as Hs.
      rewrite (skip_ws_starts_value _ Hs).
      destruct (starts_value_not_closing _ Hs) as [_ N]. rewrite N.
      rewrite (parse_members_dumps kv d HF f rest).
      * rewrite (dict_of_pairs_unique _ HU). reflexivity.
      * simpl in Hfuel. simpl. lia.
Qed.

Lemma dumps_nonempty (v : json) : (1 <= length (dumps v))%nat.
Proof.
  pose proof (starts_value_dumps v "") as H. rewrite append_nil_r in H.
  destruct (dumps v); [discriminate|simpl; lia].
Qed.

Lemma length_join_cons (x y : string) (l : list string) :
  length (join ", " (x :: y :: l))
  = (length x + 2 + length (join ", " (y :: l)))%nat.
Proof.
  change (join ", " (x :: y :: l)) with (x ++ ", " ++ join ", " (y :: l)).
  rewrite !length_append. simpl. lia.
Qed.

Lemma elements_calls_bound (l : list json) :
  Forall (fun v => (parse_calls v <= 2 * length (dumps v))%nat) l ->
  (fold_right (fun x n => S (parse_calls x + n)) 0 l
   <= 2 * length (join ", " (map dumps l)) + 2)%nat.
Proof.
  induction l as [|x l IH]; intros HF; [simpl; lia|].
  inversion HF as [|? ? Hx HF']; subst. specialize (IH HF').
  destruct l as [|y l].
  - simpl in *. lia.
  - change (map dumps (x :: y :: l)) with (dumps x :: dumps y :: map dumps l).
    rewrite length_join_cons.
    change (dumps y :: map dumps l) with (map dumps (y :: l)).
    change (fold_right (fun x n => S (parse_calls x + n)) 0 (x :: y :: l))
      with (S (parse_calls x
               + fold_right (fun x n => S (parse_calls x + n)) 0 (y :: l))).
    lia.
Qed.

Lemma members_calls_bound (d : list (string * json)) :
  Forall (fun kv => (parse_calls (snd kv) <= 2 * length (dumps (snd kv)))%nat) d ->
  (fold_right (fun kv n => S (parse_calls (snd kv) + n)) 0 d
   <= 2 * length (join ", " (map member d)) + 2)%nat.
Proof.
  induction d as [|x d IH]; intros HF; [simpl; lia|].
  inversion HF as [|? ? Hx HF']; subst. specialize (IH HF').
  assert (M : (length (dumps (snd x)) <= length (member x))%nat).
  { unfold member. rewrite !length_append. lia. }
  destruct d as [|y d].
  - simpl in *. lia.
  - change (map member (x :: y :: d)) with (member x :: member y :: map member d).
    rewrite length_join_cons.
    change (member y :: map member d) with (map member (y :: d)).
    change (fold_right (fun kv n => S (parse_calls (snd kv) + n)) 0 (x :: y :: d))
      with (S (parse_calls (snd x)
               + fold_right (fun kv n => S (parse_calls (snd kv) + n)) 0 (y :: d))).
    lia.
Qed.

(** The fuel [loads] gives the parser covers the calls a printed document
    needs. *)
Lemma parse_calls_bound (v : json) : (parse_calls v <= 2 * length (dumps v))%nat.
Proof.
  induction v as [|b|n|s|l IHl|d IHd] using json_induction.
  - simpl. lia.
  - pose proof (dumps_nonempty (JBool b)). simpl parse_calls. lia.
  - pose proof (dumps_nonempty (JInt n)). simpl parse_calls. lia.
  - pose proof (dumps_nonempty (JStr s)). simpl parse_calls. lia.
  - pose proof (elements_calls_bound l IHl) as B.
    change (dumps (JList l)) with ("[" ++ join ", " (map dumps l) ++ "]").
    rewrite !length_append. simpl parse_calls. simpl length. lia.
  - pose proof (members_calls_bound d IHd) as B.
    change (dumps (JDict d)) with ("{" ++ join ", " (map member d) ++ "}").
    rewrite !length_append. simpl parse_calls. simpl length. lia.
Qed.

(** [json.loads(json.dumps(v))] is [v]. *)
Lemma loads_dumps (v : json) : well_formed v = true -> loads (dumps v) = Some v.
Proof.
  intros Hw. unfold loads.
  pose proof (starts_value_dumps v "") as Hs. rewrite append_nil_r in Hs.
  rewrite (skip_ws_starts_value _ Hs).
  pose proof (dumps_reads_back v Hw (2 * length (dumps v) + 4) "") as R.
  rewrite append_nil_r in R. rewrite R; [reflexivity| |reflexivity].
  pose proof (parse_calls_bound v). lia.
Qed.

(** ** Replay of native messages *)

Lemma insert_by_last {A : Type} (key : A -> Z) (x : A) (l : list A) :
  Forall (fun y => (key y <= key x)%Z) l -> insert_by key x l = (l ++ [x])%list.
Proof.
  induction 1 as [|y l Hy _ IH]; [reflexivity|]. simpl.
  assert (E : (key x <? key y)%Z = false) by (apply Z.ltb_ge; exact Hy).
  rewrite E, IH. reflexivity.
Qed.

Lemma sorted_app_before {A : Type} (key : A -> Z) (acc l : list A) (x : A) :
  StronglySorted (fun a b => (key a <= key b)%Z) (acc ++ x :: l) ->
  Forall (fun y => (key y <= key x)%Z) acc.
Proof.
  induction acc as [|a acc IH]; intros H; [constructor|].
  simpl in H. inversion H as [|? ? Hs Hf]; subst. constructor.
  - rewrite Forall_forall in Hf. apply Hf. apply in_or_app. right. now left.
  - apply IH. exact Hs.
Qed.

(** ORDER BY leaves rows that are already in order as they are. *)
Lemma order_by_sorted {A : Type} (key : A -> Z) (l : list A) :
  StronglySorted (fun a b => (key a <= key b)%Z) l -> order_by key l = l.
Proof.
  unfold order_by.
  assert (G : forall l acc,
             StronglySorted (fun a b => (key a <= key b)%Z) (acc ++ l) ->
             fold_left (fun sorted x => insert_by key x sorted) l acc
             = (acc ++ l)%list).
  { clear l. induction l as [|x l IH]; intros acc H.
    - rewrite List.app_nil_r. reflexivity.
    - simpl. rewrite (insert_by_last key x acc (sorted_app_before key acc l x H)).
      rewrite IH; rewrite <- List.app_assoc; [reflexivity|exact H]. }
  intros H. apply (G l []). exact H.
Qed.

Lemma sorted_filter {A : Type} (R : A -> A -> Prop) (p : A -> bool) (l : list A) :
  StronglySorted R l -> StronglySorted R (filter p l).
Proof.
  induction 1 as [|x l Hs IH Hf]; [constructor|]. simpl.
  destruct (p x); [|exact IH]. constructor; [exact IH|].
  rewrite Forall_forall in *. intros y Hy. apply Hf.
  apply filter_In in Hy. tauto.
Qed.

Lemma sorted_dense {A : Type} (key : A -> Z) (l : list A) (n : nat) :
  map key l = dense n -> StronglySorted (fun a b => (key a <= key b)%Z) l.
Proof.
  unfold dense. generalize 0%nat as a. revert n.
  induction l as [|x l IH]; intros n a H; [constructor|].
  destruct n as [|n]; [discriminate|]. simpl in H. injection H as Hx Hl.
  constructor; [apply (IH n (S a) Hl)|].
  rewrite Forall_forall. intros y Hy.
  assert (Hk : In (key y) (map Z.of_nat (seq (S a) n)))
    by (rewrite <- Hl; apply in_map; exact Hy).
  apply in_map_iff in Hk. destruct Hk as [k [Ek Hk]]. apply in_seq in Hk.
  rewrite Hx, <- Ek. lia.
Qed.

Lemma filter_and {A : Type} (p q : A -> bool) (l : list A) :
  filter (fun x => p x && q x) l = filter q (filter p l).
Proof.
  induction l as [|x l IH]; [reflexivity|]. simpl.
  destruct (p x); simpl; [destruct (q x)|]; rewrite IH; reflexivity.
Qed.

Lemma saved_messages_cons (h c : string) (cl : call) (cs : list call) :
  saved_messages h c (cl :: cs)
  = (saved_messages h c [cl] ++ saved_messages h c cs)%list.
Proof.
  destruct cl; try reflexivity. simpl.
  destruct (same_chat h c binary_hash chat_id); reflexivity.
Qed.

Section NativeRows.

Variable ProviderType : string -> bool.
Variable extract_display_info : json -> string -> outcome (string * string * string).
Variables h c : string.

(** One call that is not a deletion of the chat adds, when it is a save to
    the chat, a row that holds the message, and changes no other row of the
    chat. *)
Lemma exec_native_rows (cl : call) (db db' : DB) (ms : list (string * json)) :
  is_delete h c cl = false ->
  exec ProviderType extract_display_info cl db = Ok db' ->
  Forall2 holds (native_rows db h c) ms ->
  Forall2 holds (native_rows db' h c) (ms ++ saved_messages h c [cl]).
Proof.
  intros Hd He HF.
  destruct cl as [? ? ? ?|?|hh cc ? ? ?|hh cc|hh cc msg pt ? ?|hh cc|? ?|?];
    unfold exec in He;
    try (simpl in He; injection He as <-; simpl; rewrite List.app_nil_r; exact HF).
  - unfold save_chat_message in He.
    rewrite (fresh_order (ch_key hh cc) ch_message_order) in He.
    simpl in He. injection He as <-. simpl. rewrite List.app_nil_r. exact HF.
  - unfold save_native_message in He.
    destruct (ProviderType pt); simpl in He; [|discriminate].
    destruct (extract_display_info msg pt) as [[[r t] ty]|]; simpl in He;
      [|discriminate].
    rewrite (fresh_order (cm_key hh cc) cm_message_order) in He.
    simpl in He. injection He as <-.
    unfold native_rows in *. simpl. rewrite filter_app. simpl.
    unfold cm_key at 2. simpl.
    destruct (same_chat h c hh cc) eqn:S; unfold same_chat in S; rewrite S.
    + apply Forall2_app; [exact HF|]. constructor; [|constructor].
      split; reflexivity.
    + simpl. rewrite !List.app_nil_r. exact HF.
  - simpl in He. injection He as <-. unfold native_rows in *. simpl.
    rewrite List.app_nil_r.
    rewrite filter_filter_implied; [exact HF|].
    intros x Hx. unfold cm_key in *. simpl in Hd. unfold same_chat in Hd.
    apply andb_true_iff in Hx. destruct Hx as [H1 H2].
    apply String.eqb_eq in H1, H2. rewrite H1, H2.
    rewrite (String.eqb_sym h), (String.eqb_sym c), Hd. reflexivity.
Qed.

Lemma run_native_rows (cs : list call) (db db' : DB) (ms : list (string * json)) :
  forallb (fun cl => negb (is_delete h c cl)) cs = true ->
  run ProviderType extract_display_info cs db = Ok db' ->
  Forall2 holds (native_rows db h c) ms ->
  Forall2 holds (native_rows db' h c) (ms ++ saved_messages h c cs).
Proof.
  revert db ms. induction cs as [|cl cs IH]; intros db ms Hd Hr HF.
  - injection Hr as <-. simpl. rewrite List.app_nil_r. exact HF.
  - simpl in Hd. apply andb_true_iff in Hd. destruct Hd as [Hd1 Hd2].
    apply negb_true_iff in Hd1. simpl in Hr.
    destruct (exec ProviderType extract_display_info cl db) as [db1|] eqn:E;
      simpl in Hr; [|discriminate].
    rewrite saved_messages_cons, List.app_assoc.
    apply (IH db1); [exact Hd2|exact Hr|].
    apply (exec_native_rows cl db db1 ms Hd1 E HF).
Qed.

End NativeRows.

(** Rows that hold well-formed payloads are read back as those payloads. *)
Lemma read_rows (rows : list ChatMessageRow) (ms : list (string * json))
    (keep : string -> bool) :
  Forall2 holds rows ms ->
  forallb (fun pm => well_formed (snd pm)) ms = true ->
  map_outcome (fun row => json_loads (cm_native_message_data row))
              (filter (fun r => keep (cm_provider_type r)) rows)
  = Ok (map snd (filter (fun pm => keep (fst pm)) ms)).
Proof.
  induction 1 as [|r pm rows ms [Hp Hdata] _ IH]; intros Hw; [reflexivity|].
  simpl in Hw. apply andb_true_iff in Hw. destruct Hw as [Hw1 Hw2].
  simpl. rewrite Hp. destruct (keep (fst pm)).
  - simpl. unfold json_loads at 1. rewrite Hdata, (loads_dumps _ Hw1).
    simpl. rewrite (IH Hw2). reflexivity.
  - exact (IH Hw2).
Qed.

Lemma read_native_rows (rows : list ChatMessageRow) (ms : list (string * json))
    (keep : string -> bool) :
  Forall2 holds rows ms ->
  forallb (fun pm => well_formed (snd pm)) ms = true ->
  exists msgs,
    map_outcome
      (fun row =>
         native_data <- json_loads (cm_native_message_data row) ;;
         Ok (mk_native (cm_id row) (cm_message_order row)
                       (cm_provider_type row) native_data (cm_role row)
                       (cm_content_text row) (cm_message_type row)
                       (cm_parent_message_id row)
                       (cm_conversation_thread_id row)))
      (filter (fun r => keep (cm_provider_type r)) rows) = Ok msgs
    /\ map nm_native_message_data msgs
       = map snd (filter (fun pm => keep (fst pm)) ms).
Proof.
  induction 1 as [|r pm rows ms [Hp Hdata] _ IH]; intros Hw;
    [exists []; split; reflexivity|].
  simpl in Hw. apply andb_true_iff in Hw. destruct Hw as [Hw1 Hw2].
  destruct (IH Hw2) as [msgs [E M]].
  simpl. rewrite Hp. destruct (keep (fst pm)).
  - simpl. unfold json_loads at 1. rewrite Hdata, (loads_dumps _ Hw1).
    simpl. rewrite E. simpl. eexists. split; [reflexivity|].
    simpl. rewrite M. reflexivity.
  - exists msgs. split; assumption.
Qed.

Lemma run_native_orders (ProviderType : string -> bool)
    (extract_display_info : json -> string -> outcome (string * string * string))
    (h c : string) (cs : list call) (db db' : DB) (n : nat) :
  forallb (fun cl => negb (is_delete h c cl)) cs = true ->
  run ProviderType extract_display_info cs db = Ok db' ->
  native_orders db h c = dense n ->
  exists m, native_orders db' h c = dense m.
Proof.
  revert db n. induction cs as [|cl cs IH]; intros db n Hd Hr Hn.
  - injection Hr as <-. eauto.
  - simpl in Hd. apply andb_true_iff in Hd. destruct Hd as [Hd1 Hd2].
    apply negb_true_iff in Hd1. simpl in Hr.
    destruct (exec ProviderType extract_display_info cl db) as [db1|] eqn:E;
      simpl in Hr; [|discriminate].
    eapply (IH db1 _ Hd2 Hr).
    apply (exec_native_orders ProviderType extract_display_info h c cl db db1 n
             Hd1 E Hn).
Qed.

Lemma filter_all {A : Type} (l : list A) : filter (fun _ => true) l = l.
Proof. induction l as [|x l IH]; [reflexivity|]. simpl. rewrite IH. reflexivity. Qed.

(** C4.  From a store in which the chat has no native row, after any
    sequence of calls that all return and none of which deletes the chat,
    [get_native_messages_for_provider] returns, in the order of the calls,
    exactly the payloads that were passed to [save_native_message] for the
    chat with that provider type, and [get_native_messages] returns rows
    that carry them, with and without a provider filter; this for every
    normalizer, whatever content_text and message_type it derives.  The
    payloads are documents no dictionary of which has a key twice. *)
Theorem native_payload_round_trip (ProviderType : string -> bool)
    (extract_display_info : json -> string -> outcome (string * string * string))
    (h c p : string) (cs : list call) (db db' : DB) :
  native_rows db h c = [] ->
  forallb (fun cl => negb (is_delete h c cl)) cs = true ->
  run ProviderType extract_display_info cs db = Ok db' ->
  forallb (fun pm => well_formed (snd pm)) (saved_messages h c cs) = true ->
  get_native_messages_for_provider db' h c p = Ok (saved_payloads h c p cs)
  /\ (exists msgs,
        get_native_messages db' h c None = Ok msgs
        /\ map nm_native_message_data msgs = map snd (saved_messages h c cs))
  /\ (exists msgs,
        get_native_messages db' h c (Some p) = Ok msgs
        /\ map nm_native_message_data msgs
           = if (p =? "") then map snd (saved_messages h c cs)
             else saved_payloads h c p cs).
Proof.
  intros H0 Hd Hr Hw.
  assert (HF : Forall2 holds (native_rows db' h c) (saved_messages h c cs)).
  { apply (run_native_rows ProviderType extract_display_info h c cs db db' []
             Hd Hr). rewrite H0. constructor. }
  destruct (run_native_orders ProviderType extract_display_info h c cs db db' 0
              Hd Hr) as [m Hm].
  { unfold native_orders. fold (native_rows db h c). rewrite H0. reflexivity. }
  assert (HS : StronglySorted
                 (fun a b => (cm_message_order a <= cm_message_order b)%Z)
                 (native_rows db' h c)) by (apply (sorted_dense _ _ m); exact Hm).
  assert (All : exists msgs,
                  get_native_messages db' h c None = Ok msgs
                  /\ map nm_native_message_data msgs
                     = map snd (saved_messages h c cs)).
  { unfold get_native_messages. fold (native_rows db' h c).
    rewrite (order_by_sorted _ _ HS).
    destruct (read_native_rows _ _ (fun _ => true) HF Hw) as [msgs [E M]].
    rewrite !filter_all in *. rewrite E. exists msgs. split; [reflexivity|exact M]. }
  split; [|split; [exact All|]].
  - unfold get_native_messages_for_provider.
    rewrite filter_and. fold (native_rows db' h c).
    rewrite (order_by_sorted _ _ (sorted_filter _ _ _ HS)).
    rewrite (read_rows _ _ (fun q => q =? p) HF Hw). reflexivity.
  - destruct (p =? "") eqn:Ep.
    + destruct All as [msgs [E M]]. exists msgs. split; [|exact M].
      unfold get_native_messages in *. rewrite Ep. exact E.
    + unfold get_native_messages. rewrite Ep. simpl negb. cbv iota.
      rewrite filter_and. fold (native_rows db' h c).
      rewrite (order_by_sorted _ _ (sorted_filter _ _ _ HS)).
      destruct (read_native_rows _ _ (fun q => q =? p) HF Hw) as [msgs [E M]].
      rewrite E. exists msgs. split; [reflexivity|exact M].
Qed.

Lemma native_payload_round_trip_witness :
  run demo_ProviderType demo_extract_display_info demo_session empty_db
    = Ok demo_store
  /\ get_native_messages_for_provider demo_store "cafe" "chat-1" "openai"
     = Ok [demo_question; get_disassembly_payload]
  /\ get_native_messages_for_provider demo_store "cafe" "chat-1" "ollama"
     = Ok [demo_answer].
Proof.
  split; [vm_compute; reflexivity|]. split.
  - apply (native_payload_round_trip demo_ProviderType demo_extract_display_info
             "cafe" "chat-1" "openai" demo_session empty_db demo_store);
      vm_compute; reflexivity.
  - apply (native_payload_round_trip demo_ProviderType demo_extract_display_info
             "cafe" "chat-1" "ollama" demo_session empty_db demo_store);
      vm_compute; reflexivity.
Defined.

(** * The other operations of the two services *)

Import Notions.

(** ** Settings: [int] reads back what [str] prints *)

Section IntOfStr.
Import SettingsService.

Lemma rstrip_int_cons (c : ascii) (s : string) :
  int_space c = false -> rstrip_int (String c s) = String c (rstrip_int s).
Proof.
  intros H. simpl. rewrite H. destruct (rstrip_int s); reflexivity.
Qed.

Lemma rstrip_int_uint (u : Decimal.uint) :
  rstrip_int (NilEmpty.string_of_uint u) = NilEmpty.string_of_uint u.
Proof.
  induction u; simpl NilEmpty.string_of_uint; [reflexivity|..];
    rewrite rstrip_int_cons by reflexivity; rewrite IHu; reflexivity.
Qed.

Lemma int_digits_uint (u : Decimal.uint) :
  int_digits true (NilEmpty.string_of_uint u) = Some (NilEmpty.string_of_uint u).
Proof.
  induction u; [reflexivity|..]; simpl; simpl in IHu; rewrite IHu; reflexivity.
Qed.

Lemma int_of_str_uint (u : Decimal.uint) :
  u <> Decimal.Nil ->
  int_of_str (NilEmpty.string_of_uint u) = Ok (Z.of_uint u)
  /\ int_of_str (String "-" (NilEmpty.string_of_uint u)) = Ok (- Z.of_uint u)%Z.
Proof.
  intros Hn. unfold int_of_str.
  change (lstrip_int (String "-" (NilEmpty.string_of_uint u)))
    with (String "-" (NilEmpty.string_of_uint u)).
  rewrite (rstrip_int_cons "-" _ eq_refl), rstrip_int_uint.
  assert (Hl : lstrip_int (NilEmpty.string_of_uint u) = NilEmpty.string_of_uint u)
    by (destruct u; reflexivity).
  rewrite Hl, rstrip_int_uint.
  assert (Hs : int_sign (NilEmpty.string_of_uint u)
               = (false, NilEmpty.string_of_uint u))
    by (destruct u; try contradiction; reflexivity).
  assert (Hd : int_digits false (NilEmpty.string_of_uint u)
               = Some (NilEmpty.string_of_uint u)).
  { destruct u; try contradiction; simpl; rewrite int_digits_uint; reflexivity. }
  rewrite Hs. change (int_sign (String "-" ?s)) with (true, s).
  cbv iota beta. rewrite Hd, NilEmpty.usu. split; reflexivity.
Qed.

Lemma int_of_str_str_int (z : Z) : int_of_str (str_int z) = Ok z.
Proof.
  unfold str_int. destruct z as [|p|p]; [reflexivity|..];
    simpl Z.to_int; unfold NilZero.string_of_int, NilZero.string_of_uint;
    pose proof (DecimalPos.Unsigned.to_uint_nonnil p) as Hn;
    destruct (int_of_str_uint (Pos.to_uint p) Hn) as [Hp Hm].
  - replace (Z.pos p) with (Z.of_uint (Pos.to_uint p))
      by (unfold Z.of_uint; rewrite DecimalPos.Unsigned.of_to; reflexivity).
    destruct (Pos.to_uint p); try contradiction; exact Hp.
  - replace (Z.neg p) with (- Z.of_uint (Pos.to_uint p))%Z
      by (unfold Z.of_uint; rewrite DecimalPos.Unsigned.of_to; reflexivity).
    destruct (Pos.to_uint p); try contradiction; exact Hm.
Qed.

End IntOfStr.

(** ** Settings: values and the settings table *)

Section SettingsProperties.
Import Settings SettingsService.

Variable float : Type.
Variable float_of_str : string -> option float.
Variable str_of_float : float -> string.


Lemma deserialize_serialize (v : json) :
  well_formed v = true ->
  _deserialize_value float float_of_str
    (fst (_serialize_value float str_of_float (Plain v)))
    (snd (_serialize_value float str_of_float (Plain v)))
  = Plain (read_back v).
Proof.
  intros W. destruct v as [|b|n|s|l|d]; unfold _serialize_value; cbn [fst snd].
  - reflexivity.
  - destruct b; reflexivity.
  - unfold _deserialize_value. simpl String.eqb. cbv iota.
    rewrite int_of_str_str_int. reflexivity.
  - reflexivity.
  - unfold _deserialize_value. simpl String.eqb. cbv iota.
    rewrite (loads_dumps _ W). reflexivity.
  - unfold _deserialize_value. simpl String.eqb. cbv iota.
    rewrite (loads_dumps _ W). reflexivity.
Qed.

Lemma filter_other_key (key key' : string) (row : SettingRow)
    (t : list SettingRow) :
  st_key row = key -> key' <> key ->
  filter (has_key key') (replace_setting row t) = filter (has_key key') t.
Proof.
  intros Hk Hne. unfold replace_setting. rewrite filter_app. simpl.
  unfold has_key at 2. rewrite Hk.
  destruct (key =? key') eqn:E; [apply String.eqb_eq in E; congruence|].
  rewrite List.app_nil_r.
  induction t as [|x t IH]; [reflexivity|]. simpl.
  destruct (st_key x =? key) eqn:E1; simpl.
  - unfold has_key at 2. apply String.eqb_eq in E1. rewrite E1, E. exact IH.
  - destruct (has_key key' x); [f_equal|]; exact IH.
Qed.

Lemma get_setting_set_setting (db : DB) (key category : string) (v : json)
    (default : pyvalue float) :
  well_formed v = true ->
  get_setting float float_of_str
    (fst (set_setting float str_of_float db key (Plain v) category)) key default
  = Plain (read_back v).
Proof.
  intros W. unfold set_setting, get_setting.
  pose proof (deserialize_serialize v W) as R.
  destruct (_serialize_value float str_of_float (Plain v)) as [value_str value_type]. simpl in *.
  pose proof (filter_replace_setting
                (mk_setting key value_str value_type category) (settings db)) as F.
  simpl in F. unfold has_key. rewrite F. simpl. exact R.
Qed.

Lemma get_setting_set_other (db : DB) (key key' category : string)
    (v default : pyvalue float) :
  key' <> key ->
  get_setting float float_of_str
    (fst (set_setting float str_of_float db key v category)) key' default
  = get_setting float float_of_str db key' default.
Proof.
  intros Hne. unfold set_setting, get_setting.
  destruct (_serialize_value float str_of_float v) as [value_str value_type]. simpl.
  rewrite (filter_other_key key key' (mk_setting key value_str value_type category)
             _ eq_refl Hne).
  reflexivity.
Qed.

Lemma filter_has_key_removed (key : string) (t : list SettingRow) :
  filter (has_key key) (filter (fun r => negb (has_key key r)) t) = [].
Proof.
  induction t as [|x t IH]; [reflexivity|]. simpl.
  destruct (has_key key x) eqn:E; simpl; [|rewrite E]; exact IH.
Qed.

Lemma filter_has_key_kept (key key' : string) (t : list SettingRow) :
  key' <> key ->
  filter (has_key key') (filter (fun r => negb (has_key key r)) t)
  = filter (has_key key') t.
Proof.
  intros Hne. induction t as [|x t IH]; [reflexivity|]. simpl.
  destruct (has_key key x) eqn:E; simpl.
  - assert (N : has_key key' x = false).
    { unfold has_key in *. apply String.eqb_eq in E. rewrite E.
      apply String.eqb_neq. congruence. }
    rewrite N. exact IH.
  - destruct (has_key key' x); [f_equal|]; exact IH.
Qed.

Lemma existsb_has_key (key : string) (t : list SettingRow) :
  existsb (has_key key) t = true <-> In key (map st_key t).
Proof.
  rewrite existsb_exists, in_map_iff. unfold has_key.
  split; intros [r [A B]]; exists r.
  - apply String.eqb_eq in B. auto.
  - rewrite A, String.eqb_refl. auto.
Qed.

Lemma filter_none {A : Type} (p : A -> bool) (l : list A) :
  existsb p l = false -> filter (fun r => negb (p r)) l = l.
Proof.
  induction l as [|x l IH]; [reflexivity|]. simpl. intros H.
  apply orb_false_iff in H. destruct H as [H1 H2].
  rewrite H1. simpl. rewrite (IH H2). reflexivity.
Qed.

Lemma lookup_assign_same (k : string) (v : pyvalue float)
    (d : list (string * pyvalue float)) :
  lookup float k (assign float k v d) = Some v.
Proof.
  induction d as [|[k' v'] d IH]; simpl.
  - rewrite String.eqb_refl. reflexivity.
  - destruct (k' =? k) eqn:E; simpl; rewrite E; [reflexivity|exact IH].
Qed.

Lemma lookup_assign_other (k k' : string) (v : pyvalue float)
    (d : list (string * pyvalue float)) :
  k' <> k -> lookup float k (assign float k' v d) = lookup float k d.
Proof.
  intros Hne. induction d as [|[k0 v0] d IH]; simpl.
  - destruct (k' =? k) eqn:E; [apply String.eqb_eq in E; congruence|reflexivity].
  - destruct (k0 =? k') eqn:E; simpl.
    + apply String.eqb_eq in E. subst k0.
      destruct (k' =? k) eqn:E'; [apply String.eqb_eq in E'; congruence|].
      reflexivity.
    + destruct (k0 =? k); [reflexivity|exact IH].
Qed.

(** The loop of [get_settings_by_category] over the selected rows. *)
Lemma listed_absent (k : string) (rows : list SettingRow)
    (acc : list (string * pyvalue float)) :
  (forall r, In r rows -> st_key r <> k) ->
  lookup float k
    (fold_left (fun settings r =>
                  assign float (st_key r)
                    (_deserialize_value float float_of_str (st_value r) (st_type r))
                    settings) rows acc)
  = lookup float k acc.
Proof.
  revert acc. induction rows as [|x rows IH]; intros acc H; [reflexivity|].
  simpl. rewrite IH by (intros r Hr; apply H; right; exact Hr).
  apply lookup_assign_other. apply H. left. reflexivity.
Qed.

Lemma listed_present (r : SettingRow) (rows : list SettingRow)
    (acc : list (string * pyvalue float)) :
  NoDup (map st_key rows) -> In r rows ->
  lookup float (st_key r)
    (fold_left (fun settings r =>
                  assign float (st_key r)
                    (_deserialize_value float float_of_str (st_value r) (st_type r))
                    settings) rows acc)
  = Some (_deserialize_value float float_of_str (st_value r) (st_type r)).
Proof.
  revert acc. induction rows as [|x rows IH]; intros acc N Hin; [contradiction|].
  simpl in N. inversion N as [|? ? Hx N']. subst. simpl.
  destruct Hin as [->|Hin].
  - rewrite listed_absent; [apply lookup_assign_same|].
    intros r' Hr' E. apply Hx. rewrite <- E. apply in_map. exact Hr'.
  - apply IH; assumption.
Qed.

Lemma listed_from_row (k : string) (v : pyvalue float) (rows : list SettingRow)
    (acc : list (string * pyvalue float)) :
  lookup float k
    (fold_left (fun settings r =>
                  assign float (st_key r)
                    (_deserialize_value float float_of_str (st_value r) (st_type r))
                    settings) rows acc) = Some v ->
  lookup float k acc = Some v
  \/ exists r, In r rows /\ st_key r = k
               /\ v = _deserialize_value float float_of_str (st_value r) (st_type r).
Proof.
  revert acc. induction rows as [|x rows IH]; intros acc H; [left; exact H|].
  simpl in H. destruct (IH _ H) as [A|[r [Hr [Hk Hv]]]].
  - destruct (String.eqb_spec (st_key x) k) as [E|E].
    + rewrite E, lookup_assign_same in A. injection A as <-.
      right. exists x. split; [left; reflexivity|]. split; [exact E|reflexivity].
    + rewrite lookup_assign_other in A by exact E. left. exact A.
  - right. exists r. split; [right; exact Hr|]. split; assumption.
Qed.

(** A selection of rows with distinct keys has distinct keys. *)
Lemma selected_keys_distinct {Row Key : Type} (key : Row -> Key)
    (selected : Row -> bool) (rows : list Row) :
  NoDup (map key rows) -> NoDup (map key (filter selected rows)).
Proof.
  intros N. induction rows as [|x rows IH]; [constructor|].
  simpl in N. inversion N as [|? ? Hx N']. subst. simpl.
  destruct (selected x); [|exact (IH N')].
  simpl. constructor; [|exact (IH N')].
  intros Hin. apply Hx. apply in_map_iff in Hin.
  destruct Hin as [y [E Hy]]. apply filter_In in Hy.
  rewrite <- E. apply in_map. tauto.
Qed.

Lemma fetchone_unique (key : string) (r : SettingRow) (t : list SettingRow) :
  NoDup (map st_key t) -> In r t -> st_key r = key ->
  fetchone (filter (has_key key) t) = Some r.
Proof.
  induction t as [|x t IH]; intros N Hin Hk; [contradiction|].
  simpl in N. inversion N as [|? ? Hx N']. subst. simpl.
  destruct Hin as [->|Hin].
  - unfold has_key. rewrite String.eqb_refl. reflexivity.
  - destruct (has_key (st_key r) x) eqn:E.
    + exfalso. apply Hx. unfold has_key in E. apply String.eqb_eq in E.
      rewrite E. apply in_map. exact Hin.
    + apply IH; auto.
Qed.

(** X1.  What [_serialize_value] writes, [_deserialize_value] reads back as
    the value it was: a bool, an int, a string, a list or a dict whose
    dictionaries have no key twice.  The one exception is [None], which is
    written as the string "None" and read back as that string. *)
Theorem setting_value_round_trip (v : json) :
  well_formed v = true ->
  _deserialize_value float float_of_str
    (fst (_serialize_value float str_of_float (Plain v)))
    (snd (_serialize_value float str_of_float (Plain v)))
  = Plain (read_back v).
Proof.
  exact (deserialize_serialize v).
Qed.

(** X2.  [set_setting] then [get_setting] on the same key gives the value
    back ([None] as the string "None"), whatever was stored under the key
    before and whatever the default; the settings under every other key,
    and the providers, are as they were. *)
Theorem get_setting_after_set_setting (db : DB) (key category : string)
    (v : json) :
  well_formed v = true ->
  let saved := set_setting float str_of_float db key (Plain v) category in
  snd saved = true
  /\ (forall default,
        get_setting float float_of_str (fst saved) key default
        = Plain (read_back v))
  /\ (forall key' default, key' <> key ->
        get_setting float float_of_str (fst saved) key' default
        = get_setting float float_of_str db key' default)
  /\ llm_providers (fst saved) = llm_providers db.
Proof.
  intros W saved. subst saved. split; [|split; [|split]].
  - unfold set_setting.
    destruct (_serialize_value float str_of_float (Plain v)); reflexivity.
  - intros default. apply get_setting_set_setting. exact W.
  - intros key' default Hne. apply get_setting_set_other. exact Hne.
  - unfold set_setting.
    destruct (_serialize_value float str_of_float (Plain v)); reflexivity.
Qed.

(** X3.  [delete_setting] answers True exactly when the key was stored;
    afterwards [get_setting] on the key gives the default, every other
    key reads as before, and a call that answers False has changed
    nothing. *)
Theorem delete_setting_forgets (db : DB) (key : string) :
  let deleted := delete_setting db key in
  (snd deleted = true <-> In key (map st_key (settings db)))
  /\ (forall default,
        get_setting float float_of_str (fst deleted) key default = default)
  /\ (forall key' default, key' <> key ->
        get_setting float float_of_str (fst deleted) key' default
        = get_setting float float_of_str db key' default)
  /\ (snd deleted = false -> fst deleted = db).
Proof.
  intros deleted. subst deleted. unfold delete_setting. simpl.
  split; [|split; [|split]].
  - apply existsb_has_key.
  - intros default. unfold get_setting. simpl.
    rewrite filter_has_key_removed. reflexivity.
  - intros key' default Hne. unfold get_setting. simpl.
    rewrite filter_has_key_kept by exact Hne. reflexivity.
  - intros H. unfold with_settings. rewrite (filter_none _ _ H).
    destruct db; reflexivity.
Qed.

(** X4.  [get_settings_by_category] lists a key only if a row of that
    category holds it; under the primary key of the table (no key twice)
    it lists every key of the category with the value [get_setting] gives
    for it.  After [set_setting], the key is listed under the category of
    the call, with the value written, and under no other category. *)
Theorem get_settings_by_category_lists (db : DB) (category : string) :
  (forall key v,
     lookup float key (get_settings_by_category float float_of_str db category)
       = Some v ->
     exists r, In r (settings db) /\ st_key r = key /\ st_category r = category)
  /\ (NoDup (map st_key (settings db)) ->
      forall r default, In r (settings db) -> st_category r = category ->
        lookup float (st_key r)
               (get_settings_by_category float float_of_str db category)
        = Some (get_setting float float_of_str db (st_key r) default))
  /\ (forall key v other,
        well_formed v = true ->
        let db' := fst (set_setting float str_of_float db key (Plain v) category) in
        lookup float key (get_settings_by_category float float_of_str db' category)
          = Some (Plain (read_back v))
        /\ (other <> category ->
            lookup float key (get_settings_by_category float float_of_str db' other)
            = None)).
Proof.
  split; [|split].
  - intros key v H. unfold get_settings_by_category in H.
    apply listed_from_row in H. destruct H as [H|[r [Hr [Hk _]]]]; [discriminate|].
    apply filter_In in Hr. destruct Hr as [Hr Hc]. apply String.eqb_eq in Hc.
    exists r. auto.
  - intros N r default Hr Hc. unfold get_settings_by_category, get_setting.
    rewrite (fetchone_unique (st_key r) r _ N Hr eq_refl).
    apply listed_present.
    + apply selected_keys_distinct. exact N.
    + apply filter_In. split; [exact Hr|]. rewrite Hc. apply String.eqb_refl.
  - intros key v other W db'. subst db'.
    pose proof (deserialize_serialize v W) as R.
    unfold set_setting, get_settings_by_category.
    destruct (_serialize_value float str_of_float (Plain v))
      as [value_str value_type].
    simpl in R. simpl. unfold replace_setting.
    rewrite !filter_app. simpl. rewrite String.eqb_refl.
    split.
    + rewrite fold_left_app. simpl. rewrite lookup_assign_same, R. reflexivity.
    + intros Hne.
      destruct (category =? other) eqn:E;
        [apply String.eqb_eq in E; congruence|].
      rewrite List.app_nil_r. apply listed_absent.
      intros r Hr Hk. apply filter_In in Hr. destruct Hr as [Hr _].
      apply filter_In in Hr. destruct Hr as [_ Hr].
      rewrite Hk, String.eqb_refl in Hr. discriminate.
Qed.

End SettingsProperties.

Lemma setting_value_round_trip_witness :
  SettingsService._deserialize_value no_float no_float_of_str "[1, null]" "json"
  = SettingsService.Plain (JList [JInt 1; JNull]).
Proof.
  exact (setting_value_round_trip no_float no_float_of_str str_of_no_float
           (JList [JInt 1; JNull]) eq_refl).
Defined.

Lemma get_setting_after_set_setting_witness :
  let saved :=
    SettingsService.set_setting no_float str_of_no_float demo_settings "retries"
      (SettingsService.Plain (JBool false)) "network" in
  SettingsService.get_setting no_float no_float_of_str (fst saved) "retries"
    (SettingsService.Plain JNull)
  = SettingsService.Plain (JBool false)
  /\ SettingsService.get_setting no_float no_float_of_str (fst saved) "theme"
       (SettingsService.Plain JNull)
     = SettingsService.Plain (JStr "dark").
Proof.
  destruct (get_setting_after_set_setting no_float no_float_of_str
              str_of_no_float demo_settings "retries" "network" (JBool false)
              eq_refl) as [_ [G [O _]]].
  split; [apply G|].
  rewrite (O "theme" (SettingsService.Plain JNull)); [reflexivity|discriminate].
Defined.

Lemma delete_setting_forgets_witness :
  let deleted := SettingsService.delete_setting demo_settings "retries" in
  snd deleted = true
  /\ SettingsService.get_setting no_float no_float_of_str (fst deleted) "retries"
       (SettingsService.Plain (JInt 5))
     = SettingsService.Plain (JInt 5)
  /\ SettingsService.get_setting no_float no_float_of_str (fst deleted) "stream"
       (SettingsService.Plain JNull)
     = SettingsService.Plain (JBool true).
Proof.
  destruct (delete_setting_forgets no_float no_float_of_str demo_settings
              "retries") as [D [G [O _]]].
  split; [apply D; simpl; tauto|]. split; [apply G|].
  rewrite (O "stream" (SettingsService.Plain JNull)); [reflexivity|discriminate].
Defined.

Lemma get_settings_by_category_lists_witness :
  SettingsService.lookup no_float "stream"
    (SettingsService.get_settings_by_category no_float no_float_of_str
       demo_settings "network")
  = Some (SettingsService.Plain (JBool true))
  /\ SettingsService.lookup no_float "theme"
       (SettingsService.get_settings_by_category no_float no_float_of_str
          (fst (SettingsService.set_setting no_float str_of_no_float
                  demo_settings "theme" (SettingsService.Plain (JStr "light"))
                  "display"))
          "ui")
     = None.
Proof.
  destruct (get_settings_by_category_lists no_float no_float_of_str
              str_of_no_float demo_settings "network") as [_ [L _]].
  destruct (get_settings_by_category_lists no_float no_float_of_str
              str_of_no_float demo_settings "display") as [_ [_ M]].
  split.
  - assert (N : NoDup (map Settings.st_key (Settings.settings demo_settings))).
    { simpl. repeat constructor; simpl; intuition discriminate. }
    apply (L N (Settings.mk_setting "stream" "1" "boolean" "network")
             (SettingsService.Plain JNull)); [simpl; tauto|reflexivity].
  - destruct (M "theme" (JStr "light") "ui" eq_refl) as [_ H].
    apply H. discriminate.
Defined.

(** ** Settings: the defaults *)

Section Defaults.
Import Settings SettingsService.

Variable user_file : string -> string.

Lemma fetchone_filter {A : Type} (p : A -> bool) (l : list A) :
  match fetchone (filter p l) with
  | Some _ => existsb p l = true
  | None => existsb p l = false
  end.
Proof.
  induction l as [|x l IH]; [reflexivity|]. simpl.
  destruct (p x); [reflexivity|exact IH].
Qed.

Lemma filter_nil {A : Type} (p : A -> bool) (l : list A) :
  (forall x, In x l -> p x = false) -> filter p l = [].
Proof.
  induction l as [|x l IH]; intros H; [reflexivity|]. simpl.
  rewrite (H x (or_introl eq_refl)). apply IH. intros y Hy. apply H. right.
  exact Hy.
Qed.

Lemma settings_db_eq (a b : DB) :
  settings a = settings b -> llm_providers a = llm_providers b ->
  seq_llm_providers a = seq_llm_providers b -> a = b.
Proof. destruct a, b; simpl; congruence. Qed.

Lemma fetchone_app {A : Type} (l l' : list A) (x : A) :
  fetchone l = Some x -> fetchone (l ++ l') = Some x.
Proof. destruct l; [discriminate|]. intros H. exact H. Qed.

(** The rows the loop adds: the defaults whose key the table lacks. *)
Lemma populate_settings (ds : list SettingRow) (db : DB) :
  NoDup (map st_key ds) ->
  let db' :=
    fold_left
      (fun db config =>
         match fetchone (filter (has_key (st_key config)) (settings db)) with
         | Some _ => db
         | None => with_settings db (settings db ++ [config])
         end) ds db in
  settings db'
  = (settings db
     ++ filter (fun c => negb (existsb (has_key (st_key c)) (settings db))) ds)%list
  /\ llm_providers db' = llm_providers db
  /\ seq_llm_providers db' = seq_llm_providers db.
Proof.
  revert db. induction ds as [|c ds IH]; intros db N; simpl.
  - rewrite List.app_nil_r. auto.
  - inversion N as [|? ? Hc N']. subst.
    pose proof (fetchone_filter (has_key (st_key c)) (settings db)) as F.
    destruct (fetchone (filter (has_key (st_key c)) (settings db))).
    + rewrite F. simpl. apply IH. exact N'.
    + rewrite F. simpl.
      destruct (IH (with_settings db (settings db ++ [c])) N') as [S [P Q]].
      simpl in S, P, Q. rewrite S, P, Q. split; [|auto].
      rewrite <- List.app_assoc. simpl. f_equal. f_equal.
      apply filter_ext_in. intros x Hx. rewrite existsb_app. simpl.
      rewrite orb_false_r.
      assert (E : has_key (st_key x) c = false).
      { unfold has_key. apply String.eqb_neq. intros E. apply Hc.
        rewrite E. apply in_map. exact Hx. }
      rewrite E, orb_false_r. reflexivity.
Qed.

Lemma defaults_keys : NoDup (map st_key (defaults user_file)).
Proof.
  simpl. repeat constructor; simpl; intuition discriminate.
Qed.

Lemma filter_key_absent (key : string) (q : SettingRow -> bool)
    (ds : list SettingRow) :
  ~ In key (map st_key ds) -> filter (has_key key) (filter q ds) = [].
Proof.
  induction ds as [|y ds IH]; intros H; [reflexivity|]. simpl.
  assert (Hy : has_key key y = false).
  { unfold has_key. apply String.eqb_neq. intros E. apply H. left. exact E. }
  destruct (q y); simpl; [rewrite Hy|]; apply IH; intros H'; apply H; right;
    exact H'.
Qed.

Lemma filter_missing_key (key : string) (c : SettingRow) (t ds : list SettingRow) :
  NoDup (map st_key ds) -> In c ds -> st_key c = key ->
  existsb (has_key key) t = false ->
  filter (has_key key)
         (filter (fun c => negb (existsb (has_key (st_key c)) t)) ds) = [c].
Proof.
  intros N Hin Hk Hm. subst key. induction ds as [|x ds IH]; [contradiction|].
  inversion N as [|? ? Hx N']. subst. simpl.
  destruct Hin as [->|Hin].
  - rewrite Hm. simpl. unfold has_key at 1. rewrite String.eqb_refl. f_equal.
    apply filter_key_absent. exact Hx.
  - assert (E : has_key (st_key c) x = false).
    { unfold has_key. apply String.eqb_neq. intros E. apply Hx.
      rewrite E. apply in_map. exact Hin. }
    destruct (negb (existsb (has_key (st_key x)) t)); simpl; [rewrite E|];
      apply IH; assumption.
Qed.

Variable float : Type.
Variable float_of_str : string -> option float.

(** X5.  [_populate_defaults] never overwrites: a key the table holds
    reads as before; a default the table lacks reads as the default's
    text; the providers are untouched; and running it a second time
    changes nothing. *)
Theorem populate_defaults_keeps_settings (db : DB) :
  let db' := _populate_defaults user_file db in
  (forall key default, In key (map st_key (settings db)) ->
     get_setting float float_of_str db' key default
     = get_setting float float_of_str db key default)
  /\ (forall config default, In config (defaults user_file) ->
        ~ In (st_key config) (map st_key (settings db)) ->
        get_setting float float_of_str db' (st_key config) default
        = Plain (JStr (st_value config)))
  /\ _populate_defaults user_file db' = db'
  /\ llm_providers db' = llm_providers db.
Proof.
  intros db'. subst db'. unfold _populate_defaults.
  destruct (populate_settings (defaults user_file) db defaults_keys)
    as [S [P Q]].
  split; [|split; [|split]].
  - intros key default Hin. unfold get_setting. rewrite S, filter_app.
    apply existsb_has_key in Hin.
    pose proof (fetchone_filter (has_key key) (settings db)) as F.
    destruct (fetchone (filter (has_key key) (settings db))) as [r|] eqn:E;
      [|congruence].
    rewrite (fetchone_app _ _ r E). reflexivity.
  - intros config default Hin Hm. unfold get_setting. rewrite S, filter_app.
    assert (M : existsb (has_key (st_key config)) (settings db) = false).
    { destruct (existsb (has_key (st_key config)) (settings db)) eqn:E;
        [|reflexivity].
      exfalso. apply Hm. apply existsb_has_key. exact E. }
    rewrite (filter_missing_key (st_key config) config _ _ defaults_keys Hin
               eq_refl M).
    pose proof (fetchone_filter (has_key (st_key config)) (settings db)) as F.
    destruct (filter (has_key (st_key config)) (settings db)) as [|r l];
      [|simpl in F; congruence].
    simpl. simpl in Hin.
    destruct Hin as [<-|[<-|[<-|[<-|[<-|[]]]]]]; reflexivity.
  - set (db' := fold_left _ (defaults user_file) db) in *.
    destruct (populate_settings (defaults user_file) db' defaults_keys)
      as [S' [P' Q']].
    fold db' in S', P', Q' |- *.
    set (db'' := fold_left _ (defaults user_file) db') in *.
    assert (E : filter (fun c => negb (existsb (has_key (st_key c)) (settings db')))
                       (defaults user_file) = []).
    { apply filter_nil. intros c Hc. rewrite S, existsb_app.
      destruct (existsb (has_key (st_key c)) (settings db)) eqn:M; [reflexivity|].
      rewrite orb_false_l. apply negb_false_iff. apply existsb_exists. exists c.
      split; [|apply String.eqb_refl].
      apply filter_In. rewrite M. auto. }
    rewrite E, List.app_nil_r in S'.
    apply settings_db_eq; assumption.
  - exact P.
Qed.

End Defaults.

Lemma populate_defaults_keeps_settings_witness :
  let db := SettingsService._populate_defaults demo_user_file demo_settings in
  SettingsService.get_setting no_float no_float_of_str db "active_llm_provider"
    (SettingsService.Plain JNull)
  = SettingsService.Plain (JStr "local")
  /\ SettingsService.get_setting no_float no_float_of_str db "rlhf_db_path"
       (SettingsService.Plain JNull)
     = SettingsService.Plain (JStr "/home/re/.binaryninja/binassist/rlhf.db").
Proof.
  destruct (populate_defaults_keeps_settings demo_user_file no_float
              no_float_of_str demo_settings) as [K [D _]].
  split.
  - rewrite K; [reflexivity|simpl; tauto].
  - apply (D (Settings.mk_setting "rlhf_db_path" (demo_user_file "rlhf.db")
                                   "string" "database")
             (SettingsService.Plain JNull)).
    + simpl. tauto.
    + simpl. intuition discriminate.
Defined.

(** ** LLM providers: activation *)

Section ProviderProperties.
Import Settings SettingsService.

Lemma activate_named (name : string) (l : list LLMProviderRow) :
  filter lp_is_active
    (map (fun r => if (lp_name r =? name) then set_is_active true r else r)
         (map (set_is_active false) l))
  = map (set_is_active true) (filter (fun r => lp_name r =? name) l).
Proof.
  induction l as [|x l IH]; [reflexivity|]. simpl.
  destruct (lp_name x =? name); simpl; rewrite IH; reflexivity.
Qed.

Lemma filter_unique_name (r : LLMProviderRow) (l : list LLMProviderRow) :
  NoDup (map lp_name l) -> In r l ->
  filter (fun x => lp_name x =? lp_name r) l = [r].
Proof.
  induction l as [|x l IH]; intros N Hin; [contradiction|].
  inversion N as [|? ? Hx N']. subst. simpl.
  destruct Hin as [->|Hin].
  - rewrite String.eqb_refl. f_equal. apply filter_nil.
    intros y Hy. apply String.eqb_neq. intros E. apply Hx. rewrite <- E.
    apply in_map. exact Hy.
  - destruct (lp_name x =? lp_name r) eqn:E; [|apply IH; assumption].
    exfalso. apply String.eqb_eq in E. apply Hx. rewrite E. apply in_map.
    exact Hin.
Qed.

(** X6.  With the name of a stored provider (names are unique in the
    table), [set_active_llm_provider] leaves that provider as the only
    active one, and [get_active_llm_provider] then returns it without
    changing the store. *)
Theorem set_active_llm_provider_known_name (db : DB) (r : LLMProviderRow) :
  NoDup (map lp_name (llm_providers db)) -> In r (llm_providers db) ->
  exists db',
    set_active_llm_provider db (lp_name r) = Ok (db', true)
    /\ filter lp_is_active (llm_providers db') = [set_is_active true r]
    /\ map lp_id (llm_providers db') = map lp_id (llm_providers db)
    /\ get_active_llm_provider db' = Ok (db', Some (set_is_active true r)).
Proof.
  intros N Hin. unfold set_active_llm_provider. simpl.
  eexists. split; [reflexivity|]. simpl.
  assert (A : filter lp_is_active
                (map (fun x => if (lp_name x =? lp_name r)
                               then set_is_active true x else x)
                     (map (set_is_active false) (llm_providers db)))
              = [set_is_active true r]).
  { rewrite activate_named, (filter_unique_name r _ N Hin). reflexivity. }
  split; [exact A|]. split.
  - rewrite !map_map. apply map_ext. intros x.
    destruct (lp_name (set_is_active false x) =? lp_name r); reflexivity.
  - unfold get_active_llm_provider. simpl. rewrite A. reflexivity.
Qed.

Lemma restore_named (name : string) (l : list LLMProviderRow) :
  filter lp_is_active l = [] ->
  filter lp_is_active
    (map (fun r => if (lp_name r =? name) then set_is_active true r else r) l)
  = map (set_is_active true) (filter (fun r => lp_name r =? name) l).
Proof.
  induction l as [|x l IH]; intros H; [reflexivity|]. simpl in *.
  destruct (lp_is_active x) eqn:A; [discriminate|].
  destruct (lp_name x =? name); simpl; [|rewrite A]; rewrite (IH H); reflexivity.
Qed.

(** X7.  When no provider is active but the setting active_llm_provider
    names a stored provider, [get_active_llm_provider] returns that
    provider and marks it active in the table: the call writes.  A second
    call finds it active and changes nothing. *)
Theorem get_active_llm_provider_restores (db : DB) (r : LLMProviderRow)
    (saved : SettingRow) :
  NoDup (map lp_name (llm_providers db)) ->
  filter lp_is_active (llm_providers db) = [] ->
  fetchone (filter (has_key "active_llm_provider") (settings db)) = Some saved ->
  In r (llm_providers db) -> lp_name r = st_value saved ->
  exists db',
    get_active_llm_provider db = Ok (db', Some r)
    /\ filter lp_is_active (llm_providers db') = [set_is_active true r]
    /\ settings db' = settings db
    /\ get_active_llm_provider db' = Ok (db', Some (set_is_active true r)).
Proof.
  intros N A S Hin Hn. unfold get_active_llm_provider at 1.
  unfold has_key in S. rewrite A. simpl. rewrite S. rewrite <- Hn.
  rewrite (filter_unique_name r _ N Hin). simpl.
  eexists. split; [reflexivity|]. simpl.
  assert (A' : filter lp_is_active
                 (map (fun x => if (lp_name x =? lp_name r)
                                then set_is_active true x else x)
                      (llm_providers db))
               = [set_is_active true r]).
  { rewrite (restore_named _ _ A), (filter_unique_name r _ N Hin). reflexivity. }
  split; [exact A'|]. split; [reflexivity|].
  unfold get_active_llm_provider. simpl. rewrite A'. reflexivity.
Qed.




End ProviderProperties.

Lemma set_active_llm_provider_known_name_witness :
  exists db',
    Settings.set_active_llm_provider demo_providers "gpt" = Ok (db', true)
    /\ Settings.get_active_llm_provider db'
       = Ok (db', Some (Settings.set_is_active true demo_gpt)).
Proof.
  destruct (set_active_llm_provider_known_name demo_providers demo_gpt)
    as [db' [E [_ [_ G]]]].
  - simpl. repeat constructor; simpl; intuition discriminate.
  - simpl. tauto.
  - exists db'. split; [exact E|exact G].
Defined.

Lemma get_active_llm_provider_restores_witness :
  exists db',
    Settings.get_active_llm_provider demo_unrestored = Ok (db', Some demo_local)
    /\ filter Settings.lp_is_active (Settings.llm_providers db')
       = [Settings.set_is_active true demo_local].
Proof.
  destruct (get_active_llm_provider_restores demo_unrestored demo_local
              (Settings.mk_setting "active_llm_provider" "local" "string" "ui"))
    as [db' [E [A _]]].
  - simpl. repeat constructor; simpl; intuition discriminate.
  - reflexivity.
  - reflexivity.
  - simpl. tauto.
  - reflexivity.
  - exists db'. split; [exact E|exact A].
Defined.



(** ** Tables with one row per key *)

Lemma filter_replaced {A : Type} (k : A -> bool) (x : A) (l : list A) :
  k x = true -> filter k (filter (fun r => negb (k r)) l ++ [x]) = [x].
Proof.
  intros H. rewrite filter_app. simpl. rewrite H.
  replace (filter k (filter (fun r => negb (k r)) l)) with (@nil A); [reflexivity|].
  symmetry. apply filter_nil. intros y Hy. apply filter_In in Hy.
  destruct Hy as [_ Hy]. apply negb_true_iff. exact Hy.
Qed.

Lemma filter_deleted {A : Type} (k : A -> bool) (l : list A) :
  filter k (filter (fun r => negb (k r)) l) = [].
Proof.
  apply filter_nil. intros y Hy. apply filter_In in Hy.
  destruct Hy as [_ Hy]. apply negb_true_iff. exact Hy.
Qed.

Lemma filter_deleted_other {A : Type} (k k' : A -> bool) (l : list A) :
  (forall r, k' r = true -> k r = false) ->
  filter k' (filter (fun r => negb (k r)) l) = filter k' l.
Proof.
  intros D. induction l as [|y l IH]; [reflexivity|]. simpl.
  destruct (k y) eqn:E; simpl.
  - destruct (k' y) eqn:E'; [rewrite (D y E') in E; discriminate|exact IH].
  - destruct (k' y); [f_equal|]; exact IH.
Qed.

Lemma filter_replaced_other {A : Type} (k k' : A -> bool) (x : A) (l : list A) :
  k' x = false -> (forall r, k' r = true -> k r = false) ->
  filter k' (filter (fun r => negb (k r)) l ++ [x]) = filter k' l.
Proof.
  intros H D. rewrite filter_app. simpl. rewrite H, List.app_nil_r.
  apply filter_deleted_other. exact D.
Qed.

Lemma existsb_filter_nil {A : Type} (k : A -> bool) (l : list A) :
  existsb k l = false -> filter k l = [].
Proof.
  intros H. apply filter_nil. intros x Hx.
  destruct (k x) eqn:E; [|reflexivity].
  assert (existsb k l = true) by (apply existsb_exists; exists x; auto).
  congruence.
Qed.

Lemma dumps_not_empty (v : json) : (dumps v =? "") = false.
Proof.
  pose proof (dumps_nonempty v) as H.
  destruct (dumps v); [simpl in H; lia|reflexivity].
Qed.

Lemma loads_stored_metadata (metadata : option json) :
  (forall m, metadata = Some m -> well_formed m = true) ->
  loads_or_empty
    match metadata with
    | Some m => if truthy m then Some (dumps m) else None
    | None => None
    end
  = Ok (stored_metadata metadata).
Proof.
  intros W. destruct metadata as [m|]; [|reflexivity]. simpl.
  destruct (truthy m); [|reflexivity]. simpl.
  rewrite dumps_not_empty. simpl. unfold json_loads.
  rewrite (loads_dumps m (W m eq_refl)). reflexivity.
Qed.

(** ** Function analyses *)

Section AnalysisProperties.
Import Analyses.




Lemma md_key_other (h h' c c' : string) (r : ChatMetadataRow) :
  (h', c') <> (h, c) -> md_key h' c' r = true -> md_key h c r = false.
Proof.
  intros Hne H. unfold md_key in *.
  apply andb_true_iff in H. destruct H as [Hh Hc].
  apply String.eqb_eq in Hh, Hc.
  destruct (String.eqb_spec (md_binary_hash r) h); [|reflexivity].
  destruct (String.eqb_spec (md_chat_id r) c); [|reflexivity].
  exfalso. apply Hne. congruence.
Qed.

(** X12.  The name of a chat: [save_chat_metadata] then
    [get_chat_metadata] gives the name just saved, whatever name the chat
    had, under a new row id and with created_at reset to the time of the
    save; the names of other chats are as they were; and
    [delete_chat_metadata] on the chat then answers True and leaves it
    without a name. *)
Theorem chat_metadata_round_trip (now : string) (t : ChatMetadataTable)
    (h c name : string) :
  let saved := save_chat_metadata now t h c name in
  let deleted := delete_chat_metadata (fst saved) h c in
  snd saved = (seq_BNChatMetadata t + 1)%Z
  /\ get_chat_metadata (fst saved) h c
     = Some (mk_chat_metadata (snd saved) h c name now now)
  /\ (forall h' c', (h', c') <> (h, c) ->
        get_chat_metadata (fst saved) h' c' = get_chat_metadata t h' c')
  /\ snd deleted = true
  /\ get_chat_metadata (fst deleted) h c = None
  /\ (forall h' c', (h', c') <> (h, c) ->
        get_chat_metadata (fst deleted) h' c' = get_chat_metadata t h' c').
Proof.
  intros saved deleted. subst saved deleted.
  unfold save_chat_metadata, delete_chat_metadata. simpl.
  assert (K : md_key h c (mk_chat_metadata (seq_BNChatMetadata t + 1) h c name
                                           now now) = true).
  { unfold md_key. simpl. rewrite !String.eqb_refl. reflexivity. }
  split; [reflexivity|]. split; [|split; [|split; [|split]]].
  - unfold get_chat_metadata. simpl. rewrite (filter_replaced _ _ _ K).
    reflexivity.
  - intros h' c' Hne. unfold get_chat_metadata. simpl.
    rewrite (filter_replaced_other (md_key h c) (md_key h' c')).
    + reflexivity.
    + destruct (md_key h' c' _) eqn:E; [|reflexivity].
      apply (md_key_other h h' c c' _ Hne) in E. rewrite K in E. discriminate.
    + intros r. apply md_key_other. exact Hne.
  - rewrite existsb_app. simpl. rewrite K. apply orb_true_r.
  - unfold get_chat_metadata. simpl. rewrite filter_deleted. reflexivity.
  - intros h' c' Hne. unfold get_chat_metadata. simpl.
    rewrite (filter_deleted_other (md_key h c) (md_key h' c'))
      by (intros r; apply md_key_other; exact Hne).
    rewrite (filter_replaced_other (md_key h c) (md_key h' c')).
    + reflexivity.
    + destruct (md_key h' c' _) eqn:E; [|reflexivity].
      apply (md_key_other h h' c c' _ Hne) in E. rewrite K in E. discriminate.
    + intros r. apply md_key_other. exact Hne.
Qed.

End AnalysisProperties.



Lemma chat_metadata_round_trip_witness :
  let saved := Analyses.save_chat_metadata "2024-01-02 09:30:00" demo_names
                 "cafe" "chat-1" "Header parser" in
  Analyses.get_chat_metadata (fst saved) "cafe" "chat-1"
  = Some (Analyses.mk_chat_metadata 2 "cafe" "chat-1" "Header parser"
            "2024-01-02 09:30:00" "2024-01-02 09:30:00")
  /\ Analyses.get_chat_metadata (fst saved) "cafe" "chat-2" = None.
Proof.
  destruct (chat_metadata_round_trip "2024-01-02 09:30:00" demo_names "cafe"
              "chat-1" "Header parser") as [_ [G [O _]]].
  split; [exact G|].
  rewrite (O "cafe" "chat-2"); [reflexivity|discriminate].
Defined.

(** ** Context cache: saving, reading, sweeping *)




(** X14.  The sweep is invisible to a reader of the same moment: for every
    key [get_context_cache] answers after [cleanup_expired_context] what it
    answered before.  The number the sweep reports is the number of rows
    that went, and a second sweep at that moment removes nothing. *)
Theorem cleanup_expired_context_is_invisible (now : string) (db : DB) :
  exists db' deleted_count,
    cleanup_expired_context now db = Ok (db', deleted_count)
    /\ (forall h f, get_context_cache now db' h f = get_context_cache now db h f)
    /\ (Z.of_nat (List.length (BNContext db'))
        = Z.of_nat (List.length (BNContext db)) - deleted_count)%Z
    /\ cleanup_expired_context now db' = Ok (db', 0%Z).
Proof.
  unfold cleanup_expired_context.
  set (kept := filter (fun r => negb (expired now r)) (BNContext db)).
  exists (with_BNContext db kept (seq_BNContext db)). eexists.
  split; [reflexivity|]. simpl. split; [|split].
  - intros h f. unfold get_context_cache. simpl. unfold kept.
    rewrite (filter_deleted_other (expired now)
               (fun r => ctx_key h f r && not_expired now r)); [reflexivity|].
    intros r Hr. apply andb_true_iff in Hr. destruct Hr as [_ Hr].
    rewrite expired_refused, Hr. reflexivity.
  - pose proof (filter_length (expired now) (BNContext db)) as L.
    fold kept in L. lia.
  - assert (E : filter (expired now) kept = [])
      by (apply filter_deleted).
    assert (F : filter (fun r => negb (expired now r)) kept = kept).
    { unfold kept.
      rewrite (filter_ext_in (fun r => negb (expired now r)) (fun _ => true)
                 (filter _ _)).
      - apply filter_all.
      - intros r Hr. apply filter_In in Hr. tauto. }
    rewrite E, F. reflexivity.
Qed.


(** ** Replay of the legacy history *)

Lemma numbered_rows_app (i : nat) (ms : list (string * string * option json))
    (m : string * string * option json) :
  numbered_rows i (ms ++ [m])
  = (numbered_rows i ms
     ++ [(Z.of_nat (i + List.length ms), fst (fst m), snd (fst m),
          metadata_json (snd m))])%list.
Proof.
  revert i. induction ms as [|[[r t] md] ms IH]; intros i; simpl.
  - destruct m as [[r t] md]. simpl. rewrite Nat.add_0_r. reflexivity.
  - rewrite IH. simpl. repeat f_equal. lia.
Qed.

Lemma numbered_rows_orders (i : nat) (ms : list (string * string * option json)) :
  map (fun v => fst (fst (fst v))) (numbered_rows i ms)
  = map Z.of_nat (seq i (List.length ms)).
Proof.
  revert i. induction ms as [|[[r t] md] ms IH]; intros i; [reflexivity|].
  simpl. rewrite IH. reflexivity.
Qed.

Lemma row_view_orders (rows : list ChatHistoryRow)
    (ms : list (string * string * option json)) :
  map row_view rows = numbered_rows 0 ms ->
  map ch_message_order rows = dense (List.length ms).
Proof.
  intros H. unfold dense. rewrite <- numbered_rows_orders, <- H, map_map.
  reflexivity.
Qed.

Section HistoryRows.

Variable ProviderType : string -> bool.
Variable extract_display_info : json -> string -> outcome (string * string * string).
Variables h c : string.

Lemma exec_history_rows (cl : call) (db db' : DB)
    (ms : list (string * string * option json)) :
  exec ProviderType extract_display_info cl db = Ok db' ->
  map row_view (filter (ch_key h c) (BNChatHistory db)) = numbered_rows 0 ms ->
  map row_view (filter (ch_key h c) (BNChatHistory db'))
  = numbered_rows 0 (saved_history h c [cl] ms).
Proof.
  intros He HF.
  destruct cl as [? ? ? ?|?|hh cc role content md|hh cc|hh cc msg pt ? ?|hh cc|? ?|?];
    unfold exec in He;
    try (simpl in He; injection He as <-; simpl; exact HF).
  - unfold save_chat_message in He.
    rewrite (fresh_order (ch_key hh cc) ch_message_order) in He.
    simpl in He. injection He as <-. simpl. rewrite filter_app. simpl.
    unfold ch_key at 2. simpl.
    destruct (same_chat h c hh cc) eqn:S; unfold same_chat in S; rewrite S.
    + apply andb_true_iff in S. destruct S as [S1 S2].
      apply String.eqb_eq in S1, S2. subst hh cc.
      rewrite map_app, HF, numbered_rows_app. simpl. f_equal.
      unfold row_view. simpl.
      rewrite (row_view_orders _ _ HF), next_order_dense. reflexivity.
    + rewrite List.app_nil_r. exact HF.
  - simpl in He. injection He as <-. simpl.
    destruct (same_chat h c hh cc) eqn:S.
    + unfold same_chat in S. apply andb_true_iff in S. destruct S as [S1 S2].
      apply String.eqb_eq in S1, S2. subst hh cc.
      rewrite filter_deleted. reflexivity.
    + rewrite filter_deleted_other; [exact HF|].
      intros r Hr. unfold ch_key in *. unfold same_chat in S.
      apply andb_true_iff in Hr. destruct Hr as [H1 H2].
      apply String.eqb_eq in H1, H2. rewrite H1, H2.
      rewrite (String.eqb_sym h), (String.eqb_sym c). exact S.
  - unfold save_native_message in He.
    destruct (ProviderType pt); simpl in He; [|discriminate].
    destruct (extract_display_info msg pt) as [[[r t] ty]|]; simpl in He;
      [|discriminate].
    rewrite (fresh_order (cm_key hh cc) cm_message_order) in He.
    simpl in He. injection He as <-. simpl. exact HF.
Qed.

Lemma saved_history_cons (cl : call) (cs : list call)
    (ms : list (string * string * option json)) :
  saved_history h c (cl :: cs) ms = saved_history h c cs (saved_history h c [cl] ms).
Proof. destruct cl; reflexivity. Qed.

Lemma run_history_rows (cs : list call) (db db' : DB)
    (ms : list (string * string * option json)) :
  run ProviderType extract_display_info cs db = Ok db' ->
  map row_view (filter (ch_key h c) (BNChatHistory db)) = numbered_rows 0 ms ->
  map row_view (filter (ch_key h c) (BNChatHistory db'))
  = numbered_rows 0 (saved_history h c cs ms).
Proof.
  revert db ms. induction cs as [|cl cs IH]; intros db ms Hr HF.
  - injection Hr as <-. exact HF.
  - simpl in Hr.
    destruct (exec ProviderType extract_display_info cl db) as [db1|] eqn:E;
      simpl in Hr; [|discriminate].
    rewrite saved_history_cons.
    apply (IH db1 _ Hr). apply (exec_history_rows cl db db1 ms E HF).
Qed.

End HistoryRows.

Lemma read_history_rows (rows : list ChatHistoryRow) (i : nat)
    (ms : list (string * string * option json)) :
  map row_view rows = numbered_rows i ms ->
  forallb (fun m => match snd m with
                    | Some v => well_formed v
                    | None => true
                    end) ms = true ->
  exists msgs,
    map_outcome
      (fun row =>
         metadata <- loads_or_empty (ch_metadata row) ;;
         Ok (mk_history_message (ch_id row) (ch_message_order row)
                                (ch_role row) (ch_content row) metadata))
      rows = Ok msgs
    /\ map history_view msgs = numbered i ms
    /\ map hm_id msgs = map ch_id rows.
Proof.
  revert i ms. induction rows as [|r rows IH]; intros i ms H W.
  - destruct ms as [|[[? ?] ?] ms]; [|discriminate].
    exists []. repeat split.
  - destruct ms as [|[[role content] md] ms]; [discriminate|].
    simpl in H. injection H as Ho Hr Hc Hm Hrest.
    simpl in W. apply andb_true_iff in W. destruct W as [W1 W2].
    destruct (IH (S i) ms Hrest W2) as [msgs [E [V I]]].
    simpl. rewrite Hm.
    assert (L : loads_or_empty (metadata_json md) = Ok (stored_metadata md)).
    { apply loads_stored_metadata. intros m ->. exact W1. }
    unfold metadata_json in L. unfold metadata_json. rewrite L. simpl.
    rewrite E. simpl. eexists. split; [reflexivity|]. simpl.
    unfold history_view at 1. simpl. rewrite Ho, Hr, Hc, V, I. auto.
Qed.

(** X15.  From a store in which the chat has no message, after any sequence
    of calls that all return, [get_chat_history] returns the messages
    saved to the chat since it was last deleted, in the order of the
    calls, numbered from 0, each with its role, its content and its
    metadata (absent or empty metadata as an empty dictionary).  So a
    deleted chat reads as empty and the next message saved to it has order
    0 again.  The metadata are documents no dictionary of which has a key
    twice. *)
Theorem chat_history_replay (ProviderType : string -> bool)
    (extract_display_info : json -> string -> outcome (string * string * string))
    (h c : string) (cs : list call) (db db' : DB) :
  filter (ch_key h c) (BNChatHistory db) = [] ->
  run ProviderType extract_display_info cs db = Ok db' ->
  forallb (fun m => match snd m with
                    | Some v => well_formed v
                    | None => true
                    end) (saved_history h c cs []) = true ->
  exists msgs,
    get_chat_history db' h c = Ok msgs
    /\ map history_view msgs = numbered 0 (saved_history h c cs []).
Proof.
  intros H0 Hr W.
  assert (HF : map row_view (filter (ch_key h c) (BNChatHistory db'))
               = numbered_rows 0 (saved_history h c cs [])).
  { apply (run_history_rows ProviderType extract_display_info h c cs db db' []
             Hr). rewrite H0. reflexivity. }
  assert (HS : StronglySorted
                 (fun a b => (ch_message_order a <= ch_message_order b)%Z)
                 (filter (ch_key h c) (BNChatHistory db'))).
  { apply (sorted_dense _ _ (List.length (saved_history h c cs []))).
    apply row_view_orders. exact HF. }
  unfold get_chat_history. rewrite (order_by_sorted _ _ HS).
  destruct (read_history_rows _ 0 _ HF W) as [msgs [E [V _]]].
  rewrite E. exists msgs. split; [reflexivity|exact V].
Qed.

Lemma chat_history_replay_witness :
  run demo_ProviderType demo_extract_display_info demo_restart empty_db
    = Ok demo_restart_store
  /\ exists msgs,
       get_chat_history demo_restart_store "cafe" "chat-1" = Ok msgs
       /\ map history_view msgs
          = [(0%Z, "user", "Again", JDict [("source", JStr "ui")])].
Proof.
  split; [vm_compute; reflexivity|].
  apply (chat_history_replay demo_ProviderType demo_extract_display_info
           "cafe" "chat-1" demo_restart empty_db demo_restart_store);
    vm_compute; reflexivity.
Defined.

(** ** The transcript is a selection of the stored messages *)

Lemma subsequence_refl {A : Type} (l : list A) : subsequence l l.
Proof. induction l; [apply sub_nil|apply sub_keep; assumption]. Qed.

Lemma subsequence_nil {A : Type} (l : list A) : subsequence [] l.
Proof. induction l; [apply sub_nil|apply sub_skip; assumption]. Qed.

Lemma subsequence_trans {A : Type} (a b c : list A) :
  subsequence a b -> subsequence b c -> subsequence a c.
Proof.
  intros Hab Hbc. revert a Hab.
  induction Hbc as [|x s l _ IH|x s l _ IH]; intros a Hab.
  - exact Hab.
  - apply sub_skip. apply IH. exact Hab.
  - inversion Hab; subst; [apply sub_skip|apply sub_keep]; apply IH; assumption.
Qed.

Lemma subsequence_app_skip {A : Type} (pre s l : list A) :
  subsequence s l -> subsequence s (pre ++ l).
Proof. induction pre; intros H; [exact H|]. simpl. apply sub_skip. auto. Qed.

(** One element of [pre], followed by a selection of [post]. *)
Lemma subsequence_pick {A : Type} (x : A) (pre s post : list A) :
  In x pre -> subsequence s post -> subsequence (x :: s) (pre ++ post).
Proof.
  induction pre as [|y pre IH]; intros Hin Hs; [contradiction|].
  destruct Hin as [->|Hin]; simpl.
  - apply sub_keep. apply subsequence_app_skip. exact Hs.
  - apply sub_skip. apply IH; assumption.
Qed.

Lemma subsequence_In {A : Type} (s l : list A) (x : A) :
  subsequence s l -> In x s -> In x l.
Proof.
  induction 1 as [|y s l _ IH|y s l _ IH]; intros Hin.
  - exact Hin.
  - right. auto.
  - destruct Hin as [->|Hin]; [left; reflexivity|right; auto].
Qed.

Lemma subsequence_length {A : Type} (s l : list A) :
  subsequence s l -> (List.length s <= List.length l)%nat.
Proof. induction 1; simpl; lia. Qed.

Lemma subsequence_filter {A : Type} (p : A -> bool) (l : list A) :
  subsequence (filter p l) l.
Proof.
  induction l as [|x l IH]; [constructor|]. simpl.
  destruct (p x); [apply sub_keep|apply sub_skip]; exact IH.
Qed.

Lemma subsequence_map {A B : Type} (f : A -> B) (s l : list A) :
  subsequence s l -> subsequence (map f s) (map f l).
Proof.
  induction 1; simpl; [apply sub_nil|apply sub_skip|apply sub_keep]; assumption.
Qed.

Lemma subsequence_sorted {A : Type} (R : A -> A -> Prop) (s l : list A) :
  subsequence s l -> StronglySorted R l -> StronglySorted R s.
Proof.
  induction 1 as [|x s l Hs IH|x s l Hs IH]; intros H.
  - constructor.
  - inversion H; subst. auto.
  - inversion H as [|? ? Hl Hf]; subst. constructor; [auto|].
    rewrite Forall_forall in *. intros y Hy. apply Hf.
    apply (subsequence_In s l y Hs Hy).
Qed.

Lemma run_and_rest (l : list RawMessage) :
  l = (assistant_run l ++ after_run l)%list.
Proof.
  induction l as [|x l IH]; [reflexivity|]. simpl.
  destruct (is_assistant x); [simpl; f_equal; exact IH|reflexivity].
Qed.

Lemma after_run_length (l : list RawMessage) :
  (List.length (after_run l) <= List.length l)%nat.
Proof.
  induction l as [|x l IH]; simpl; [lia|].
  destruct (is_assistant x); simpl; lia.
Qed.

Lemma fold_choose_In (run : list RawMessage) (m : RawMessage) :
  In (fold_left _choose_better_assistant_message run m) (m :: run).
Proof.
  revert m. induction run as [|x run IH]; intros m; [left; reflexivity|].
  simpl. destruct (IH (_choose_better_assistant_message m x)) as [E|Hin].
  - rewrite <- E. destruct (choose_either m x) as [-> | ->]; auto.
  - auto.
Qed.

Lemma filter_other_run (l : list RawMessage) :
  filter (fun m => negb (is_assistant m)) l
  = filter (fun m => negb (is_assistant m)) (after_run l).
Proof.
  induction l as [|x l IH]; [reflexivity|]. simpl.
  destruct (is_assistant x) eqn:E; simpl; [exact IH|rewrite E; reflexivity].
Qed.

Lemma dedup_nil : _group_and_deduplicate_messages [] = [].
Proof. rewrite group_and_deduplicate_collapses. reflexivity. Qed.

Lemma dedup_selection (l : list RawMessage) :
  subsequence (_group_and_deduplicate_messages l) l
  /\ filter (fun m => negb (is_assistant m)) (_group_and_deduplicate_messages l)
     = filter (fun m => negb (is_assistant m)) l
  /\ no_adjacent_assistants (_group_and_deduplicate_messages l) = true.
Proof.
  remember (List.length l) as n eqn:Hn. revert l Hn.
  induction n as [n IH] using lt_wf_ind. intros l Hn.
  destruct l as [|m l]; [rewrite dedup_nil; repeat split; constructor|].
  destruct (is_assistant m) eqn:A.
  - rewrite (dedup_assistant m l A).
    set (best := fold_left _choose_better_assistant_message (assistant_run l) m).
    assert (B : is_assistant best = true)
      by (apply fold_choose_assistant; [exact A|apply assistant_run_all]).
    destruct (IH (List.length (after_run l))
                 ltac:(subst n; simpl; pose proof (after_run_length l); lia)
                 (after_run l) eq_refl) as [S [F N]].
    split; [|split].
    + rewrite (run_and_rest l) at 2.
      apply (subsequence_pick best (m :: assistant_run l)).
      * apply fold_choose_In.
      * exact S.
    + simpl. rewrite A, B. simpl. rewrite F. symmetry. apply filter_other_run.
    + simpl. rewrite N, B.
      rewrite (dedup_starts_other _ (after_run_starts_other l)). reflexivity.
  - rewrite (dedup_other m l A).
    destruct (IH (List.length l) ltac:(subst n; simpl; lia) l eq_refl)
      as [S [F N]].
    split; [|split].
    + apply sub_keep. exact S.
    + simpl. rewrite A. simpl. f_equal. exact F.
    + simpl. rewrite A, N. reflexivity.
Qed.

(** X16.  Deduplication only leaves messages out: its result is the input
    with some assistant messages removed, the others in their order; every
    message that is not an assistant message is kept; and in the result no
    assistant message directly follows another. *)
Theorem dedup_selects (l : list RawMessage) :
  subsequence (_group_and_deduplicate_messages l) l
  /\ filter (fun m => negb (is_assistant m)) (_group_and_deduplicate_messages l)
     = filter (fun m => negb (is_assistant m)) l
  /\ no_adjacent_assistants (_group_and_deduplicate_messages l) = true.
Proof.
  exact (dedup_selection l).
Qed.

(** ** What the display shows *)

Lemma insert_by_In {A : Type} (key : A -> Z) (x y : A) (l : list A) :
  In y (insert_by key x l) <-> y = x \/ In y l.
Proof.
  induction l as [|z l IH]; simpl; [intuition|].
  destruct (key x <? key z)%Z; simpl; rewrite ?IH; intuition.
Qed.

Lemma insert_by_sorted {A : Type} (key : A -> Z) (x : A) (l : list A) :
  StronglySorted (fun a b => (key a <= key b)%Z) l ->
  StronglySorted (fun a b => (key a <= key b)%Z) (insert_by key x l).
Proof.
  induction 1 as [|z l Hs IH Hf]; simpl; [repeat constructor|].
  destruct (key x <? key z)%Z eqn:E.
  - apply Z.ltb_lt in E. constructor; [constructor; assumption|].
    constructor; [lia|]. rewrite Forall_forall in *. intros y Hy.
    specialize (Hf y Hy). simpl in Hf. lia.
  - apply Z.ltb_ge in E. constructor; [exact IH|].
    rewrite Forall_forall in *. intros y Hy. apply insert_by_In in Hy.
    destruct Hy as [->|Hy]; [exact E|apply Hf; exact Hy].
Qed.

Lemma order_by_spec {A : Type} (key : A -> Z) (l : list A) :
  StronglySorted (fun a b => (key a <= key b)%Z) (order_by key l)
  /\ (forall x, In x (order_by key l) <-> In x l)
  /\ List.length (order_by key l) = List.length l.
Proof.
  unfold order_by.
  assert (G : forall l acc,
             StronglySorted (fun a b => (key a <= key b)%Z) acc ->
             StronglySorted (fun a b => (key a <= key b)%Z)
               (fold_left (fun sorted x => insert_by key x sorted) l acc)
             /\ (forall x, In x (fold_left (fun sorted x => insert_by key x sorted)
                                           l acc)
                           <-> In x acc \/ In x l)
             /\ List.length (fold_left (fun sorted x => insert_by key x sorted)
                                       l acc)
                = (List.length acc + List.length l)%nat).
  { clear l. induction l as [|y l IH]; intros acc H; simpl.
    - split; [exact H|]. split; [intuition|lia].
    - destruct (IH (insert_by key y acc) (insert_by_sorted key y acc H))
        as [Hs [I L]].
      split; [exact Hs|]. split.
      + intros x. rewrite I, insert_by_In. intuition.
      + rewrite L.
        assert (E : List.length (insert_by key y acc) = S (List.length acc)).
        { clear. induction acc as [|z acc IHa]; simpl; [reflexivity|].
          destruct (key y <? key z)%Z; simpl; [reflexivity|].
          rewrite IHa. reflexivity. }
        rewrite E. lia. }
  destruct (G l [] ltac:(constructor)) as [S [I L]].
  split; [exact S|]. split; [|exact L].
  intros x. rewrite I. simpl. intuition.
Qed.

(** Rows and the messages built from them, one for one. *)
Lemma raw_of_rows (rows : list ChatMessageRow) (raws : list RawMessage) :
  map_outcome raw_of_row rows = Ok raws ->
  Forall2 (fun row m => id m = cm_id row
                        /\ message_order m = cm_message_order row
                        /\ role m = cm_role row) rows raws.
Proof.
  revert raws. induction rows as [|r rows IH]; intros raws H.
  - injection H as <-. constructor.
  - simpl in H. unfold raw_of_row at 1 in H.
    destruct (if negb (cm_native_message_data r =? "")
              then json_loads (cm_native_message_data r)
              else Ok (JDict [])) as [v|]; simpl in H; [|discriminate].
    destruct (map_outcome raw_of_row rows) as [rest|]; simpl in H; [|discriminate].
    injection H as <-. constructor; [simpl; auto|]. apply IH. reflexivity.
Qed.

Lemma raw_of_rows_returns (rows : list ChatMessageRow) :
  (forall row, In row rows ->
     cm_native_message_data row = ""
     \/ exists v, loads (cm_native_message_data row) = Some v) ->
  exists raws, map_outcome raw_of_row rows = Ok raws.
Proof.
  induction rows as [|r rows IH]; intros H; [exists []; reflexivity|].
  destruct IH as [rest E]; [intros row Hr; apply H; right; exact Hr|].
  simpl. unfold raw_of_row at 1.
  destruct (H r (or_introl eq_refl)) as [E0|[v Ev]].
  - rewrite E0. simpl. rewrite E. simpl. eexists. reflexivity.
  - destruct (cm_native_message_data r =? ""); simpl.
    + rewrite E. simpl. eexists. reflexivity.
    + unfold json_loads. rewrite Ev. simpl. rewrite E. simpl. eexists.
      reflexivity.
Qed.

Lemma Forall2_In_r {A B : Type} (R : A -> B -> Prop) (l : list A) (l' : list B)
    (y : B) :
  Forall2 R l l' -> In y l' -> exists x, In x l /\ R x y.
Proof.
  induction 1 as [|a b l l' Hab _ IH]; intros Hin; [contradiction|].
  destruct Hin as [->|Hin]; [exists a; split; [left; reflexivity|exact Hab]|].
  destruct (IH Hin) as [x [Hx Hr]]. exists x. split; [right; exact Hx|exact Hr].
Qed.

Lemma Forall2_orders (rows : list ChatMessageRow) (raws : list RawMessage) :
  Forall2 (fun row m => id m = cm_id row
                        /\ message_order m = cm_message_order row
                        /\ role m = cm_role row) rows raws ->
  map message_order raws = map cm_message_order rows
  /\ List.length raws = List.length rows.
Proof.
  induction 1 as [|a b l l' [_ [Ho _]] _ [IH1 IH2]]; [split; reflexivity|].
  simpl. rewrite Ho, IH1, IH2. split; reflexivity.
Qed.

Lemma sorted_map {A : Type} (key : A -> Z) (l : list A) :
  StronglySorted (fun a b => (key a <= key b)%Z) l <->
  StronglySorted Z.le (map key l).
Proof.
  induction l as [|x l IH]; simpl.
  - split; constructor.
  - split; intros H; inversion H as [|? ? Hs Hf]; subst; constructor;
      try (apply IH; exact Hs).
    + rewrite Forall_forall in *. intros y Hy. apply in_map_iff in Hy.
      destruct Hy as [z [<- Hz]]. apply Hf. exact Hz.
    + rewrite Forall_forall in *. intros y Hy. apply Hf. apply in_map. exact Hy.
Qed.

(** X17.  [get_display_messages] returns whenever the payload of every row
    of the chat can be read.  What it returns is a selection of the rows of
    the chat: every displayed message carries the id, the order and the
    role of a stored row of that chat; none is a system message and none
    has an empty content; the messages come in the order of their
    message_order; and there are at most as many as rows. *)
Theorem get_display_messages_selects (db : DB) (h c : string) :
  ((forall row, In row (BNChatMessages db) -> cm_key h c row = true ->
      cm_native_message_data row = ""
      \/ exists v, loads (cm_native_message_data row) = Some v) ->
   exists msgs, get_display_messages db h c = Ok msgs)
  /\ (forall msgs,
        get_display_messages db h c = Ok msgs ->
        (forall m, In m msgs ->
           dm_role m <> "system" /\ dm_content m <> ""
           /\ exists row,
                In row (BNChatMessages db) /\ cm_key h c row = true
                /\ cm_id row = dm_id m
                /\ cm_message_order row = dm_message_order m
                /\ cm_role row = dm_role m)
        /\ StronglySorted Z.le (map dm_message_order msgs)
        /\ (List.length msgs
            <= List.length (filter (cm_key h c) (BNChatMessages db)))%nat).
Proof.
  destruct (order_by_spec cm_message_order
              (filter (cm_key h c) (BNChatMessages db))) as [S [I L]].
  unfold get_display_messages.
  set (rows := order_by cm_message_order
                 (filter (cm_key h c) (BNChatMessages db))) in *.
  split.
  - intros H. destruct (raw_of_rows_returns rows) as [raws E].
    + intros row Hr. apply I in Hr. apply filter_In in Hr. apply H; tauto.
    + rewrite E. simpl. eexists. reflexivity.
  - intros msgs H.
    destruct (map_outcome raw_of_row rows) as [raws|] eqn:E; simpl in H;
      [|discriminate].
    injection H as <-.
    pose proof (raw_of_rows rows raws E) as F.
    destruct (Forall2_orders rows raws F) as [Ho Hl].
    set (shown := filter (fun m => negb (role m =? "system")) raws).
    assert (Sub : subsequence (_group_and_deduplicate_messages shown) raws).
    { apply (subsequence_trans _ shown).
      - apply dedup_selection.
      - apply subsequence_filter. }
    unfold synthesize. fold shown.
    split; [|split].
    + intros m Hm. apply filter_In in Hm. destruct Hm as [Hm Hc].
      apply in_map_iff in Hm. destruct Hm as [raw [<- Hraw]].
      assert (Hshown : In raw shown).
      { apply (subsequence_In (_group_and_deduplicate_messages shown) shown raw);
          [apply dedup_selection|exact Hraw]. }
      apply filter_In in Hshown. destruct Hshown as [Hin Hsys].
      split; [|split].
      * simpl. intros Es. rewrite Es in Hsys. discriminate.
      * intros Ee. rewrite Ee in Hc. discriminate.
      * destruct (Forall2_In_r _ _ _ raw F Hin) as [row [Hrow [Hi [Hor Hr]]]].
        apply I in Hrow. apply filter_In in Hrow.
        exists row. simpl. intuition.
    + apply (subsequence_sorted _ _ (map dm_message_order
                                        (map display_of_raw
                                           (_group_and_deduplicate_messages shown)))).
      * apply subsequence_map. apply subsequence_filter.
      * rewrite map_map. simpl.
        apply (subsequence_sorted _ _ (map message_order raws)).
        -- apply (subsequence_map message_order). exact Sub.
        -- rewrite Ho. apply (proj1 (sorted_map cm_message_order rows)). exact S.
    + rewrite <- L, <- Hl.
      pose proof (subsequence_length _ _ Sub) as L1.
      pose proof (filter_length_le (fun m => negb (dm_content m =? ""))
                    (map display_of_raw (_group_and_deduplicate_messages shown)))
        as L2.
      rewrite length_map in L2. lia.
Qed.

Lemma get_display_messages_selects_witness :
  exists msgs,
    get_display_messages demo_transcript "cafe" "chat-1" = Ok msgs
    /\ StronglySorted Z.le (map dm_message_order msgs)
    /\ (List.length msgs <= 4)%nat.
Proof.
  destruct (get_display_messages_selects demo_transcript "cafe" "chat-1")
    as [R P].
  destruct R as [msgs E].
  - intros row Hr _. right. simpl in Hr.
    destruct Hr as [<-|[<-|[<-|[<-|[]]]]]; exists (JDict []); reflexivity.
  - exists msgs. destruct (P msgs E) as [_ [S L]].
    split; [exact E|]. split; [exact S|exact L].
Defined.

(** ** The system prompt, across the two services *)

Lemma active_rows_after_activation (l : list SystemPromptRow) (v : string) :
  filter sp_is_active (map (activate v) (map deactivate l))
  = map (fun r => mk_prompt (sp_id r) (sp_prompt r) (sp_version r) true)
        (filter (fun r => sp_version r =? v) l).
Proof.
  rewrite map_map.
  induction l as [|r l IH]; [reflexivity|]. simpl.
  unfold activate at 1 2. simpl.
  destruct (sp_version r =? v); simpl; rewrite IH; reflexivity.
Qed.

Section SystemPromptProperties.
Import Settings SettingsService SystemPrompt.

Variable float : Type.
Variable float_of_str : string -> option float.
Variable str_of_float : float -> string.
Variable created_at : Z -> string.

(** X18.  A prompt saved through the settings service under a version no
    stored prompt carries is the one [get_system_prompt] returns
    afterwards, the empty prompt included: its row is the only active row
    of SystemPrompts, and the setting system_prompt holds the same text.
    The version is the one given, or the time stamp when none is given. *)
Theorem saved_system_prompt_is_returned (adb : AnalysisDB.DB) (sdb : DB)
    (prompt : string) (version : option string) (stamp : string) :
  (forall r, In r (SystemPrompts adb) ->
     sp_version r <> version_used version stamp) ->
  exists adb' sdb',
    save_system_prompt float str_of_float adb sdb prompt version stamp
      = (adb', sdb', true)
    /\ filter sp_is_active (SystemPrompts adb')
       = [mk_prompt (seq_SystemPrompts adb + 1) prompt
                    (version_used version stamp) true]
    /\ get_active_system_prompt created_at adb' = Some prompt
    /\ get_setting float float_of_str sdb' "system_prompt" (Plain JNull)
       = Plain (JStr prompt)
    /\ get_system_prompt float float_of_str created_at adb' sdb'
       = Plain (JStr prompt).
Proof.
  intros Fresh. unfold save_system_prompt. fold (version_used version stamp).
  set (v := version_used version stamp) in *.
  unfold AnalysisDB.save_system_prompt, set_active_system_prompt. simpl.
  eexists. eexists. split; [reflexivity|]. simpl.
  assert (A : filter sp_is_active
                (map (activate v)
                     (map deactivate
                        (SystemPrompts adb
                         ++ [mk_prompt (seq_SystemPrompts adb + 1) prompt v false])))
              = [mk_prompt (seq_SystemPrompts adb + 1) prompt v true]).
  { rewrite active_rows_after_activation, filter_app. simpl.
    rewrite String.eqb_refl.
    rewrite (filter_nil (fun r => sp_version r =? v) (SystemPrompts adb)).
    - reflexivity.
    - intros r Hr. apply String.eqb_neq. apply Fresh. exact Hr. }
  assert (G : forall default,
            get_setting float float_of_str
              (with_settings sdb
                 (replace_setting
                    (mk_setting "system_prompt" prompt "string" "system")
                    (settings sdb)))
              "system_prompt" default = Plain (JStr prompt)).
  { intros default.
    exact (get_setting_set_setting float float_of_str str_of_float sdb
             "system_prompt" "system" (JStr prompt) default eq_refl). }
  split; [exact A|]. split; [|split].
  - unfold get_active_system_prompt. simpl. rewrite A. reflexivity.
  - apply G.
  - unfold get_system_prompt, get_active_system_prompt. simpl. rewrite A. simpl.
    rewrite G. destruct (prompt =? "") eqn:E; [|reflexivity].
    apply String.eqb_eq in E. rewrite E. reflexivity.
Qed.

(** X19.  Activating a version that no stored prompt carries answers
    False and leaves no prompt active, whichever was active before;
    [get_active_system_prompt] then gives None and [get_system_prompt]
    falls back on the setting system_prompt, or on the built-in prompt
    when the setting is missing. *)
Theorem set_active_system_prompt_unknown_version (adb : AnalysisDB.DB)
    (sdb : DB) (version : string) :
  (forall r, In r (SystemPrompts adb) -> sp_version r <> version) ->
  exists adb',
    set_active_system_prompt adb version = Ok (adb', false)
    /\ filter sp_is_active (SystemPrompts adb') = []
    /\ get_active_system_prompt created_at adb' = None
    /\ get_system_prompt float float_of_str created_at adb' sdb
       = get_setting float float_of_str sdb "system_prompt"
                     (Plain (JStr default_system_prompt)).
Proof.
  intros Unknown. unfold set_active_system_prompt.
  assert (N : filter (fun r => sp_version r =? version) (SystemPrompts adb) = []).
  { apply filter_nil. intros r Hr. apply String.eqb_neq. apply Unknown. exact Hr. }
  assert (N' : filter (fun r => sp_version r =? version)
                      (map deactivate (SystemPrompts adb)) = []).
  { clear -N. induction (SystemPrompts adb) as [|r l IH]; [reflexivity|].
    simpl in *. destruct (sp_version r =? version); [discriminate|]. auto. }
  rewrite N'. simpl. eexists. split; [reflexivity|]. simpl.
  assert (A : filter sp_is_active
                (map (activate version) (map deactivate (SystemPrompts adb))) = []).
  { rewrite active_rows_after_activation, N. reflexivity. }
  split; [exact A|]. split.
  - unfold get_active_system_prompt. simpl. rewrite A. reflexivity.
  - unfold get_system_prompt, get_active_system_prompt. simpl. rewrite A.
    reflexivity.
Qed.

End SystemPromptProperties.

Lemma saved_system_prompt_is_returned_witness :
  exists adb' sdb',
    SystemPrompt.save_system_prompt no_float str_of_no_float demo_prompt_store
      demo_settings "You are a decompiler." None "20240102_093000"
    = (adb', sdb', true)
    /\ SystemPrompt.get_system_prompt no_float no_float_of_str demo_created_at
         adb' sdb'
       = SettingsService.Plain (JStr "You are a decompiler.").
Proof.
  destruct (saved_system_prompt_is_returned no_float no_float_of_str
              str_of_no_float demo_created_at demo_prompt_store demo_settings
              "You are a decompiler." None "20240102_093000")
    as [adb' [sdb' [E [_ [_ [_ G]]]]]].
  - intros r Hr. simpl in Hr. destruct Hr as [<-|[<-|[]]]; discriminate.
  - exists adb', sdb'. split; [exact E|exact G].
Defined.

Lemma set_active_system_prompt_unknown_version_witness :
  exists adb',
    set_active_system_prompt demo_prompt_store "v9" = Ok (adb', false)
    /\ get_active_system_prompt demo_created_at demo_prompt_store
       = Some "You are an analyst."
    /\ get_active_system_prompt demo_created_at adb' = None.
Proof.
  destruct (set_active_system_prompt_unknown_version no_float no_float_of_str
              demo_created_at demo_prompt_store demo_settings "v9")
    as [adb' [E [_ [G _]]]].
  - intros r Hr. simpl in Hr. destruct Hr as [<-|[<-|[]]]; discriminate.
  - exists adb'. split; [exact E|]. split; [reflexivity|exact G].
Defined.

(** ** Assistant messages without tool calls *)

Lemma plain_blocks_collect (blocks : list json) :
  forallb plain_block blocks = true ->
  for_each (fun st block =>
              r <- anthropic_block (snd st) block ;;
              Ok (fst st || fst r, snd r))
           blocks (false, []) = Ok (false, []).
Proof.
  induction blocks as [|b blocks IH]; intros H; [reflexivity|].
  simpl in H. apply andb_true_iff in H. destruct H as [Hb H].
  simpl. destruct b as [| | | |l|d]; simpl; try (apply IH; exact H).
  simpl in Hb. apply negb_true_iff in Hb. rewrite Hb. simpl. apply IH. exact H.
Qed.

Lemma chars_plain (s : string) : forallb plain_block (chars s) = true.
Proof. induction s as [|ch s IH]; [reflexivity|exact IH]. Qed.

Lemma tool_calls_of_none (each : list tool_call -> json -> outcome (list tool_call))
    (d : list (string * json)) :
  truthy (dget d "tool_calls" JNull) = false ->
  tool_calls_of each (JDict d) = Ok None.
Proof.
  intros H. unfold tool_calls_of, dget in *. simpl.
  destruct (dict_get "tool_calls" d) as [v|]; simpl; [|reflexivity].
  rewrite H. reflexivity.
Qed.

Lemma collect_no_tool_calls (provider_type : string) (d : list (string * json)) :
  no_tool_calls provider_type d = true ->
  collect_tool_calls (JDict d) provider_type = Ok (false, []).
Proof.
  unfold no_tool_calls, collect_tool_calls.
  destruct (provider_type =? "anthropic").
  - simpl. destruct (dict_get "content" d) as [v|]; [|reflexivity].
    destruct v as [| | |s|blocks|]; try discriminate; simpl; intros H.
    + apply plain_blocks_collect. apply chars_plain.
    + apply plain_blocks_collect. exact H.
  - destruct (provider_type =? "openai").
    + intros H. apply negb_true_iff in H.
      rewrite (tool_calls_of_none _ d H). reflexivity.
    + destruct (provider_type =? "ollama"); [|reflexivity].
      intros H. apply andb_true_iff in H. destruct H as [H1 H2].
      apply negb_true_iff in H1. rewrite (tool_calls_of_none _ d H1). simpl.
      destruct (dict_get "message" d) as [v|]; [|reflexivity]. simpl.
      destruct v as [| | | | |m]; try reflexivity. simpl.
      apply negb_true_iff in H2. rewrite (tool_calls_of_none _ m H2). reflexivity.
Qed.

(** X20.  An assistant message whose payload announces no tool call (for
    Anthropic a content that is a string, or blocks none of which is a
    tool use; for OpenAI and Ollama no tool_calls or an empty one; any
    other provider type, whatever the payload holds) is displayed as its
    content_text, trimmed and without a leading tool indicator: nothing is
    put in front of it and the formatter does not raise. *)
Theorem assistant_without_tool_calls (content_text message_type
    provider_type : string) (d : list (string * json)) :
  no_tool_calls provider_type d = true ->
  _format_assistant_message_for_display content_text (JDict d) provider_type
    = Ok (clean_tool_indicator content_text)
  /\ _format_message_for_display "assistant" content_text message_type
       provider_type (JDict d)
     = clean_tool_indicator content_text.
Proof.
  intros H.
  assert (E : _format_assistant_message_for_display content_text (JDict d)
                provider_type = Ok (clean_tool_indicator content_text)).
  { unfold _format_assistant_message_for_display.
    rewrite (collect_no_tool_calls provider_type d H). reflexivity. }
  split; [exact E|].
  unfold _format_message_for_display, format_by_role.
  change ("assistant" =? "user") with false.
  change ("assistant" =? "assistant") with true. cbv iota.
  rewrite E. reflexivity.
Qed.

Lemma assistant_without_tool_calls_witness :
  _format_message_for_display "assistant" "[Tools: 1]  Only _start does. "
    "text" "anthropic" (JDict [("role", JStr "assistant");
                               ("content", JStr "Only _start does.")])
  = "Only _start does.".
Proof.
  exact (proj2 (assistant_without_tool_calls "[Tools: 1]  Only _start does. "
                  "text" "anthropic"
                  [("role", JStr "assistant");
                   ("content", JStr "Only _start does.")] eq_refl)).
Defined.

(** ** Replay of native messages across deletions *)

Lemma holds_orders_app (rows : list ChatMessageRow) (ms : list (string * json))
    (row : ChatMessageRow) (pm : string * json) :
  Forall2 holds rows ms -> holds row pm ->
  Forall2 holds (rows ++ [row]) (ms ++ [pm]).
Proof.
  intros H Hr. apply Forall2_app; [exact H|]. constructor; [exact Hr|constructor].
Qed.

Section NativeSinceDelete.

Variable ProviderType : string -> bool.
Variable extract_display_info : json -> string -> outcome (string * string * string).
Variables h c : string.

Lemma exec_native_since_delete (cl : call) (db db' : DB)
    (ms : list (string * json)) :
  exec ProviderType extract_display_info cl db = Ok db' ->
  Forall2 holds (native_rows db h c) ms
  /\ native_orders db h c = dense (List.length ms) ->
  Forall2 holds (native_rows db' h c) (saved_since_delete h c [cl] ms)
  /\ native_orders db' h c = dense (List.length (saved_since_delete h c [cl] ms)).
Proof.
  intros He [HF HO].
  destruct cl as [? ? ? ?|?|hh cc ? ? ?|hh cc|hh cc msg pt ? ?|hh cc|? ?|?];
    unfold exec in He;
    try (simpl in He; injection He as <-; simpl; split; assumption).
  - unfold save_chat_message in He.
    rewrite (fresh_order (ch_key hh cc) ch_message_order) in He.
    simpl in He. injection He as <-. simpl. split; assumption.
  - unfold save_native_message in He.
    destruct (ProviderType pt); simpl in He; [|discriminate].
    destruct (extract_display_info msg pt) as [[[r t] ty]|]; simpl in He;
      [|discriminate].
    rewrite (fresh_order (cm_key hh cc) cm_message_order) in He.
    simpl in He. injection He as <-.
    unfold native_rows, native_orders in *. simpl. rewrite filter_app. simpl.
    match goal with
    | |- context [if cm_key h c ?x then _ else _] =>
        change (cm_key h c x) with (same_chat h c hh cc)
    end.
    destruct (same_chat h c hh cc) eqn:S.
    + unfold same_chat in S. apply andb_true_iff in S. destruct S as [S1 S2].
      apply String.eqb_eq in S1, S2. subst hh cc. split.
      * apply holds_orders_app; [exact HF|]. split; reflexivity.
      * rewrite map_app, length_app. simpl. rewrite Nat.add_1_r, dense_S.
        rewrite HO, next_order_dense. reflexivity.
    + rewrite !List.app_nil_r. split; assumption.
  - simpl in He. injection He as <-. unfold native_rows, native_orders in *.
    simpl. destruct (same_chat h c hh cc) eqn:S.
    + unfold same_chat in S. apply andb_true_iff in S. destruct S as [S1 S2].
      apply String.eqb_eq in S1, S2. subst hh cc.
      rewrite filter_deleted. split; [constructor|reflexivity].
    + rewrite filter_deleted_other; [split; assumption|].
      intros r Hr. unfold cm_key in *. unfold same_chat in S.
      apply andb_true_iff in Hr. destruct Hr as [H1 H2].
      apply String.eqb_eq in H1, H2. rewrite H1, H2.
      rewrite (String.eqb_sym h), (String.eqb_sym c). exact S.
Qed.

Lemma saved_since_delete_cons (cl : call) (cs : list call)
    (ms : list (string * json)) :
  saved_since_delete h c (cl :: cs) ms
  = saved_since_delete h c cs (saved_since_delete h c [cl] ms).
Proof. destruct cl; reflexivity. Qed.

Lemma run_native_since_delete (cs : list call) (db db' : DB)
    (ms : list (string * json)) :
  run ProviderType extract_display_info cs db = Ok db' ->
  Forall2 holds (native_rows db h c) ms
  /\ native_orders db h c = dense (List.length ms) ->
  Forall2 holds (native_rows db' h c) (saved_since_delete h c cs ms)
  /\ native_orders db' h c = dense (List.length (saved_since_delete h c cs ms)).
Proof.
  revert db ms. induction cs as [|cl cs IH]; intros db ms Hr HF.
  - injection Hr as <-. exact HF.
  - simpl in Hr.
    destruct (exec ProviderType extract_display_info cl db) as [db1|] eqn:E;
      simpl in Hr; [|discriminate].
    rewrite saved_since_delete_cons.
    apply (IH db1 _ Hr). apply (exec_native_since_delete cl db db1 ms E HF).
Qed.

End NativeSinceDelete.

(** X21.  With deletions among the calls: from a store in which the chat
    has no native row, after any sequence of calls that all return,
    [get_native_messages_for_provider] returns the payloads saved to the
    chat for that provider since [delete_native_chat] last emptied it, in
    the order of the calls, and the rows of the chat are numbered from 0
    without a gap; so a deleted chat reads as empty and starts again at
    order 0.  The payloads are documents no dictionary of which has a key
    twice. *)
Theorem native_replay_since_delete (ProviderType : string -> bool)
    (extract_display_info : json -> string -> outcome (string * string * string))
    (h c p : string) (cs : list call) (db db' : DB) :
  native_rows db h c = [] ->
  run ProviderType extract_display_info cs db = Ok db' ->
  forallb (fun pm => well_formed (snd pm)) (saved_since_delete h c cs []) = true ->
  get_native_messages_for_provider db' h c p
    = Ok (map snd (filter (fun pm => fst pm =? p) (saved_since_delete h c cs [])))
  /\ native_orders db' h c = dense (List.length (saved_since_delete h c cs [])).
Proof.
  intros H0 Hr Hw.
  destruct (run_native_since_delete ProviderType extract_display_info h c cs
              db db' [] Hr) as [HF HO].
  { unfold native_orders. fold (native_rows db h c). rewrite H0.
    split; [constructor|reflexivity]. }
  split; [|exact HO].
  assert (HS : StronglySorted
                 (fun a b => (cm_message_order a <= cm_message_order b)%Z)
                 (native_rows db' h c)) by (apply (sorted_dense _ _ _ HO)).
  unfold get_native_messages_for_provider.
  rewrite filter_and. fold (native_rows db' h c).
  rewrite (order_by_sorted _ _ (sorted_filter _ _ _ HS)).
  rewrite (read_rows _ _ (fun q => q =? p) HF Hw). reflexivity.
Qed.

(** ** Providers: adding, listing, deleting *)




Section ProviderLifecycle.
Import Settings SettingsService.


End ProviderLifecycle.

Lemma native_replay_since_delete_witness :
  run demo_ProviderType demo_extract_display_info demo_restart empty_db
    = Ok demo_restart_store
  /\ get_native_messages_for_provider demo_restart_store "cafe" "chat-1" "openai"
     = Ok [demo_answer]
  /\ native_orders demo_restart_store "cafe" "chat-1" = [0%Z].
Proof.
  split; [vm_compute; reflexivity|].
  apply (native_replay_since_delete demo_ProviderType demo_extract_display_info
           "cafe" "chat-1" "openai" demo_restart empty_db demo_restart_store);
    vm_compute; reflexivity.
Defined.


(** ** The settings store keeps the constraints of its schema *)

Lemma keys_distinct_after_filter {Row Key : Type} (key : Row -> Key)
    (selected : Row -> bool) (rows : list Row) (k : Key) :
  ~ In k (map key rows) -> ~ In k (map key (filter selected rows)).
Proof.
  intros H Hin. apply H. apply in_map_iff in Hin. destruct Hin as [x [E Hx]].
  apply filter_In in Hx. rewrite <- E. apply in_map. tauto.
Qed.

Lemma keys_distinct_app {Row Key : Type} (key : Row -> Key) (rows : list Row)
    (x : Row) :
  NoDup (map key rows) -> ~ In (key x) (map key rows) ->
  NoDup (map key (rows ++ [x])).
Proof.
  intros N H. rewrite map_app. simpl.
  apply NoDup_app; [exact N|repeat constructor; intros []|].
  intros k Hk [<-|[]]. exact (H Hk).
Qed.

Lemma keys_distinct_app_many {Row Key : Type} (key : Row -> Key)
    (rows more : list Row) :
  NoDup (map key rows) -> NoDup (map key more) ->
  (forall x, In x more -> ~ In (key x) (map key rows)) ->
  NoDup (map key (rows ++ more)).
Proof.
  intros N M H. rewrite map_app. apply NoDup_app; [exact N|exact M|].
  intros k Hk Hm. apply in_map_iff in Hm. destruct Hm as [x [<- Hx]].
  exact (H x Hx Hk).
Qed.

Section SchemaInvariant.
Import Settings SettingsService.

Variable float : Type.
Variable str_of_float : float -> string.
Variable user_file : string -> string.

Lemma replace_setting_keys (row : SettingRow) (t : list SettingRow) :
  NoDup (map st_key t) -> NoDup (map st_key (replace_setting row t)).
Proof.
  intros N. unfold replace_setting. apply keys_distinct_app.
  - apply selected_keys_distinct. exact N.
  - intros Hin. apply in_map_iff in Hin. destruct Hin as [x [E Hx]].
    apply filter_In in Hx. destruct Hx as [_ Hx].
    rewrite E, String.eqb_refl in Hx. discriminate.
Qed.

Lemma set_is_active_columns (b : bool) (l : list LLMProviderRow) :
  map lp_name (map (set_is_active b) l) = map lp_name l
  /\ map lp_id (map (set_is_active b) l) = map lp_id l.
Proof. rewrite !map_map. split; reflexivity. Qed.

Lemma activation_columns (name : string) (l : list LLMProviderRow) :
  map lp_name (map (fun r => if (lp_name r =? name)
                             then set_is_active true r else r) l)
  = map lp_name l
  /\ map lp_id (map (fun r => if (lp_name r =? name)
                              then set_is_active true r else r) l)
     = map lp_id l.
Proof.
  rewrite !map_map.
  split; apply map_ext; intros r; destruct (lp_name r =? name); reflexivity.
Qed.

Lemma bounded_by_ids (l : list LLMProviderRow) (bound : Z) :
  (forall r, In r l -> (lp_id r <= bound)%Z) <->
  (forall i, In i (map lp_id l) -> (i <= bound)%Z).
Proof.
  split.
  - intros H i Hi. apply in_map_iff in Hi. destruct Hi as [r [<- Hr]].
    apply H. exact Hr.
  - intros H r Hr. apply H. apply in_map. exact Hr.
Qed.

(** The names after an update of the row of one id. *)
Lemma update_names (provider_id : Z) (kwargs : LLMProviderFields)
    (l : list LLMProviderRow) :
  NoDup (map lp_name l) -> NoDup (map lp_id l) ->
  match kw_name kwargs with
  | Some name =>
      existsb (has_id provider_id) l
      && existsb (fun r => negb (has_id provider_id r) && (lp_name r =? name)) l
  | None => false
  end = false ->
  NoDup (map lp_name
           (map (fun r => if has_id provider_id r then llm_assign kwargs r else r) l)).
Proof.
  intros Nn Ni Free.
  destruct (kw_name kwargs) as [name|] eqn:K.
  - destruct (existsb (has_id provider_id) l) eqn:Ex.
    + simpl in Free.
      assert (Other : forall r, In r l -> has_id provider_id r = false ->
                                lp_name r <> name).
      { intros r Hr Hid E.
        assert (existsb (fun r => negb (has_id provider_id r) && (lp_name r =? name))
                        l = true).
        { apply existsb_exists. exists r. split; [exact Hr|].
          rewrite Hid, E, String.eqb_refl. reflexivity. }
        congruence. }
      clear Free Ex. induction l as [|x l IH]; [constructor|].
      simpl in Nn, Ni. inversion Nn as [|? ? Hxn Nn']. inversion Ni as [|? ? Hxi Ni'].
      subst. simpl. destruct (has_id provider_id x) eqn:Hx.
      * unfold llm_assign at 1. simpl. rewrite K. simpl.
        assert (Rest : map (fun r => if has_id provider_id r
                                     then llm_assign kwargs r else r) l = l).
        { rewrite <- (map_id l) at 2. apply map_ext_in. intros y Hy.
          destruct (has_id provider_id y) eqn:Hy'; [|reflexivity].
          exfalso. apply Hxi. unfold has_id in *.
          apply Z.eqb_eq in Hx, Hy'. rewrite Hx, <- Hy'. apply in_map. exact Hy. }
        rewrite Rest. constructor; [|exact Nn'].
        intros Hin. apply in_map_iff in Hin. destruct Hin as [y [E Hy]].
        assert (Hy' : has_id provider_id y = false).
        { destruct (has_id provider_id y) eqn:Hy'; [|reflexivity].
          exfalso. apply Hxi. unfold has_id in *.
          apply Z.eqb_eq in Hx, Hy'. rewrite Hx, <- Hy'. apply in_map. exact Hy. }
        exact (Other y (or_intror Hy) Hy' E).
      * constructor.
        -- intros Hin. apply in_map_iff in Hin. destruct Hin as [y' [E Hy']].
           apply in_map_iff in Hy'. destruct Hy' as [y [<- Hy]].
           destruct (has_id provider_id y) eqn:Hyid.
           ++ unfold llm_assign in E. simpl in E. rewrite K in E. simpl in E.
              exact (Other x (or_introl eq_refl) Hx (eq_sym E)).
           ++ apply Hxn. rewrite <- E. apply in_map. exact Hy.
        -- apply IH; try assumption.
           intros r Hr. apply Other. right. exact Hr.
    + replace (map (fun r => if has_id provider_id r then llm_assign kwargs r else r) l)
        with l; [exact Nn|].
      rewrite <- (map_id l) at 1. apply map_ext_in. intros y Hy.
      destruct (has_id provider_id y) eqn:Hy'; [|reflexivity].
      assert (existsb (has_id provider_id) l = true)
        by (apply existsb_exists; exists y; auto).
      congruence.
  - replace (map lp_name
               (map (fun r => if has_id provider_id r then llm_assign kwargs r else r) l))
      with (map lp_name l); [exact Nn|].
    rewrite map_map. apply map_ext. intros r.
    destruct (has_id provider_id r); [|reflexivity].
    unfold llm_assign. simpl. rewrite K. reflexivity.
Qed.

Lemma update_ids (provider_id : Z) (kwargs : LLMProviderFields)
    (l : list LLMProviderRow) :
  map lp_id (map (fun r => if has_id provider_id r then llm_assign kwargs r else r) l)
  = map lp_id l.
Proof.
  rewrite map_map. apply map_ext. intros r.
  destruct (has_id provider_id r); reflexivity.
Qed.

Lemma exec_schema (c : call float) (db : DB) :
  schema_holds db -> schema_holds (exec float str_of_float user_file c db).
Proof.
  intros [Hk [Hn [Hi Hb]]]. unfold schema_holds.
  destruct c as [key value category|key| |name model url mt ak tls pt|pid kwargs|pid
                |pname| ]; simpl.
  - unfold set_setting. destruct (_serialize_value float str_of_float value).
    simpl. split; [apply replace_setting_keys; exact Hk|auto].
  - split; [apply selected_keys_distinct; exact Hk|auto].
  - destruct (populate_settings (defaults user_file) db (defaults_keys user_file))
      as [S [P Q]].
    unfold _populate_defaults. rewrite S, P, Q. split; [|auto].
    apply keys_distinct_app_many.
    + exact Hk.
    + apply selected_keys_distinct. apply defaults_keys.
    + intros x Hx. apply filter_In in Hx. destruct Hx as [_ Hx].
      apply negb_true_iff in Hx. intros Hin. apply existsb_has_key in Hin.
      congruence.
  - unfold add_llm_provider.
    destruct (existsb (fun r => lp_name r =? name) (llm_providers db)) eqn:E;
      simpl; [auto|].
    split; [exact Hk|]. split; [|split].
    + apply keys_distinct_app; [exact Hn|]. simpl. intros Hin.
      apply in_map_iff in Hin. destruct Hin as [r [Er Hr]].
      assert (existsb (fun r => lp_name r =? name) (llm_providers db) = true).
      { apply existsb_exists. exists r. rewrite Er, String.eqb_refl. auto. }
      congruence.
    + apply keys_distinct_app; [exact Hi|]. simpl. intros Hin.
      apply in_map_iff in Hin. destruct Hin as [r [Er Hr]].
      specialize (Hb r Hr). lia.
    + intros r Hr. apply in_app_or in Hr. destruct Hr as [Hr|[<-|[]]].
      * specialize (Hb r Hr). lia.
      * simpl. lia.
  - unfold update_llm_provider.
    destruct (llm_update_fields kwargs); simpl; [|auto].
    destruct (llm_name_taken db pid kwargs) eqn:T; simpl; [auto|].
    split; [exact Hk|]. split; [|split].
    + apply update_names; assumption.
    + rewrite update_ids. exact Hi.
    + apply bounded_by_ids. rewrite update_ids. apply bounded_by_ids. exact Hb.
  - split; [exact Hk|]. split; [|split].
    + apply selected_keys_distinct. exact Hn.
    + apply selected_keys_distinct. exact Hi.
    + intros r Hr. apply filter_In in Hr. apply Hb. tauto.
  - split; [apply (replace_setting_keys
                     (mk_setting "active_llm_provider" pname "string" "ui"));
            exact Hk|].
    destruct (activation_columns pname
                (map (set_is_active false) (llm_providers db))) as [An Ai].
    destruct (set_is_active_columns false (llm_providers db)) as [Cn Ci].
    split; [rewrite An, Cn; exact Hn|]. split; [rewrite Ai, Ci; exact Hi|].
    apply bounded_by_ids. rewrite Ai, Ci. apply bounded_by_ids. exact Hb.
  - unfold get_active_llm_provider.
    destruct (fetchone (filter lp_is_active (llm_providers db))); simpl; [auto|].
    destruct (fetchone (filter (fun r => st_key r =? "active_llm_provider")
                               (settings db))) as [saved|]; simpl; [|auto].
    destruct (fetchone (filter (fun r => lp_name r =? st_value saved)
                               (llm_providers db))); simpl; [|auto].
    destruct (activation_columns (st_value saved) (llm_providers db)) as [An Ai].
    split; [exact Hk|]. split; [rewrite An; exact Hn|].
    split; [rewrite Ai; exact Hi|].
    apply bounded_by_ids. rewrite Ai. apply bounded_by_ids. exact Hb.
Qed.

(** X23.  The settings store keeps the constraints of its schema: in
    every state that calls of the service reach from a store that meets
    them (the empty store does), no key occurs twice in settings, no name
    and no id occurs twice in llm_providers, and no provider id is above the
    counter.  A call that raises (a name that exists, a rename onto a name
    that is taken) leaves the store as it was. *)
Theorem settings_store_keeps_schema (cs : list (call float)) (db : DB) :
  schema_holds db -> schema_holds (run float str_of_float user_file cs db).
Proof.
  revert db. induction cs as [|c cs IH]; intros db H; [exact H|].
  simpl. apply IH. apply exec_schema. exact H.
Qed.

End SchemaInvariant.

Lemma settings_store_keeps_schema_witness :
  schema_holds (SettingsService.run no_float str_of_no_float demo_user_file
                  demo_calls (Settings.mk_db [] [] 0)).
Proof.
  apply (settings_store_keeps_schema no_float str_of_no_float demo_user_file
           demo_calls (Settings.mk_db [] [] 0)).
  unfold schema_holds. simpl. repeat split; try constructor. intros r [].
Defined.
